(** * Prokudin-Gorskii reconstruction: the alignment engine

    A shallow embedding of [code/alignment.py] (similarity metrics,
    exhaustive search, pyramid search) and of [apply_alignment] from
    [code/utils.py], together with the properties of the engine.

    Conventions of the embedding.
    - A 2-D [np.ndarray] is the list of its rows ([grid]).  The
      dimensionality assertion of the source ([ndim == 2]) holds by typing.
    - Python [int] is [Z].  Python [float] is IEEE binary64 and
      [np.float32] is IEEE binary32; both are values of [spec_float], with
      the correctly rounded operations of the Standard Library's
      [SpecFloat] at the respective precision.
    - Exceptions are values of [exn]; code that can raise lives in the
      [result] monad. *)

From Stdlib Require Import String Ascii.
From Stdlib Require Import ZArith List Bool Lia QArith Qround Sorted Permutation.
From Stdlib Require Import SpecFloat.
Import ListNotations.
Open Scope Z_scope.

(** ** Exceptions *)

Inductive exn : Type :=
| AssertionError
| ValueError
| OverflowError.

Inductive result (A : Type) : Type :=
| Ok (a : A)
| Raise (e : exn).

Arguments Ok {A} a.
Arguments Raise {A} e.

Definition bind {A B : Type} (c : result A) (k : A -> result B) : result B :=
  match c with
  | Ok a => k a
  | Raise e => Raise e
  end.

Notation "x <- c ;; k" := (bind c (fun x => k))
  (at level 61, c at next level, right associativity).
Notation "' p <- c ;; k" := (bind c (fun x => let p := x in k))
  (at level 61, p pattern, c at next level, right associativity).

(** ** Floating point *)

Definition is_nan (x : spec_float) : bool :=
  match x with S754_nan => true | _ => false end.

Definition is_finite (x : spec_float) : bool :=
  match x with S754_zero _ | S754_finite _ _ _ => true | _ => false end.

(** The rational number denoted by a finite float ([0] for the others). *)
Definition F2Q (x : spec_float) : Q :=
  match x with
  | S754_finite s m e =>
      match e with
      | Zneg p => Qmake (cond_Zopp s (Zpos m)) (Pos.pow 2 p)
      | _ => inject_Z (cond_Zopp s (Zpos m) * 2 ^ e)
      end
  | _ => 0%Q
  end.

(** Python [float]. *)
Module F64.
Definition prec : Z := 53.
Definition emax : Z := 1024.

Definition mul : spec_float -> spec_float -> spec_float := SFmul prec emax.
Definition div : spec_float -> spec_float -> spec_float := SFdiv prec emax.

(** Nearest binary64 to an integer. *)
Definition of_Z (z : Z) : spec_float := binary_normalize prec emax z 0 false.

(** The literal [n/d] for integers that binary64 holds exactly: the
    correctly rounded quotient is the float a decimal literal denotes. *)
Definition of_ratio (n d : Z) : spec_float := div (of_Z n) (of_Z d).
End F64.

(** [np.float32]. *)
Module F32.
Definition prec : Z := 24.
Definition emax : Z := 128.

Definition add : spec_float -> spec_float -> spec_float := SFadd prec emax.
Definition sub : spec_float -> spec_float -> spec_float := SFsub prec emax.
Definition mul : spec_float -> spec_float -> spec_float := SFmul prec emax.
Definition div : spec_float -> spec_float -> spec_float := SFdiv prec emax.
Definition sqrt : spec_float -> spec_float := SFsqrt prec emax.

(** Casts to binary32: from an integer and from a binary64. *)
Definition of_Z (z : Z) : spec_float := binary_normalize prec emax z 0 false.

Definition of_f64 (x : spec_float) : spec_float :=
  match x with
  | S754_finite s m e => binary_round prec emax s m e
  | _ => x
  end.

(** The constant [1e-8] of [ncc_metric]: the Python float, taken at
    binary32 as NumPy does when it adds it to a binary32 scalar. *)
Definition eps : spec_float := of_f64 (F64.of_ratio 1 100000000).
End F32.

Definition pos_inf : spec_float := S754_infinity false.
Definition neg_inf : spec_float := S754_infinity true.

(** [float(z)] of a Python int: too large an int raises. *)
Definition py_float_of_int (z : Z) : result spec_float :=
  match F64.of_Z z with
  | S754_infinity _ => Raise OverflowError
  | f => Ok f
  end.

(** [int(x)] of a Python float: truncation toward zero; NaN and the
    infinities raise. *)
Definition py_int (x : spec_float) : result Z :=
  match x with
  | S754_nan => Raise ValueError
  | S754_infinity _ => Raise OverflowError
  | S754_zero _ => Ok 0
  | S754_finite s m e => Ok (cond_Zopp s (Z.shiftl (Zpos m) e))
  end.

(** [z * x] for a Python int [z] and a Python float [x]. *)
Definition py_int_mul_float (z : Z) (x : spec_float) : result spec_float :=
  f <- py_float_of_int z ;;
  Ok (F64.mul f x).

(** ** Crop margin (alignment.py, lines 34-35 and 86-87)

    [min(max(0, int(d * edge_crop)), d // 4)] *)
Definition crop_margin (d : Z) (edge_crop : spec_float) : result Z :=
  p <- py_int_mul_float d edge_crop ;;
  t <- py_int p ;;
  Ok (Z.min (Z.max 0 t) (d / 4)).

(** The margin as the specification words it, with rounding to the nearest
    integer (half-way cases upwards) in place of [int]. *)
Definition round_nearest (q : Q) : Z := Qfloor (q + (1 # 2)).

Definition clamp (v lo hi : Z) : Z := Z.min (Z.max lo v) hi.

Definition spec_crop_margin (d : Z) (edge_crop : spec_float) : result Z :=
  p <- py_int_mul_float d edge_crop ;;
  if is_finite p then Ok (clamp (round_nearest (F2Q p)) 0 (d / 4))
  else Raise ValueError.

(** ** Arrays *)

Definition grid (A : Type) : Type := list (list A).

(** [a.shape] of a 2-D array.  An array without rows has width [0]. *)
Definition shape {A} (g : grid A) : nat * nat := (length g, length (hd [] g)).

(** The element types an array can have, with [astype(np.float32)]. *)
Class Dtype (A : Type) : Type := astype_float32 : A -> spec_float.

#[export] Instance int_dtype : Dtype Z := F32.of_Z.
#[export] Instance float64_dtype : Dtype spec_float := F32.of_f64.

Definition astype {A} `{Dtype A} (g : grid A) : grid spec_float :=
  map (map astype_float32) g.

(** Python slicing [l[start:stop]] (step 1), negative indices included. *)
Definition slice_index (i n : Z) : Z :=
  if i <? 0 then Z.max (i + n) 0 else Z.min i n.

Definition py_slice {A} (start stop : Z) (l : list A) : list A :=
  let n := Z.of_nat (length l) in
  let a := slice_index start n in
  let b := slice_index stop n in
  firstn (Z.to_nat (b - a)) (skipn (Z.to_nat a) l).

(** [l[::2]] *)
Fixpoint every_other {A} (l : list A) : list A :=
  match l with
  | x :: _ :: l' => x :: every_other l'
  | _ => l
  end.

(** [g[::2, ::2]] *)
Definition downsample {A} (g : grid A) : grid A :=
  map every_other (every_other g).

(** [np.roll] along one axis: the element at index [i] moves to index
    [(i + shift) mod n]. *)
Definition np_roll1 {A} (shift : Z) (l : list A) : list A :=
  let n := length l in
  match n with
  | O => l
  | _ =>
      let s := Z.to_nat (shift mod Z.of_nat n) in
      skipn (n - s) l ++ firstn (n - s) l
  end.

(** [np.roll(g, shift=(dy, dx), axis=(0, 1))] *)
Definition np_roll {A} (g : grid A) (dy dx : Z) : grid A :=
  map (np_roll1 dx) (np_roll1 dy g).

(** utils.py, [apply_alignment]. *)
Definition apply_alignment {A} (channel : grid A) (dx dy : Z) : grid A :=
  np_roll channel dy dx.

(** [g[ch:h - ch, cw:w - cw]] *)
Definition crop {A} (h w ch cw : Z) (g : grid A) : grid A :=
  map (py_slice cw (w - cw)) (py_slice ch (h - ch) g).

(** *** Element-wise arithmetic with NumPy broadcasting *)

Definition broadcastable (n m : nat) : bool :=
  (n =? m)%nat || (n =? 1)%nat || (m =? 1)%nat.

Definition broadcast_len (n m : nat) : nat :=
  if (n =? 1)%nat then m else n.

Definition stretch {A} (n : nat) (l : list A) : list A :=
  match l with
  | [x] => repeat x n
  | _ => l
  end.

Definition map2 {A B C} (f : A -> B -> C) (l1 : list A) (l2 : list B) : list C :=
  map (fun p => f (fst p) (snd p)) (combine l1 l2).

(** [a op b] for two 2-D arrays: shapes that cannot be broadcast together
    raise [ValueError]. *)
Definition np_binop (op : spec_float -> spec_float -> spec_float)
    (a b : grid spec_float) : result (grid spec_float) :=
  let '(h1, w1) := shape a in
  let '(h2, w2) := shape b in
  if broadcastable h1 h2 && broadcastable w1 w2 then
    let h := broadcast_len h1 h2 in
    let w := broadcast_len w1 w2 in
    Ok (map2 (fun r1 r2 => map2 op (stretch w r1) (stretch w r2))
          (stretch h a) (stretch h b))
  else Raise ValueError.

(** [a op x] for an array and a scalar. *)
Definition np_scalar (op : spec_float -> spec_float -> spec_float)
    (a : grid spec_float) (x : spec_float) : grid spec_float :=
  map (map (fun y => op y x)) a.

(** *** Reductions

    [np.sum] of a float array is [np.add.reduce] at binary32.  The order in
    which the elements are added moves the rounding of the result and is
    NumPy's, not the source's: the reduction is a parameter of the
    development, and the properties that speak of all grids hold for every
    reduction. *)
Class Reduction : Type := np_sum : grid spec_float -> spec_float.

(** NumPy's own reduction, which the sample runs below are evaluated with.
    For a C-contiguous array (what [astype] and the arithmetic return) the
    accumulator starts from the identity of the addition, [0.0], and the
    loop of [add] adds to it the pairwise sum of all the elements, in
    row-major order (NumPy, loops_utils.h.src, [pairwise_sum]):
    - fewer than 8 elements are added one by one;
    - up to 128 elements are added into 8 accumulators, element [i] into
      accumulator [i mod 8], the accumulators are added as
      [((r0 + r1) + (r2 + r3)) + ((r4 + r5) + (r6 + r7))] and what is left
      past the last full block of 8 is added one by one;
    - more than 128 elements are split at [n2 = n/2 - (n/2) mod 8] and the
      sums of the two parts are added. *)

(** [k] blocks of 8 elements of [a] added to the accumulators [r]; what is
    left of [a] comes back with them. *)
Fixpoint add_blocks (k : nat) (r a : list spec_float)
  : list spec_float * list spec_float :=
  match k with
  | O => (r, a)
  | S k' => add_blocks k' (map2 F32.add r (firstn 8 a)) (skipn 8 a)
  end.

Definition sum8 (r : list spec_float) : spec_float :=
  let x i := nth i r (S754_zero false) in
  F32.add (F32.add (F32.add (x 0%nat) (x 1%nat)) (F32.add (x 2%nat) (x 3%nat)))
          (F32.add (F32.add (x 4%nat) (x 5%nat)) (F32.add (x 6%nat) (x 7%nat))).

(** The branch for [8 <= n <= 128]. *)
Definition block_sum (a : list spec_float) : spec_float :=
  let n := length a in
  let '(r, rest) := add_blocks (n / 8 - 1) (firstn 8 a) (skipn 8 a) in
  fold_left F32.add rest (sum8 r).

(** The short loop starts from [-0.0] ([0.0] in older releases: added to
    the identity the result is the same, see [pairwise_sum_start]).  The
    recursion halves the list: [fuel] bounds its depth, and the length of
    the list is more than enough ([pairwise_sum_fuel]). *)
Fixpoint pairwise_sum (fuel : nat) (a : list spec_float) : spec_float :=
  let n := length a in
  if (n <? 8)%nat then fold_left F32.add a (S754_zero true)
  else if (n <=? 128)%nat then block_sum a
  else
    match fuel with
    | O => block_sum a
    | S fuel' =>
        let n2 := (n / 2 - (n / 2) mod 8)%nat in
        F32.add (pairwise_sum fuel' (firstn n2 a))
                (pairwise_sum fuel' (skipn n2 a))
    end.

#[export] Instance numpy_sum : Reduction :=
  fun g =>
    let a := concat g in
    F32.add (S754_zero false) (pairwise_sum (length a) a).

Definition np_size {A} (g : grid A) : Z := Z.of_nat (length (concat g)).

(** [a.mean()]: the sum divided by the number of elements. *)
Definition np_mean `{Reduction} (g : grid spec_float) : spec_float :=
  F32.div (np_sum g) (F32.of_Z (np_size g)).

(** [a.std()]: the square root of the mean squared deviation. *)
Definition np_std `{Reduction} (g : grid spec_float) : spec_float :=
  let x := np_scalar F32.sub g (np_mean g) in
  let x2 := map (map (fun y => F32.mul y y)) x in
  F32.sqrt (np_mean x2).

(** ** Similarity metrics (alignment.py, lines 3-18) *)

Section Metrics.
Context {A : Type} `{Dtype A} `{Reduction}.

Definition ssd_metric (a b : grid A) : result spec_float :=
  let a := astype a in
  let b := astype b in
  diff <- np_binop F32.sub a b ;;
  sq <- np_binop F32.mul diff diff ;;
  Ok (np_sum sq).

(** The divisor [x.std() + 1e-8]. *)
Definition ncc_divisor (x : grid spec_float) : spec_float :=
  F32.add (np_std x) F32.eps.

Definition ncc_metric (a b : grid A) : result spec_float :=
  let a := astype a in
  let b := astype b in
  let a_mean := np_mean a in
  let b_mean := np_mean b in
  let a_std := ncc_divisor a in
  let b_std := ncc_divisor b in
  prod <- np_binop F32.mul
            (np_scalar F32.div (np_scalar F32.sub a a_mean) a_std)
            (np_scalar F32.div (np_scalar F32.sub b b_mean) b_std) ;;
  Ok (np_sum prod).
End Metrics.

(** ** Loops *)

(** [range(a, b)] *)
Definition py_range (a b : Z) : list Z :=
  map (fun i => a + Z.of_nat i) (seq 0 (Z.to_nat (b - a))).

(** A [for] loop whose body can raise: the first exception ends it. *)
Fixpoint for_each {S C : Type} (body : S -> C -> result S) (l : list C) (st : S)
  : result S :=
  match l with
  | [] => Ok st
  | c :: l' => st' <- body st c ;; for_each body l' st'
  end.

(** The candidate displacements [(dx, dy)] in the order of the two nested
    loops [for dy in range(-R, R + 1): for dx in range(-R, R + 1)]. *)
Definition candidates (R : Z) : list (Z * Z) :=
  flat_map (fun dy => map (fun dx => (dx, dy)) (py_range (- R) (R + 1)))
           (py_range (- R) (R + 1)).

(** [s.lower()] on ASCII strings.  (A string is lowered to ["ncc"] only if
    it is made of the ASCII letters n, c, N and C.) *)
Definition lower_ascii (c : ascii) : ascii :=
  let n := nat_of_ascii c in
  if ((65 <=? n) && (n <=? 90))%nat then ascii_of_nat (n + 32) else c.

Fixpoint lower (s : string) : string :=
  match s with
  | EmptyString => EmptyString
  | String c s' => String (lower_ascii c) (lower s')
  end.

(** ** Exhaustive search (alignment.py, lines 20-54) *)

Section Search.
Context {A : Type} `{Dtype A} `{Reduction}.

(** The loop state [(best_score, (best_dx, best_dy))]. *)
Definition search_state : Type := spec_float * (Z * Z).

(** [-np.inf if use_ncc else np.inf] with [best_dx = best_dy = 0] *)
Definition search_init (use_ncc : bool) : search_state :=
  (if use_ncc then neg_inf else pos_inf, (0, 0)).

(** The body of the inner loop (lines 44-53, and again 95-104). *)
Definition search_body (use_ncc : bool) (ref_crop target : grid A)
    (h w ch cw : Z) (st : search_state) (c : Z * Z) : result search_state :=
  let '(dx, dy) := c in
  let '(best_score, _) := st in
  let shifted := np_roll target dy dx in
  let shifted_crop := crop h w ch cw shifted in
  if use_ncc then
    score <- ncc_metric ref_crop shifted_crop ;;
    if SFltb best_score score then Ok (score, (dx, dy)) else Ok st
  else
    score <- ssd_metric ref_crop shifted_crop ;;
    if SFltb score best_score then Ok (score, (dx, dy)) else Ok st.

Definition align_bruteforce (reference target : grid A) (search_range : Z)
    (metric : string) (edge_crop : spec_float) : result (Z * Z * spec_float) :=
  let '(h, w) := shape reference in
  let h := Z.of_nat h in
  let w := Z.of_nat w in
  ch <- crop_margin h edge_crop ;;
  cw <- crop_margin w edge_crop ;;
  let ref_crop := crop h w ch cw reference in
  let use_ncc := String.eqb (lower metric) "ncc" in
  st <- for_each (search_body use_ncc ref_crop target h w ch cw)
          (candidates search_range) (search_init use_ncc) ;;
  let '(best_score, (best_dx, best_dy)) := st in
  Ok (best_dx, best_dy, best_score).

(** ** Pyramid search (alignment.py, lines 56-112) *)

(** [refs] after the loop of lines 72-74 has run [n] times. *)
Fixpoint build_pyramid (n : nat) (g : grid A) : list (grid A) :=
  g :: match n with
       | O => []
       | S n' => build_pyramid n' (downsample g)
       end.

(** [range(1, max(1, levels))] has this many elements. *)
Definition extra_levels (levels : Z) : nat := Z.to_nat (Z.max 1 levels - 1).

(** Line 84: [base_search if lvl == 0 else refine_search] *)
Definition level_search (lvl : nat) (base_search refine_search : Z) : Z :=
  if (lvl =? 0)%nat then base_search else refine_search.

(** The body of the loop over the levels (lines 80-110), on the
    accumulator [(dx_total, dy_total)], for the radius [search] that
    line 84 selects. *)
Definition level_step (refs tars : list (grid A)) (use_ncc : bool)
    (edge_crop : spec_float) (search : Z) (acc : Z * Z) (lvl : nat)
  : result (Z * Z) :=
  let '(dx_total, dy_total) := acc in
  let ref_l := nth lvl refs [] in
  let tar_l := nth lvl tars [] in
  let est := np_roll tar_l dy_total dx_total in
  let '(h, w) := shape ref_l in
  let h := Z.of_nat h in
  let w := Z.of_nat w in
  ch <- crop_margin h edge_crop ;;
  cw <- crop_margin w edge_crop ;;
  let ref_crop := crop h w ch cw ref_l in
  st <- for_each (search_body use_ncc ref_crop est h w ch cw)
          (candidates search) (search_init use_ncc) ;;
  let '(_, (best_dx, best_dy)) := st in
  let dx_total := dx_total + best_dx in
  let dy_total := dy_total + best_dy in
  if (lvl =? 0)%nat then Ok (dx_total, dy_total)
  else Ok (dx_total * 2, dy_total * 2).

Definition level_body (refs tars : list (grid A)) (base_search refine_search : Z)
    (use_ncc : bool) (edge_crop : spec_float) (acc : Z * Z) (lvl : nat)
  : result (Z * Z) :=
  let search := level_search lvl base_search refine_search in
  level_step refs tars use_ncc edge_crop search acc lvl.

(** [reversed(range(len(refs)))] *)
Definition level_order (refs : list (grid A)) : list nat :=
  rev (seq 0 (length refs)).

Definition pyramid_align (reference target : grid A) (levels : Z)
    (base_search refine_search : Z) (metric : string) (edge_crop : spec_float)
  : result (Z * Z) :=
  let refs := build_pyramid (extra_levels levels) reference in
  let tars := build_pyramid (extra_levels levels) target in
  let use_ncc := String.eqb (lower metric) "ncc" in
  for_each (level_body refs tars base_search refine_search use_ncc edge_crop)
    (level_order refs) (0, 0).
End Search.

(** ** Vocabulary of the properties *)

(** One step of a best-candidate scan: score the candidate, keep it when it
    is strictly better than the best so far. *)
Definition scan_body {C F : Type} (score : C -> result F) (better : F -> F -> bool)
    (st : F * C) (c : C) : result (F * C) :=
  s <- score c ;;
  Ok (if better s (fst st) then (s, c) else st).

(** [metric.lower() == "ncc"] *)
Definition uses_ncc (metric : string) : bool := String.eqb (lower metric) "ncc".

(** "[s] is strictly better than [b]": [s > b] for NCC, [s < b] for SSD. *)
Definition better_score (use_ncc : bool) (s b : spec_float) : bool :=
  if use_ncc then SFltb b s else SFltb s b.

(** "[s] is at least as good as [t]": [s >= t] for NCC, [s <= t] for SSD. *)
Definition at_least_as_good (use_ncc : bool) (s t : spec_float) : bool :=
  if use_ncc then SFleb t s else SFleb s t.

(** The score the loop body computes for the candidate [c = (dx, dy)]. *)
Definition candidate_score {A} `{Dtype A} `{Reduction}
    (use_ncc : bool) (ref_crop target : grid A)
    (h w ch cw : Z) (c : Z * Z) : result spec_float :=
  let shifted_crop := crop h w ch cw (np_roll target (snd c) (fst c)) in
  if use_ncc then ncc_metric ref_crop shifted_crop
  else ssd_metric ref_crop shifted_crop.

(** The score of the displacement [c] in a call
    [align_bruteforce reference target _ metric edge_crop]: the selected
    metric on the cropped reference and the cropped, rolled target. *)
Definition displacement_score {A} `{Dtype A} `{Reduction}
    (reference target : grid A)
    (metric : string) (edge_crop : spec_float) (c : Z * Z) : result spec_float :=
  let h := Z.of_nat (fst (shape reference)) in
  let w := Z.of_nat (snd (shape reference)) in
  ch <- crop_margin h edge_crop ;;
  cw <- crop_margin w edge_crop ;;
  candidate_score (uses_ncc metric) (crop h w ch cw reference) target h w ch cw c.

(** The square [[-R, R] x [-R, R]]. *)
Definition in_window (R : Z) (c : Z * Z) : Prop :=
  - R <= fst c <= R /\ - R <= snd c <= R.

(** [c1] is enumerated no later than [c2]: row-major, [dy] outer. *)
Definition enumerated_before_eq (c1 c2 : Z * Z) : Prop :=
  snd c1 < snd c2 \/ (snd c1 = snd c2 /\ fst c1 <= fst c2).

(** Strictly earlier in the enumeration. *)
Definition enumerated_before (c1 c2 : Z * Z) : Prop :=
  snd c1 < snd c2 \/ (snd c1 = snd c2 /\ fst c1 < fst c2).

(** Every row has the width that [shape] reports. *)
Definition rectangular {A} (g : grid A) : Prop :=
  Forall (fun r => length r = snd (shape g)) g.

(** Against [G] itself, the shift [c0] scores strictly better than the
    shift [c]. *)
Definition strictly_better_shift {A} `{Dtype A} `{Reduction}
    (G : grid A) (metric : string)
    (edge_crop : spec_float) (c0 c : Z * Z) : bool :=
  match displacement_score G G metric edge_crop c0,
        displacement_score G G metric edge_crop c with
  | Ok s0, Ok s => better_score (uses_ncc metric) s0 s
  | _, _ => false
  end.


(** The product [d * edge_crop] is a finite float, so [int] accepts it. *)
Definition margin_defined (d : Z) (edge_crop : spec_float) : bool :=
  match py_int_mul_float d edge_crop with
  | Ok p => is_finite p
  | Raise _ => false
  end.

(** The levels in the order [pyramid_align] visits them, each with the
    search radius it uses there. *)
Definition search_schedule {A} (refs : list (grid A)) (base_search refine_search : Z)
  : list (nat * Z) :=
  map (fun lvl => (lvl, level_search lvl base_search refine_search))
      (level_order refs).

(** The search that the claim about unknown metric names describes: every
    candidate of the window is scored with [ssd_metric] on the cropped
    reference and the cropped, rolled target, and a candidate replaces the
    best so far when its score is lower; the result is the best score with
    its displacement. *)
Definition ssd_search {A} `{Dtype A} `{Reduction} (reference target : grid A)
    (R : Z) (edge_crop : spec_float) : result (spec_float * (Z * Z)) :=
  let h := Z.of_nat (fst (shape reference)) in
  let w := Z.of_nat (snd (shape reference)) in
  ch <- crop_margin h edge_crop ;;
  cw <- crop_margin w edge_crop ;;
  for_each
    (scan_body
       (fun c => ssd_metric (crop h w ch cw reference)
                            (crop h w ch cw (np_roll target (snd c) (fst c))))
       (fun s best => SFltb s best))
    (candidates R) (pos_inf, (0, 0)).

(** ** Sample data *)

(** A 3x3 grid of distinct samples. *)
Definition sample_grid : grid Z := [[1; 2; 3]; [4; 5; 6]; [7; 8; 10]].

(** A 4x4 grid of distinct samples. *)
Definition sample_grid4 : grid Z :=
  [[1; 2; 3; 4]; [5; 6; 7; 8]; [9; 10; 11; 12]; [13; 14; 15; 17]].

(** A 2x2 reference and a 3x3 target that holds it in its top-left corner. *)
Definition small_ref : grid Z := [[1; 2]; [3; 4]].
Definition large_target : grid Z := [[1; 2; 9]; [3; 4; 9]; [9; 9; 9]].

(** A constant grid. *)
Definition flat_grid : grid Z := [[5; 5]; [5; 5]].

(** A 4x4 grid that repeats with period 2 along both axes. *)
Definition periodic_grid : grid Z :=
  [[1; 2; 1; 2]; [3; 4; 3; 4]; [1; 2; 1; 2]; [3; 4; 3; 4]].

(** Float grids: [1e20], [-1e20], and [1e39] next to [0.0]. *)
Definition huge_grid : grid spec_float := [[F64.of_Z (10 ^ 20)]].
Definition huge_grid_neg : grid spec_float := [[F64.of_Z (- 10 ^ 20)]].
Definition overflowing_grid : grid spec_float :=
  [[F64.of_Z (10 ^ 39); S754_zero false]].

(** [edge_crop = 0.0], [0.1] (the default), [0.1875] and [0.5] *)
Definition no_crop : spec_float := S754_zero false.
Definition default_crop : spec_float := F64.of_ratio 1 10.
Definition crop_3_16 : spec_float := F64.of_ratio 3 16.
Definition half_crop : spec_float := F64.of_ratio 1 2.


(** ** The rest of utils.py and main.py *)

(** utils.py, [split_image]: the three planes, top to bottom. *)
Definition split_image {A} (stacked_img : grid A) : grid A * grid A * grid A :=
  let '(h, w) := shape stacked_img in
  let h3 := Z.of_nat h / 3 in
  let b := py_slice 0 h3 stacked_img in
  let g := py_slice h3 (2 * h3) stacked_img in
  let r := py_slice (2 * h3) (3 * h3) stacked_img in
  (b, g, r).


(** main.py, [process_image], lines 28-31: the metric name that the
    aligners are called with. *)
Definition metric_name (metric : string) : string :=
  let metric_name := lower metric in
  if negb (String.eqb metric_name "ssd" || String.eqb metric_name "ncc")
  then "ncc" else metric_name.

Section Process.
Context {A : Type} `{Dtype A} `{Reduction}.

(** main.py, [process_image], lines 24-45, on the plate that [load_image]
    returned: the three planes are split, green and red are aligned to
    blue and shifted.  The result is the planes that go on to
    [create_color_image], with the shifts of the returned dictionary
    (green, then red). *)
Definition process_image (stacked : grid A) (metric : string) (use_pyramid : bool)
  : result (grid A * grid A * grid A * (Z * Z) * (Z * Z)) :=
  let '(b, g, r) := split_image stacked in
  let metric_name := metric_name metric in
  shifts <-
    (if use_pyramid then
       g_shift <- pyramid_align b g 5 4 2 metric_name default_crop ;;
       r_shift <- pyramid_align b r 5 4 2 metric_name default_crop ;;
       Ok (g_shift, r_shift)
     else
       g_res <- align_bruteforce b g 15 metric_name default_crop ;;
       r_res <- align_bruteforce b r 15 metric_name default_crop ;;
       Ok (fst g_res, fst r_res)) ;;
  let '((dx_g, dy_g), (dx_r, dy_r)) := shifts in
  let g_al := apply_alignment g dx_g dy_g in
  let r_al := apply_alignment r dx_r dy_r in
  Ok (b, g_al, r_al, (dx_g, dy_g), (dx_r, dy_r)).
End Process.

(** ** Automatic cropping (utils.py, lines 35-73) *)

(** [range(a, b, -1)] *)
Definition py_range_down (a b : Z) : list Z :=
  map (fun i => a - Z.of_nat i) (seq 0 (Z.to_nat (a - b))).

(** The scan [for i in l: if bright(i): x = i; break] from the initial
    value of [x]. *)
Definition first_bright (bright : Z -> bool) (l : list Z) (x : Z) : Z :=
  match find bright l with
  | Some i => i
  | None => x
  end.

Section AutoCrop.
Context {P : Type}.

(** [gray[i, :].mean()] and [gray[:, j].mean()] for the grayscale image
    [gray] that OpenCV computes from [img_rgb]: the conversion is
    OpenCV's, and the function is modelled for any two such means. *)
Variables row_mean col_mean : Z -> spec_float.

(** [img_rgb] is the grid of its pixels; [x > thresh] on floats. *)
Definition auto_crop (img_rgb : grid P) (thresh : spec_float) (max_crop : Z)
  : grid P * (Z * Z * Z * Z) :=
  let '(h, w) := shape img_rgb in
  let h := Z.of_nat h in
  let w := Z.of_nat w in
  let top :=
    first_bright (fun i => SFltb thresh (row_mean i))
      (py_range 0 (Z.min max_crop (h / 3))) 0 in
  let bottom :=
    first_bright (fun i => SFltb thresh (row_mean i))
      (py_range_down (h - 1) (Z.max (h - 1 - max_crop) (h * 2 / 3))) (h - 1) in
  let left :=
    first_bright (fun j => SFltb thresh (col_mean j))
      (py_range 0 (Z.min max_crop (w / 3))) 0 in
  let right :=
    first_bright (fun j => SFltb thresh (col_mean j))
      (py_range_down (w - 1) (Z.max (w - 1 - max_crop) (w * 2 / 3))) (w - 1) in
  let pad := 2 in
  let top := Z.max 0 (top + pad) in
  let left := Z.max 0 (left + pad) in
  let bottom := Z.min (h - 1) (bottom - pad) in
  let right := Z.min (w - 1) (right - pad) in
  if (bottom <=? top) || (right <=? left) then (img_rgb, (0, h - 1, 0, w - 1))
  else (map (py_slice left (right + 1)) (py_slice top (bottom + 1) img_rgb),
        (top, bottom, left, right)).
End AutoCrop.

(** ** Colour composition (utils.py, lines 26-33) *)

(** [x.min()] and [x.max()] of a float array: an empty array raises, a
    NaN wins over every number.  (Between [-0.0] and [0.0], which NumPy
    does not order, the model keeps the one met first.) *)
Definition np_extremum (before : spec_float -> spec_float -> bool)
    (g : grid spec_float) : result spec_float :=
  match concat g with
  | [] => Raise ValueError
  | x :: l =>
      Ok (fold_left
            (fun m y =>
               if is_nan m then m
               else if is_nan y then y
               else if before y m then y else m)
            l x)
  end.

Definition np_min : grid spec_float -> result spec_float :=
  np_extremum SFltb.

Definition np_max : grid spec_float -> result spec_float :=
  np_extremum (fun y m => SFltb m y).

(** [astype(np.uint8)] of a float: truncation toward zero.  The C cast
    that NumPy uses is undefined for a NaN and when the truncated value
    does not fit the type: the model has no value there. *)
Definition to_uint8 (x : spec_float) : option Z :=
  match x with
  | S754_zero _ => Some 0
  | S754_finite s m e =>
      let z := cond_Zopp s (Z.shiftl (Zpos m) e) in
      if (0 <=? z) && (z <=? 255) then Some z else None
  | _ => None
  end.

(** The Python float [255.0] at binary32. *)
Definition f32_255 : spec_float := F32.of_f64 (F64.of_Z 255).

(** The inner function [norm] of [create_color_image]. *)
Definition norm {A} `{Dtype A} (x : grid A) : result (grid (option Z)) :=
  let x := astype x in
  x_min <- np_min x ;;
  x_max <- np_max x ;;
  let x :=
    np_scalar F32.div (np_scalar F32.sub x x_min)
      (F32.add (F32.sub x_max x_min) F32.eps) in
  Ok (map (map to_uint8) (np_scalar F32.mul x f32_255)).

(** [np.dstack] of three 2-D arrays: the shapes have to agree. *)
Definition np_dstack {X} (a b c : grid X) : result (grid (X * X * X)) :=
  if (fst (shape a) =? fst (shape b))%nat && (snd (shape a) =? snd (shape b))%nat
     && (fst (shape a) =? fst (shape c))%nat && (snd (shape a) =? snd (shape c))%nat
  then Ok (map2 (fun ra rbc => map2 (fun x yz => (x, fst yz, snd yz)) ra rbc)
             a (map2 (fun rb rc => combine rb rc) b c))
  else Raise ValueError.

Definition create_color_image {A} `{Dtype A} (b g r : grid A)
  : result (grid (option Z * option Z * option Z)) :=
  B <- norm b ;;
  G <- norm g ;;
  R <- norm r ;;
  np_dstack R G B.

(** The grey levels of an 8-bit plane stretched to the full range with
    integer arithmetic: [255 * (v - lo) // (hi - lo)], and [0] everywhere
    when the plane has one level only. *)
Definition plane_min (x : grid Z) : Z :=
  match concat x with
  | [] => 0
  | v :: l => fold_left Z.min l v
  end.

Definition plane_max (x : grid Z) : Z :=
  match concat x with
  | [] => 0
  | v :: l => fold_left Z.max l v
  end.

Definition stretch_levels (x : grid Z) : grid Z :=
  let lo := plane_min x in
  let hi := plane_max x in
  map (map (fun v => if hi =? lo then 0 else 255 * (v - lo) / (hi - lo))) x.

(** The planes that [load_image] reads have 8-bit samples. *)
Definition eight_bit (x : grid Z) : Prop :=
  Forall (Forall (fun v => 0 <= v <= 255)) x.

(** ** More sample data *)

(** A plate of seven rows: three planes of two rows and one row over. *)
Definition sample_plate : grid Z :=
  [[1; 2]; [3; 4]; [2; 1]; [4; 3]; [1; 2]; [3; 5]; [9; 9]].

(** A 6x6 image, and row and column means that are all [0.0]. *)
Definition dark_image : grid Z := repeat (repeat 0 6%nat) 6%nat.
Definition dark_mean (i : Z) : spec_float := S754_zero false.

(** * Properties *)

(** ** The reduction of NumPy *)

(** The fuel of [pairwise_sum] never runs out when it is at least the
    length of the list: any two such amounts give the same sum. *)
Lemma pairwise_sum_fuel (f1 f2 : nat) (a : list spec_float) :
  (length a <= f1)%nat -> (length a <= f2)%nat ->
  pairwise_sum f1 a = pairwise_sum f2 a.
Proof.
  revert f2 a. induction f1 as [|f1 IH]; intros f2 a H1 H2.
  - destruct a; [|simpl in H1; lia]. destruct f2; reflexivity.
  - destruct f2 as [|f2].
    + destruct a; [reflexivity|simpl in H2; lia].
    + cbn [pairwise_sum].
      destruct (Nat.ltb_spec (length a) 8); [reflexivity|].
      destruct (Nat.leb_spec (length a) 128); [reflexivity|].
      set (n2 := (length a / 2 - (length a / 2) mod 8)%nat).
      assert (Hn2 : (0 < n2 < length a)%nat).
      { unfold n2.
        pose proof (Nat.mod_upper_bound (length a / 2) 8 ltac:(lia)).
        pose proof (Nat.Div0.mul_div_le (length a) 2).
        assert (64 <= length a / 2)%nat
          by (apply (Nat.Div0.div_le_mono 128 (length a) 2); lia).
        lia. }
      f_equal; apply IH; rewrite ?length_firstn, ?length_skipn; lia.
Qed.

(** The zero that the short loop starts from does not show in the result
    of the reduction. *)
Lemma pairwise_sum_start (l : list spec_float) :
  F32.add (S754_zero false) (fold_left F32.add l (S754_zero true)) =
  F32.add (S754_zero false) (fold_left F32.add l (S754_zero false)).
Proof.
  assert (Hinv : forall x y,
            x = y \/ (x = S754_zero true /\ y = S754_zero false) ->
            F32.add (S754_zero false) (fold_left F32.add l x) =
            F32.add (S754_zero false) (fold_left F32.add l y)).
  { induction l as [|a l IH]; intros x y [->|[-> ->]]; try reflexivity.
    cbn [fold_left]. apply IH.
    destruct a as [[|]| | |]; cbn; auto. }
  apply Hinv. right. split; reflexivity.
Qed.

(** Fewer than 8 elements: the sum from [0.0], one element after the
    other. *)
Lemma np_sum_short (g : grid spec_float) :
  (length (concat g) < 8)%nat ->
  np_sum g = F32.add (S754_zero false) (fold_left F32.add (concat g) (S754_zero false)).
Proof.
  intros Hn. unfold np_sum, numpy_sum. cbv zeta.
  destruct (length (concat g)) as [|f] eqn:En.
  - destruct (concat g); [reflexivity|discriminate].
  - cbn [pairwise_sum]. rewrite En.
    destruct (Nat.ltb_spec (S f) 8); [|lia]. apply pairwise_sum_start.
Qed.

(** ** The exception monad *)

Lemma bind_Ok {A B} (c : result A) (k : A -> result B) (b : B) :
  bind c k = Ok b -> exists a, c = Ok a /\ k a = Ok b.
Proof. destruct c as [a|e]; simpl; intros E; [exists a; auto | discriminate]. Qed.

(** ** Floating-point order *)

Ltac cmp_cases :=
  repeat match goal with
  | |- context [Z.compare ?a ?b] => destruct (Z.compare_spec a b)
  | H : context [Z.compare ?a ?b] |- _ => destruct (Z.compare_spec a b)
  | |- context [Pos.compare_cont Eq ?a ?b] =>
      change (Pos.compare_cont Eq a b) with (Pos.compare a b);
      destruct (Pos.compare_spec a b)
  | H : context [Pos.compare_cont Eq ?a ?b] |- _ =>
      change (Pos.compare_cont Eq a b) with (Pos.compare a b) in H;
      destruct (Pos.compare_spec a b)
  end.

Ltac float_cases :=
  unfold SFleb, SFltb, SFcompare, is_nan;
  repeat match goal with
  | x : spec_float |- _ => destruct x
  | s : bool |- _ => destruct s
  end;
  simpl; intros;
  try discriminate; try reflexivity; auto;
  cmp_cases; simpl in *; subst;
  try discriminate; try reflexivity; auto; try lia.

Lemma SFltb_irrefl (x : spec_float) : SFltb x x = false.
Proof. float_cases. Qed.

Lemma SFltb_not_nan (x y : spec_float) :
  SFltb x y = true -> is_nan x = false /\ is_nan y = false.
Proof. float_cases. Qed.

Lemma SFltb_trans (x y z : spec_float) :
  SFltb x y = true -> SFltb y z = true -> SFltb x z = true.
Proof. float_cases. Qed.

Lemma SFltb_cotrans (x y z : spec_float) :
  is_nan y = false -> SFltb x z = true -> SFltb x y = true \/ SFltb y z = true.
Proof. float_cases. Qed.

Lemma SFleb_total (x y : spec_float) :
  is_nan x = false -> is_nan y = false -> SFleb x y = negb (SFltb y x).
Proof. float_cases. Qed.

(** ** Truncation *)

Lemma max0_trunc_floor (s : bool) (m : positive) (e : Z) :
  Z.max 0 (cond_Zopp s (Z.shiftl (Zpos m) e)) =
  Z.max 0 (Qfloor (F2Q (S754_finite s m e))).
Proof.
  destruct e as [|p|q]; cbn [F2Q].
  - rewrite Z.shiftl_0_r, Z.pow_0_r, Z.mul_1_r, Qfloor_Z. reflexivity.
  - rewrite Z.shiftl_mul_pow2 by lia. rewrite Qfloor_Z.
    destruct s; cbn [cond_Zopp]; [rewrite Z.mul_opp_l|]; reflexivity.
  - change (Z.shiftl (Zpos m) (Zneg q)) with (Z.shiftr (Zpos m) (Zpos q)).
    rewrite Z.shiftr_div_pow2 by lia.
    unfold Qfloor. rewrite Pos2Z.inj_pow.
    assert (Hd : 0 < 2 ^ Zpos q) by (apply Z.pow_pos_nonneg; lia).
    destruct s; cbn [cond_Zopp]; [|reflexivity].
    assert (0 <= Zpos m / 2 ^ Zpos q) by (apply Z.div_pos; lia).
    assert (- Zpos m / 2 ^ Zpos q < 0) by (apply Z.div_lt_upper_bound; lia).
    lia.
Qed.

(** ** Best-candidate scans *)

Section Scan.
Variables C F : Type.
Variable score : C -> result F.
Variable better : F -> F -> bool.
Variable comparable : F -> Prop.

Hypothesis better_irrefl : forall x, better x x = false.
Hypothesis better_trans :
  forall x y z, better x y = true -> better y z = true -> better x z = true.
Hypothesis better_comparable : forall x y, better x y = true -> comparable x.
Hypothesis better_cotrans :
  forall x y z, comparable y -> better x z = true ->
                better x y = true \/ better y z = true.

Hypothesis C_eq_dec : forall x y : C, {x = y} + {x <> y}.

Local Abbreviation scan := (for_each (scan_body score better)).

Lemma scan_cons c l st :
  scan (c :: l) st =
  (s <- score c ;; scan l (if better s (fst st) then (s, c) else st)).
Proof. simpl. unfold scan_body. destruct (score c); reflexivity. Qed.

Lemma scan_app l1 l2 st :
  scan (l1 ++ l2) st = (st1 <- scan l1 st ;; scan l2 st1).
Proof.
  revert st. induction l1 as [|c l1 IH]; intros st; [reflexivity|].
  simpl. destruct (scan_body score better st c); simpl; auto.
Qed.

Lemma scan_total l st :
  (forall c, In c l -> exists s, score c = Ok s) ->
  exists st', scan l st = Ok st'.
Proof.
  revert st. induction l as [|c l IH]; intros st Hs.
  - exists st. reflexivity.
  - destruct (Hs c (or_introl eq_refl)) as [s Es].
    rewrite scan_cons, Es. simpl. apply IH.
    intros c' Hc'. apply Hs. right. exact Hc'.
Qed.

Lemma scan_raise c l st e :
  score c = Raise e -> scan (c :: l) st = Raise e.
Proof. intros E. rewrite scan_cons, E. reflexivity. Qed.

Lemma scan_scored l st st' :
  scan l st = Ok st' -> forall c, In c l -> exists s, score c = Ok s.
Proof.
  revert st. induction l as [|c l IH]; intros st E c' Hc'; [destruct Hc'|].
  rewrite scan_cons in E. apply bind_Ok in E. destruct E as (s & Es & E).
  destruct Hc' as [<-|Hc']; [exists s; exact Es | eapply IH; eauto].
Qed.

(** The scan either keeps its state or ends on a candidate of the list
    whose score is strictly better than the initial one. *)
Lemma scan_progress l st st' :
  scan l st = Ok st' ->
  st' = st \/
  (In (snd st') l /\ score (snd st') = Ok (fst st') /\
   better (fst st') (fst st) = true).
Proof.
  revert st. induction l as [|c l IH]; intros st E.
  - left. simpl in E. congruence.
  - rewrite scan_cons in E. apply bind_Ok in E. destruct E as (s & Es & E).
    apply IH in E. destruct (better s (fst st)) eqn:Eb.
    + right. destruct E as [->|(Hin & Hsc & Hb)]; simpl.
      * repeat split; auto.
      * simpl in Hb. split; [auto|]. split; [exact Hsc|]. eapply better_trans; eauto.
    + destruct E as [->|(Hin & Hsc & Hb)]; [left; reflexivity|right].
      repeat split; simpl; auto.
Qed.

Lemma scan_comparable l st st' :
  scan l st = Ok st' -> comparable (fst st) -> comparable (fst st').
Proof.
  intros E Hc. destruct (scan_progress _ _ _ E) as [->|(_ & _ & Hb)]; eauto.
Qed.

(** No candidate of the list is strictly better than the final best, and
    neither is the initial score. *)
Lemma scan_no_better l st st' :
  comparable (fst st) ->
  scan l st = Ok st' ->
  better (fst st) (fst st') = false /\
  forall c s, In c l -> score c = Ok s -> better s (fst st') = false.
Proof.
  revert st. induction l as [|c l IH]; intros st Hc E.
  - simpl in E. injection E as <-. split; [apply better_irrefl|intros ? ? []].
  - rewrite scan_cons in E. apply bind_Ok in E. destruct E as (s & Es & E).
    destruct (better s (fst st)) eqn:Eb.
    + apply IH in E; [|simpl; eauto]. simpl in E. destruct E as [E1 E2].
      split.
      * destruct (better (fst st) (fst st')) eqn:E3; [|reflexivity].
        rewrite (better_trans _ _ _ Eb E3) in E1. discriminate.
      * intros c' s' [<-|Hin] Es'; [|eauto]. congruence.
    + apply IH in E; [|exact Hc]. destruct E as [E1 E2].
      split; [exact E1|].
      intros c' s' [<-|Hin] Es'; [|eauto].
      assert (s' = s) by congruence. subst s'.
      destruct (better s (fst st')) eqn:E3; [|reflexivity].
      destruct (better_cotrans _ (fst st) _ Hc E3); congruence.
Qed.

(** A scan that meets no strictly better candidate keeps its state. *)
Lemma scan_stays l st :
  (forall c, In c l -> exists s, score c = Ok s /\ better s (fst st) = false) ->
  scan l st = Ok st.
Proof.
  induction l as [|c l IH]; intros Hl; [reflexivity|].
  destruct (Hl c (or_introl eq_refl)) as (s & Es & Eb).
  rewrite scan_cons, Es. simpl. rewrite Eb. apply IH.
  intros c' Hc'. apply Hl. right. exact Hc'.
Qed.

(** Ties go to the candidate met first. *)
Lemma scan_first l1 c l2 st st' :
  comparable (fst st) ->
  scan (l1 ++ c :: l2) st = Ok st' ->
  score c = Ok (fst st') ->
  better (fst st') (fst st) = true ->
  In (snd st') (l1 ++ [c]).
Proof.
  intros Hc E Es Hb.
  replace (l1 ++ c :: l2) with ((l1 ++ [c]) ++ l2) in E
    by (rewrite <- app_assoc; reflexivity).
  rewrite scan_app in E. apply bind_Ok in E. destruct E as (st1 & E1 & E2).
  pose proof (scan_no_better _ _ _ Hc E1) as [_ Hnb].
  assert (Hc1 : comparable (fst st1)) by (eapply scan_comparable; eauto).
  destruct (scan_progress _ _ _ E2) as [->|(_ & _ & Hb2)].
  - destruct (scan_progress _ _ _ E1) as [->|(Hin & _)]; [|exact Hin].
    rewrite better_irrefl in Hb. discriminate.
  - rewrite (Hnb c (fst st') (in_elt c l1 []) Es) in Hb2. discriminate.
Qed.

(** A candidate that is strictly better than every other one wins. *)
Lemma scan_strict_best l st st' c s :
  comparable (fst st) ->
  scan l st = Ok st' ->
  In c l -> score c = Ok s ->
  (forall c', In c' l -> c' <> c ->
              exists s', score c' = Ok s' /\ better s s' = true) ->
  snd st' = c \/ (st' = st /\ better s (fst st) = false).
Proof.
  intros Hc E Hin Es Hbest.
  pose proof (scan_no_better _ _ _ Hc E) as [_ Hnb].
  destruct (scan_progress _ _ _ E) as [->|(Hin' & Es' & Hb)].
  - right. split; [reflexivity|]. eapply Hnb; eauto.
  - left. destruct st' as [b r]. simpl in *.
    destruct (C_eq_dec r c) as [Heq|Hne]; [exact Heq|].
    destruct (Hbest r Hin' Hne) as (s' & Es2 & Hb2).
    assert (s' = b) by congruence. subst s'.
    rewrite (Hnb c s Hin Es) in Hb2. discriminate.
Qed.
End Scan.

Section ScanTies.
Variables C F : Type.
Variable score : C -> result F.
Variable better : F -> F -> bool.
Variable comparable : F -> Prop.

Hypothesis better_irrefl : forall x, better x x = false.
Hypothesis better_trans :
  forall x y z, better x y = true -> better y z = true -> better x z = true.
Hypothesis better_comparable : forall x y, better x y = true -> comparable x.
Hypothesis better_cotrans :
  forall x y z, comparable y -> better x z = true ->
                better x y = true \/ better y z = true.

(** A candidate whose score is comparable and not strictly worse than the
    final best is met no earlier than the final candidate. *)
Lemma scan_first_tie l1 c l2 st st' s :
  comparable (fst st) ->
  for_each (scan_body score better) (l1 ++ c :: l2) st = Ok st' ->
  score c = Ok s -> comparable s ->
  better (fst st') s = false ->
  better (fst st') (fst st) = true ->
  In (snd st') (l1 ++ [c]).
Proof.
  intros Hc E Es Hs Hnw Hb.
  replace (l1 ++ c :: l2) with ((l1 ++ [c]) ++ l2) in E
    by (rewrite <- app_assoc; reflexivity).
  rewrite scan_app in E. apply bind_Ok in E. destruct E as (st1 & E1 & E2).
  pose proof (scan_no_better C F score better comparable better_irrefl
                better_trans better_comparable better_cotrans _ _ _ Hc E1)
    as [_ Hnb].
  destruct (scan_progress C F score better better_trans _ _ _ E2)
    as [->|(_ & _ & Hb2)].
  - destruct (scan_progress C F score better better_trans _ _ _ E1)
      as [->|(Hin & _)]; [|exact Hin].
    rewrite better_irrefl in Hb. discriminate.
  - destruct (better_cotrans _ s _ Hs Hb2) as [H1|H2].
    + rewrite H1 in Hnw. discriminate.
    + rewrite (Hnb c s (in_elt c l1 []) Es) in H2. discriminate.
Qed.
End ScanTies.

(** ** Ranges and the candidate enumeration *)

Lemma py_range_nil (a b : Z) : b <= a -> py_range a b = [].
Proof.
  intros Hab. unfold py_range.
  replace (Z.to_nat (b - a)) with 0%nat by lia. reflexivity.
Qed.

Lemma py_range_cons (a b : Z) : a < b -> py_range a b = a :: py_range (a + 1) b.
Proof.
  intros Hab. unfold py_range.
  replace (Z.to_nat (b - a)) with (S (Z.to_nat (b - (a + 1)))) by lia.
  simpl. f_equal; [lia|].
  rewrite <- seq_shift, map_map. apply map_ext. intros i. lia.
Qed.

Lemma py_range_ind (P : Z -> Z -> list Z -> Prop) :
  (forall a b, b <= a -> P a b []) ->
  (forall a b, a < b -> P (a + 1) b (py_range (a + 1) b) ->
               P a b (a :: py_range (a + 1) b)) ->
  forall a b, P a b (py_range a b).
Proof.
  intros Hnil Hcons a b.
  remember (Z.to_nat (b - a)) as n eqn:En. revert a En.
  induction n as [|n IH]; intros a En.
  - rewrite py_range_nil by lia. apply Hnil. lia.
  - rewrite py_range_cons by lia. apply Hcons; [lia|]. apply IH. lia.
Qed.

Lemma in_py_range (a b x : Z) : In x (py_range a b) <-> a <= x < b.
Proof.
  pattern a, b, (py_range a b). apply py_range_ind; clear a b.
  - intros a b Hab. simpl. lia.
  - intros a b Hab IH. simpl. rewrite IH. lia.
Qed.

Lemma py_range_sorted (a b : Z) : StronglySorted Z.lt (py_range a b).
Proof.
  pattern a, b, (py_range a b). apply py_range_ind; clear a b.
  - intros. constructor.
  - intros a b Hab IH. constructor; [exact IH|].
    apply Forall_forall. intros x Hx. apply in_py_range in Hx. lia.
Qed.

Lemma in_candidates (R : Z) (c : Z * Z) : In c (candidates R) <-> in_window R c.
Proof.
  unfold candidates, in_window. rewrite in_flat_map. split.
  - intros (dy & Hdy & Hc). apply in_map_iff in Hc. destruct Hc as (dx & <- & Hdx).
    apply in_py_range in Hdy, Hdx. simpl. lia.
  - intros [Hx Hy]. exists (snd c). split; [apply in_py_range; lia|].
    apply in_map_iff. exists (fst c). split; [destruct c; reflexivity|].
    apply in_py_range. lia.
Qed.

Lemma StronglySorted_app {A} (R : A -> A -> Prop) (l1 l2 : list A) :
  StronglySorted R l1 -> StronglySorted R l2 ->
  (forall x y, In x l1 -> In y l2 -> R x y) ->
  StronglySorted R (l1 ++ l2).
Proof.
  induction l1 as [|x l1 IH]; intros H1 H2 H12; [exact H2|].
  inversion H1 as [|? ? Hs Hf]; subst. simpl. constructor.
  - apply IH; auto. intros; apply H12; simpl; auto.
  - apply Forall_app. split; [exact Hf|].
    apply Forall_forall. intros y Hy. apply H12; simpl; auto.
Qed.

Lemma StronglySorted_split {A} (R : A -> A -> Prop) (l1 l2 : list A) (c : A) :
  StronglySorted R (l1 ++ c :: l2) -> Forall (fun x => R x c) l1.
Proof.
  induction l1 as [|x l1 IH]; intros Hs; [constructor|].
  simpl in Hs. inversion Hs as [|? ? Hs' Hf]; subst. constructor.
  - rewrite Forall_forall in Hf. apply Hf. apply in_elt.
  - apply IH. exact Hs'.
Qed.

Lemma row_sorted (dy : Z) (l : list Z) :
  StronglySorted Z.lt l ->
  StronglySorted enumerated_before (map (fun dx => (dx, dy)) l).
Proof.
  induction 1 as [|x l Hs IH Hf]; simpl; constructor; [exact IH|].
  apply Forall_map. eapply Forall_impl; [|exact Hf].
  intros y Hy. right. simpl. auto.
Qed.

Lemma rows_sorted (xs ys : list Z) :
  StronglySorted Z.lt xs -> StronglySorted Z.lt ys ->
  StronglySorted enumerated_before
    (flat_map (fun dy => map (fun dx => (dx, dy)) xs) ys).
Proof.
  intros Hx. induction 1 as [|y ys Hs IH Hf]; simpl; [constructor|].
  apply StronglySorted_app; [apply row_sorted; exact Hx | exact IH |].
  intros c1 c2 H1 H2. apply in_map_iff in H1. destruct H1 as (dx & <- & _).
  apply in_flat_map in H2. destruct H2 as (dy & Hdy & H2).
  apply in_map_iff in H2. destruct H2 as (dx' & <- & _).
  left. simpl. rewrite Forall_forall in Hf. auto.
Qed.

Lemma candidates_sorted (R : Z) : StronglySorted enumerated_before (candidates R).
Proof. apply rows_sorted; apply py_range_sorted. Qed.

Lemma candidates_prefix (R : Z) (l1 l2 : list (Z * Z)) (c c' : Z * Z) :
  candidates R = l1 ++ c :: l2 -> In c' (l1 ++ [c]) -> enumerated_before_eq c' c.
Proof.
  intros E Hin. pose proof (candidates_sorted R) as Hs. rewrite E in Hs.
  apply StronglySorted_split in Hs. rewrite Forall_forall in Hs.
  apply in_app_or in Hin. destruct Hin as [Hin|[<-|[]]].
  - destruct (Hs _ Hin) as [H|[H1 H2]]; [left; exact H|right; split; lia].
  - right. split; lia.
Qed.

(** ** Rolling *)

Lemma np_roll1_split {A} (k : Z) (l : list A) :
  l <> [] ->
  exists t : nat, (0 < t <= length l)%nat /\
    Z.of_nat (length l - t) = k mod Z.of_nat (length l) /\
    np_roll1 k l = skipn t l ++ firstn t l.
Proof.
  intros Hl. unfold np_roll1.
  destruct (length l) as [|n] eqn:En; [destruct l; [congruence|discriminate]|].
  assert (Hm : 0 <= k mod Z.of_nat (S n) < Z.of_nat (S n))
    by (apply Z.mod_pos_bound; lia).
  exists (S n - Z.to_nat (k mod Z.of_nat (S n)))%nat.
  split; [lia|]. split; [lia|reflexivity].
Qed.

Lemma length_np_roll1 {A} (k : Z) (l : list A) : length (np_roll1 k l) = length l.
Proof.
  unfold np_roll1. destruct (length l) eqn:En; [exact En|].
  rewrite length_app, length_skipn, length_firstn. lia.
Qed.

Lemma in_np_roll1 {A} (k : Z) (l : list A) (x : A) : In x (np_roll1 k l) -> In x l.
Proof.
  unfold np_roll1. destruct (length l) as [|n]; [auto|].
  intros Hin. apply in_app_or in Hin.
  rewrite <- (firstn_skipn (S n - Z.to_nat (k mod Z.of_nat (S n))) l).
  apply in_or_app. tauto.
Qed.

Lemma np_roll1_map {A B} (f : A -> B) (k : Z) (l : list A) :
  np_roll1 k (map f l) = map f (np_roll1 k l).
Proof.
  unfold np_roll1. rewrite length_map. destruct (length l); [reflexivity|].
  rewrite map_app, skipn_map, firstn_map. reflexivity.
Qed.

Lemma np_roll1_0 {A} (l : list A) : np_roll1 0 l = l.
Proof.
  unfold np_roll1. destruct (length l) eqn:En; [reflexivity|].
  rewrite Z.mod_0_l by lia. simpl Z.to_nat. rewrite Nat.sub_0_r, <- En.
  rewrite skipn_all, firstn_all. reflexivity.
Qed.

(** Rotating to the left by [t] and then by [u] elements. *)
Lemma rotate_rotate {A} (t u : nat) (l : list A) :
  (t <= length l)%nat -> (u <= length l)%nat ->
  let r := skipn t l ++ firstn t l in
  skipn u r ++ firstn u r =
  if (t + u <=? length l)%nat
  then skipn (t + u) l ++ firstn (t + u) l
  else skipn (t + u - length l) l ++ firstn (t + u - length l) l.
Proof.
  intros Ht Hu r. subst r.
  assert (H1 : length (firstn t l) = t) by (rewrite length_firstn; lia).
  assert (H2 : length (skipn t l) = (length l - t)%nat) by apply length_skipn.
  assert (El : l = firstn t l ++ skipn t l) by (symmetry; apply firstn_skipn).
  revert H1 H2 El. generalize (firstn t l) (skipn t l). intros l1 l2 H1 H2 El.
  subst l. rewrite length_app in *.
  rewrite skipn_app, firstn_app, H2.
  replace (length l1 + length l2 - t)%nat with (length l2) by lia.
  destruct (Nat.leb_spec (t + u) (length l1 + length l2)) as [Hle|Hgt].
  - replace (u - length l2)%nat with 0%nat by lia. simpl skipn. simpl firstn.
    rewrite app_nil_r.
    rewrite skipn_app, firstn_app.
    replace (t + u - length l1)%nat with u by lia.
    rewrite (skipn_all2 l1) by lia. rewrite (firstn_all2 l1) by lia.
    simpl. rewrite <- app_assoc. reflexivity.
  - rewrite (skipn_all2 l2) by lia. rewrite (firstn_all2 l2) by lia.
    rewrite skipn_app, firstn_app.
    replace (t + u - (length l1 + length l2) - length l1)%nat with 0%nat by lia.
    replace (t + u - (length l1 + length l2))%nat with (u - length l2)%nat by lia.
    simpl. rewrite app_nil_r, <- app_assoc. reflexivity.
Qed.

Lemma np_roll1_add {A} (a b : Z) (l : list A) :
  np_roll1 a (np_roll1 b l) = np_roll1 (b + a) l.
Proof.
  destruct l as [|x l']; [reflexivity|]. set (l := x :: l').
  assert (Hl : l <> []) by discriminate.
  destruct (np_roll1_split b l Hl) as (t & Ht & Et & ->).
  set (r := skipn t l ++ firstn t l).
  assert (Hr : length r = length l).
  { unfold r. rewrite length_app, length_skipn, length_firstn. lia. }
  assert (Hrn : r <> []) by (intros E; rewrite E in Hr; discriminate).
  destruct (np_roll1_split a r Hrn) as (u & Hu & Eu & ->). rewrite Hr in Hu, Eu.
  destruct (np_roll1_split (b + a) l Hl) as (v & Hv & Ev & ->).
  unfold r. rewrite rotate_rotate by lia.
  assert (Hn : 0 < Z.of_nat (length l)) by (unfold l; simpl; lia).
  assert (Hmod : (b + a) mod Z.of_nat (length l) =
                 (Z.of_nat (length l - t) + Z.of_nat (length l - u))
                   mod Z.of_nat (length l)).
  { rewrite Et, Eu. rewrite <- Zplus_mod. reflexivity. }
  rewrite Hmod in Ev. clear Hmod Et Eu.
  assert (Hv' : Z.of_nat (length l - v) < Z.of_nat (length l)) by lia.
  destruct (Nat.leb_spec (t + u) (length l)) as [Hle|Hgt].
  - destruct (Nat.eq_dec (t + u) (length l)) as [Heq|Hne].
    + (* a full turn *)
      assert (v = length l).
      { rewrite <- (Z.mod_unique_pos _ _ 1 0) in Ev; lia. }
      subst v. rewrite Heq. reflexivity.
    + assert (v = (t + u)%nat).
      { rewrite <- (Z.mod_unique_pos _ _ 1 (Z.of_nat (length l - (t + u)))) in Ev; lia. }
      subst v. reflexivity.
  - assert (v = (t + u - length l)%nat).
    { rewrite Z.mod_small in Ev by lia. lia. }
    subst v. reflexivity.
Qed.

Lemma np_roll_add {A} (g : grid A) (dy1 dx1 dy2 dx2 : Z) :
  np_roll (np_roll g dy1 dx1) dy2 dx2 = np_roll g (dy1 + dy2) (dx1 + dx2).
Proof.
  unfold np_roll. rewrite np_roll1_map, np_roll1_add, map_map.
  apply map_ext. intros r. apply np_roll1_add.
Qed.

Lemma np_roll_0 {A} (g : grid A) : np_roll g 0 0 = g.
Proof.
  unfold np_roll. rewrite np_roll1_0. rewrite <- (map_id g) at 2.
  apply map_ext. intros r. apply np_roll1_0.
Qed.

(** ** Shapes *)

Lemma shape_of_rows {A} (g : grid A) (h w : nat) :
  length g = h -> Forall (fun r => length r = w) g ->
  shape g = (h, if (h =? 0)%nat then 0%nat else w).
Proof.
  intros <- Hf. unfold shape. destruct g as [|r g]; [reflexivity|].
  inversion Hf; subst. reflexivity.
Qed.

Lemma shape_map {A B} (f : A -> B) (g : grid A) : shape (map (map f) g) = shape g.
Proof. unfold shape. rewrite length_map. destruct g; simpl; rewrite ?length_map; reflexivity. Qed.

Lemma rectangular_rows {A} (g : grid A) (h w : nat) :
  rectangular g -> shape g = (h, w) ->
  length g = h /\ Forall (fun r => length r = w) g.
Proof.
  unfold rectangular. intros Hr Es. rewrite Es in Hr. simpl in Hr.
  unfold shape in Es. split; [congruence | exact Hr].
Qed.

Lemma np_roll_rows {A} (g : grid A) (dy dx : Z) (h w : nat) :
  length g = h -> Forall (fun r => length r = w) g ->
  length (np_roll g dy dx) = h /\
  Forall (fun r => length r = w) (np_roll g dy dx).
Proof.
  intros Hh Hw. unfold np_roll. split.
  - rewrite length_map, length_np_roll1. exact Hh.
  - apply Forall_map. apply Forall_forall. intros r Hr.
    rewrite length_np_roll1. apply in_np_roll1 in Hr.
    rewrite Forall_forall in Hw. auto.
Qed.

Lemma in_firstn {A} (n : nat) (l : list A) (x : A) : In x (firstn n l) -> In x l.
Proof.
  intros Hin. rewrite <- (firstn_skipn n l). apply in_or_app. left. exact Hin.
Qed.

Lemma in_skipn {A} (n : nat) (l : list A) (x : A) : In x (skipn n l) -> In x l.
Proof.
  intros Hin. rewrite <- (firstn_skipn n l). apply in_or_app. right. exact Hin.
Qed.

Lemma in_py_slice {A} (a b : Z) (l : list A) (x : A) : In x (py_slice a b l) -> In x l.
Proof. unfold py_slice. intros Hin. eapply in_skipn, in_firstn, Hin. Qed.

Lemma length_py_slice {A} (a b : Z) (l : list A) :
  0 <= a <= b -> b <= Z.of_nat (length l) ->
  length (py_slice a b l) = Z.to_nat (b - a).
Proof.
  intros Hab Hb. unfold py_slice, slice_index.
  destruct (Z.ltb_spec a 0), (Z.ltb_spec b 0); try lia.
  rewrite length_firstn, length_skipn. lia.
Qed.

Lemma crop_rows {A} (g : grid A) (h w ch cw : Z) (h' w' : nat) :
  length g = h' -> Forall (fun r => length r = w') g ->
  0 <= ch <= h - ch -> h <= Z.of_nat h' ->
  0 <= cw <= w - cw -> w <= Z.of_nat w' ->
  length (crop h w ch cw g) = Z.to_nat (h - 2 * ch) /\
  Forall (fun r => length r = Z.to_nat (w - 2 * cw)) (crop h w ch cw g).
Proof.
  intros Hh Hw Hch Hh' Hcw Hw'. unfold crop. split.
  - rewrite length_map, length_py_slice by lia. f_equal. lia.
  - apply Forall_map. apply Forall_forall. intros r Hr.
    apply in_py_slice in Hr. rewrite Forall_forall in Hw.
    rewrite length_py_slice by (rewrite ?(Hw r Hr); lia). f_equal. lia.
Qed.

(** ** The metrics on compatible and on incompatible shapes *)

Lemma np_binop_ok op (a b : grid spec_float) :
  shape a = shape b -> exists g, np_binop op a b = Ok g.
Proof.
  intros E. unfold np_binop. rewrite E. destruct (shape b) as [h w].
  unfold broadcastable. rewrite !Nat.eqb_refl. simpl. eauto.
Qed.

Lemma np_binop_raise op (a b : grid spec_float) :
  (broadcastable (fst (shape a)) (fst (shape b)) &&
   broadcastable (snd (shape a)) (snd (shape b)))%bool = false ->
  np_binop op a b = Raise ValueError.
Proof.
  unfold np_binop. destruct (shape a), (shape b). simpl. intros ->. reflexivity.
Qed.

Section MetricShapes.
Context {A : Type} `{Dtype A} `{Reduction}.

Lemma ssd_metric_ok (a b : grid A) :
  shape a = shape b -> exists s, ssd_metric a b = Ok s.
Proof.
  intros E. unfold ssd_metric.
  destruct (np_binop_ok F32.sub (astype a) (astype b)) as [d ->].
  { unfold astype. rewrite !shape_map. exact E. }
  simpl. destruct (np_binop_ok F32.mul d d eq_refl) as [q ->]. simpl. eauto.
Qed.

Lemma ncc_metric_ok (a b : grid A) :
  shape a = shape b -> exists s, ncc_metric a b = Ok s.
Proof.
  intros E. unfold ncc_metric.
  match goal with
  | |- context [np_binop ?op ?x ?y] => destruct (np_binop_ok op x y) as [p ->]
  end.
  { unfold np_scalar, astype. rewrite !shape_map. exact E. }
  simpl. eauto.
Qed.

Lemma ssd_metric_raise (a b : grid A) :
  (broadcastable (fst (shape a)) (fst (shape b)) &&
   broadcastable (snd (shape a)) (snd (shape b)))%bool = false ->
  ssd_metric a b = Raise ValueError.
Proof.
  intros E. unfold ssd_metric. rewrite np_binop_raise; [reflexivity|].
  unfold astype. rewrite !shape_map. exact E.
Qed.

Lemma ncc_metric_raise (a b : grid A) :
  (broadcastable (fst (shape a)) (fst (shape b)) &&
   broadcastable (snd (shape a)) (snd (shape b)))%bool = false ->
  ncc_metric a b = Raise ValueError.
Proof.
  intros E. unfold ncc_metric. rewrite np_binop_raise; [reflexivity|].
  unfold np_scalar, astype. rewrite !shape_map. exact E.
Qed.
End MetricShapes.

Lemma crop_margin_range (d : Z) (e : spec_float) (c : Z) :
  0 <= d -> crop_margin d e = Ok c -> 0 <= c <= d / 4.
Proof.
  intros Hd E. unfold crop_margin in E.
  apply bind_Ok in E. destruct E as (p & _ & E).
  apply bind_Ok in E. destruct E as (t & _ & E).
  injection E as <-. assert (0 <= d / 4) by (apply Z.div_pos; lia). lia.
Qed.

Lemma crop_margin_defined (d : Z) (e : spec_float) :
  margin_defined d e = true -> exists c, crop_margin d e = Ok c.
Proof.
  unfold margin_defined, crop_margin. destruct (py_int_mul_float d e) as [p|]; [|discriminate].
  simpl. destruct p; try discriminate; simpl; eauto.
Qed.

(** ** The comparison of scores *)

Lemma better_score_irrefl u x : better_score u x x = false.
Proof. destruct u; apply SFltb_irrefl. Qed.

Lemma better_score_trans u x y z :
  better_score u x y = true -> better_score u y z = true -> better_score u x z = true.
Proof. destruct u; simpl; intros; eapply SFltb_trans; eauto. Qed.

Lemma better_score_not_nan u x y : better_score u x y = true -> is_nan x = false.
Proof. destruct u; simpl; intros E; apply SFltb_not_nan in E; tauto. Qed.

Lemma better_score_cotrans u x y z :
  is_nan y = false -> better_score u x z = true ->
  better_score u x y = true \/ better_score u y z = true.
Proof.
  destruct u; simpl; intros Hy E;
    destruct (SFltb_cotrans _ y _ Hy E); auto.
Qed.

Lemma better_score_bottom u x y :
  better_score u x (fst (@search_init u)) = false -> better_score u x y = false.
Proof. destruct u; unfold better_score, search_init, fst; float_cases. Qed.

Lemma better_score_init u x y :
  better_score u x y = true -> better_score u x (fst (@search_init u)) = true.
Proof. destruct u; unfold better_score, search_init, fst; float_cases. Qed.

Lemma at_least_as_good_total u x y :
  is_nan x = false -> is_nan y = false ->
  better_score u y x = false -> at_least_as_good u x y = true.
Proof.
  intros Hx Hy E. destruct u; unfold at_least_as_good, better_score in *.
  - rewrite SFleb_total, E by assumption. reflexivity.
  - rewrite SFleb_total, E by assumption. reflexivity.
Qed.

Lemma displacement_eq_dec (x y : Z * Z) : {x = y} + {x <> y}.
Proof. decide equality; apply Z.eq_dec. Qed.

(** ** The search as a scan *)

Lemma for_each_ext {S C} (f g : S -> C -> result S) (l : list C) (st : S) :
  (forall s c, f s c = g s c) -> for_each f l st = for_each g l st.
Proof.
  intros E. revert st. induction l as [|c l IH]; intros st; [reflexivity|].
  simpl. rewrite E. destruct (g st c); simpl; auto.
Qed.

Section SearchFacts.
Context {A : Type} `{Dtype A} `{Reduction}.

Lemma search_body_scan (use_ncc : bool) (ref_crop target : grid A)
    (h w ch cw : Z) (st : search_state) (c : Z * Z) :
  search_body use_ncc ref_crop target h w ch cw st c =
  scan_body (candidate_score use_ncc ref_crop target h w ch cw)
            (better_score use_ncc) st c.
Proof.
  destruct c as [dx dy], st as [b r]. unfold search_body, scan_body, candidate_score.
  simpl. destruct use_ncc; simpl.
  - destruct (ncc_metric _ _); simpl; [destruct (SFltb b a)|]; reflexivity.
  - destruct (ssd_metric _ _); simpl; [destruct (SFltb a b)|]; reflexivity.
Qed.

Variables reference target : grid A.
Variable metric : string.
Variable edge_crop : spec_float.
Variables ch cw : Z.

Let h := Z.of_nat (fst (shape reference)).
Let w := Z.of_nat (snd (shape reference)).
Let u := uses_ncc metric.
Let sc := candidate_score u (crop h w ch cw reference) target h w ch cw.

Hypothesis margin_h : crop_margin h edge_crop = Ok ch.
Hypothesis margin_w : crop_margin w edge_crop = Ok cw.

Lemma align_bruteforce_scan (R : Z) :
  align_bruteforce reference target R metric edge_crop =
  (st <- for_each (scan_body sc (better_score u)) (candidates R) (search_init u) ;;
   Ok (fst (snd st), snd (snd st), fst st)).
Proof.
  unfold align_bruteforce. subst h w. destruct (shape reference) as [h0 w0].
  simpl in *. rewrite margin_h, margin_w. simpl.
  rewrite (for_each_ext _ _ _ _ (search_body_scan _ _ _ _ _ _ _)).
  fold u. destruct (for_each _ _ _) as [[b [dx dy]]|]; reflexivity.
Qed.

Lemma displacement_score_candidate (c : Z * Z) :
  displacement_score reference target metric edge_crop c = sc c.
Proof.
  unfold displacement_score. fold h w. rewrite margin_h, margin_w. reflexivity.
Qed.

(** Every displacement has a score when the target is at least as large
    as the reference. *)
Hypothesis rect_ref : rectangular reference.
Hypothesis rect_tgt : rectangular target.
Hypothesis rows_fit : (fst (shape reference) <= fst (shape target))%nat.
Hypothesis cols_fit : (snd (shape reference) <= snd (shape target))%nat.

Lemma candidate_scored (c : Z * Z) : exists s, sc c = Ok s.
Proof.
  assert (Hch : 0 <= ch <= h / 4) by (apply (crop_margin_range h edge_crop); [lia|assumption]).
  assert (Hcw : 0 <= cw <= w / 4) by (apply (crop_margin_range w edge_crop); [lia|assumption]).
  assert (Hh4 : h / 4 * 4 <= h) by (pose proof (Z.mul_div_le h 4); lia).
  assert (Hw4 : w / 4 * 4 <= w) by (pose proof (Z.mul_div_le w 4); lia).
  destruct (rectangular_rows reference _ _ rect_ref eq_refl) as [Rh Rw].
  destruct (rectangular_rows target _ _ rect_tgt eq_refl) as [Th Tw].
  destruct (np_roll_rows target (snd c) (fst c) _ _ Th Tw) as [Sh Sw].
  assert (Eh : h = Z.of_nat (length reference)) by reflexivity.
  assert (Ew : w = Z.of_nat (length (hd [] reference))) by reflexivity.
  pose proof rows_fit as Fh. pose proof cols_fit as Fw. simpl in Fh, Fw.
  destruct (crop_rows reference h w ch cw _ _ Rh Rw) as [C1 C2]; try lia.
  destruct (crop_rows (np_roll target (snd c) (fst c)) h w ch cw _ _ Sh Sw)
    as [D1 D2]; try lia.
  pose proof (shape_of_rows _ _ _ C1 C2) as E1.
  pose proof (shape_of_rows _ _ _ D1 D2) as E2.
  unfold sc, candidate_score. destruct u.
  - apply ncc_metric_ok. congruence.
  - apply ssd_metric_ok. congruence.
Qed.

Lemma search_returns (R : Z) :
  exists st,
    for_each (scan_body sc (better_score u)) (candidates R) (search_init u) = Ok st /\
    align_bruteforce reference target R metric edge_crop =
      Ok (fst (snd st), snd (snd st), fst st).
Proof.
  destruct (scan_total _ _ sc (better_score u) (candidates R) (search_init u))
    as [st E]; [intros; apply candidate_scored|].
  exists st. split; [exact E|]. rewrite align_bruteforce_scan, E. reflexivity.
Qed.
End SearchFacts.

Section SearchResult.
Context {A : Type} `{Dtype A} `{Reduction}.
Variables reference target : grid A.
Variable metric : string.
Variable edge_crop : spec_float.

Hypothesis rect_ref : rectangular reference.
Hypothesis rect_tgt : rectangular target.
Hypothesis rows_fit : (fst (shape reference) <= fst (shape target))%nat.
Hypothesis cols_fit : (snd (shape reference) <= snd (shape target))%nat.
Hypothesis margin_h :
  margin_defined (Z.of_nat (fst (shape reference))) edge_crop = true.
Hypothesis margin_w :
  margin_defined (Z.of_nat (snd (shape reference))) edge_crop = true.

Let u := uses_ncc metric.
Let score := displacement_score reference target metric edge_crop.

(** What a call returns, in terms of the scores of the displacements:
    the scan of the candidates in enumeration order. *)
Lemma align_bruteforce_run (R : Z) :
  (forall c, exists s, score c = Ok s) /\
  exists st,
    for_each (scan_body score (better_score u)) (candidates R) (search_init u)
      = Ok st /\
    align_bruteforce reference target R metric edge_crop =
      Ok (fst (snd st), snd (snd st), fst st).
Proof.
  destruct (crop_margin_defined _ _ margin_h) as [ch Ech].
  destruct (crop_margin_defined _ _ margin_w) as [cw Ecw].
  split.
  - intros c. unfold score.
    rewrite (displacement_score_candidate reference target metric edge_crop ch cw Ech Ecw).
    apply (candidate_scored reference target metric edge_crop ch cw Ech Ecw
             rect_ref rect_tgt rows_fit cols_fit).
  - destruct (search_returns reference target metric edge_crop ch cw
                Ech Ecw rect_ref rect_tgt rows_fit cols_fit R) as (st & E1 & E2).
    exists st. split; [|exact E2].
    rewrite <- E1. apply for_each_ext. intros s c. unfold scan_body, score.
    rewrite (displacement_score_candidate reference target metric edge_crop ch cw Ech Ecw). reflexivity.
Qed.

Let scan_progress' := scan_progress (Z * Z) spec_float score (better_score u)
  (better_score_trans u).
Let scan_no_better' := scan_no_better (Z * Z) spec_float score (better_score u)
  (fun x => is_nan x = false)
  (better_score_irrefl u) (better_score_trans u)
  (better_score_not_nan u) (better_score_cotrans u).

Lemma search_init_not_nan : is_nan (fst (search_init u)) = false.
Proof. destruct u; reflexivity. Qed.

Lemma align_bruteforce_no_better (R : Z) :
  exists dx dy best,
    align_bruteforce reference target R metric edge_crop = Ok (dx, dy, best) /\
    forall c, in_window R c ->
      in_window R (dx, dy) /\
      exists s_best s_c,
        score (dx, dy) = Ok s_best /\ score c = Ok s_c /\
        better_score u s_c s_best = false.
Proof.
  destruct (align_bruteforce_run R) as (Hsc & st & E & Eal).
  exists (fst (snd st)), (snd (snd st)), (fst st). split; [exact Eal|].
  intros c Hc.
  destruct (scan_no_better' _ _ _ search_init_not_nan E) as [_ Hnb].
  destruct (Hsc c) as [s_c Es_c].
  assert (Hin : In c (candidates R)) by (apply in_candidates; exact Hc).
  destruct (scan_progress' _ _ _ E) as [->|(Hin' & Es & Hb)].
  - split; [unfold in_window in *; destruct u; simpl; lia|].
    destruct (Hsc (fst (snd (search_init u)), snd (snd (search_init u)))) as [s0 Es0].
    exists s0, s_c. split; [exact Es0|]. split; [exact Es_c|].
    apply better_score_bottom. exact (Hnb c s_c Hin Es_c).
  - destruct st as [b [dx dy]]. simpl in *. split; [apply in_candidates; exact Hin'|].
    exists b, s_c. split; [exact Es|]. split; [exact Es_c|]. exact (Hnb c s_c Hin Es_c).
Qed.

Lemma align_bruteforce_first (R : Z) (dx dy : Z) (best : spec_float) :
  align_bruteforce reference target R metric edge_crop = Ok (dx, dy, best) ->
  best <> fst (search_init u) ->
  score (dx, dy) = Ok best /\
  forall c, in_window R c -> score c = Ok best -> enumerated_before_eq (dx, dy) c.
Proof.
  intros Eal Hne.
  destruct (align_bruteforce_run R) as (Hsc & st & E & Eal').
  rewrite Eal' in Eal. injection Eal as <- <- <-.
  destruct (scan_progress' _ _ _ E) as [Est|(Hin' & Es & Hb)].
  { rewrite Est in Hne. contradiction. }
  split; [destruct st as [b [dx dy]]; exact Es|].
  intros c Hc Ec. apply in_candidates in Hc.
  destruct (in_split _ _ Hc) as (l1 & l2 & El).
  rewrite El in E.
  pose proof (scan_first (Z * Z) spec_float score (better_score u)
                (fun x => is_nan x = false)
                (better_score_irrefl u) (better_score_trans u)
                (better_score_not_nan u) (better_score_cotrans u)
                l1 c l2 _ _ search_init_not_nan E Ec Hb) as Hfirst.
  destruct st as [b [dx dy]]. simpl in *.
  eapply candidates_prefix; eauto.
Qed.

Lemma align_bruteforce_strict_best (R : Z) (c0 : Z * Z) :
  in_window R c0 ->
  (forall c, in_window R c -> c <> c0 ->
     exists s0 s, score c0 = Ok s0 /\ score c = Ok s /\
                  better_score u s0 s = true) ->
  exists best,
    align_bruteforce reference target R metric edge_crop =
      Ok (fst c0, snd c0, best).
Proof.
  intros Hc0 Hbest.
  destruct (align_bruteforce_run R) as (Hsc & st & E & Eal).
  exists (fst st). rewrite Eal. destruct (Hsc c0) as [s0 Es0].
  destruct (scan_strict_best (Z * Z) spec_float score (better_score u)
              (fun x => is_nan x = false)
              (better_score_irrefl u) (better_score_trans u)
              (better_score_not_nan u) (better_score_cotrans u)
              displacement_eq_dec
              (candidates R) _ _ c0 s0 search_init_not_nan E)
    as [<-|[-> Hnb]]; auto.
  - apply in_candidates. exact Hc0.
  - intros c' Hc' Hne. apply in_candidates in Hc'.
    destruct (Hbest c' Hc' Hne) as (s0' & s & E0 & Es & Hb).
    exists s. split; [exact Es|]. congruence.
  - (* nothing was selected: the default (0, 0) is returned *)
    destruct (displacement_eq_dec c0 (0, 0)) as [->|Hne].
    + destruct u; reflexivity.
    + exfalso. destruct (Hbest (0, 0)) as (s0' & s & E0 & Es & Hb).
      * unfold in_window in *. simpl. lia.
      * congruence.
      * assert (s0' = s0) by congruence. subst s0'.
        rewrite (better_score_init _ _ _ Hb) in Hnb. discriminate.
Qed.
End SearchResult.

Section TieBreak.
Context {A : Type} `{Dtype A} `{Reduction}.
Variables reference target : grid A.
Variable metric : string.
Variable edge_crop : spec_float.

Hypothesis rect_ref : rectangular reference.
Hypothesis rect_tgt : rectangular target.
Hypothesis rows_fit : (fst (shape reference) <= fst (shape target))%nat.
Hypothesis cols_fit : (snd (shape reference) <= snd (shape target))%nat.
Hypothesis margin_h :
  margin_defined (Z.of_nat (fst (shape reference))) edge_crop = true.
Hypothesis margin_w :
  margin_defined (Z.of_nat (snd (shape reference))) edge_crop = true.

Let u := uses_ncc metric.
Let score := displacement_score reference target metric edge_crop.

(** What the search returns, in full: the sentinel when no candidate beats
    it, otherwise the first of the best candidates. *)
Lemma align_bruteforce_selects (R : Z) :
  exists dx dy best,
    align_bruteforce reference target R metric edge_crop = Ok (dx, dy, best) /\
    (forall c, in_window R c ->
       exists s, score c = Ok s /\ better_score u s best = false) /\
    ((dx = 0 /\ dy = 0 /\ best = fst (search_init u)) \/
     (in_window R (dx, dy) /\ score (dx, dy) = Ok best /\
      better_score u best (fst (search_init u)) = true /\
      forall c s, in_window R c -> score c = Ok s -> is_nan s = false ->
        better_score u best s = false -> enumerated_before_eq (dx, dy) c)).
Proof.
  destruct (align_bruteforce_run reference target metric edge_crop
              rect_ref rect_tgt rows_fit cols_fit margin_h margin_w R)
    as (Hsc & st & E & Eal).
  fold u score in Hsc, E.
  exists (fst (snd st)), (snd (snd st)), (fst st). split; [exact Eal|].
  assert (Hinit : is_nan (fst (search_init u)) = false) by (destruct u; reflexivity).
  pose proof (scan_no_better (Z * Z) spec_float score (better_score u)
                (fun x => is_nan x = false)
                (better_score_irrefl u) (better_score_trans u)
                (better_score_not_nan u) (better_score_cotrans u)
                _ _ _ Hinit E) as [_ Hnb].
  split.
  - intros c Hc. destruct (Hsc c) as [s Es]. exists s. split; [exact Es|].
    apply (Hnb c s); [apply in_candidates; exact Hc|exact Es].
  - destruct (scan_progress (Z * Z) spec_float score (better_score u)
                (better_score_trans u) _ _ _ E) as [->|(Hin & Es & Hb)].
    + left. destruct u; auto.
    + right. destruct st as [b [dx dy]]. cbn [fst snd] in *.
      split; [apply in_candidates; exact Hin|]. split; [exact Es|].
      split; [exact Hb|]. intros c s Hc Ec Hs Hnw.
      apply in_candidates in Hc. destruct (in_split _ _ Hc) as (l1 & l2 & El).
      rewrite El in E.
      pose proof (scan_first_tie (Z * Z) spec_float score (better_score u)
                    (fun x => is_nan x = false)
                    (better_score_irrefl u) (better_score_trans u)
                    (better_score_not_nan u) (better_score_cotrans u)
                    l1 c l2 _ _ s Hinit E Ec Hs Hnw Hb) as Hfirst.
      cbn [snd] in Hfirst. eapply candidates_prefix; eauto.
Qed.
End TieBreak.

Lemma length_py_slice_eq {A B} (a b : Z) (l1 : list A) (l2 : list B) :
  length l1 = length l2 -> length (py_slice a b l1) = length (py_slice a b l2).
Proof.
  intros E. unfold py_slice. rewrite !length_firstn, !length_skipn, E. reflexivity.
Qed.

Lemma crop_shape_eq {A} (g1 g2 : grid A) (h w ch cw : Z) (w' : nat) :
  length g1 = length g2 ->
  Forall (fun r => length r = w') g1 -> Forall (fun r => length r = w') g2 ->
  shape (crop h w ch cw g1) = shape (crop h w ch cw g2).
Proof.
  intros El H1 H2.
  assert (Hrows : forall g : grid A, Forall (fun r => length r = w') g ->
            Forall (fun r => length r = length (py_slice cw (w - cw) (seq 0 w')))
                   (crop h w ch cw g)).
  { intros g Hg. unfold crop. apply Forall_map. apply Forall_forall. intros r Hr.
    apply in_py_slice in Hr. rewrite Forall_forall in Hg.
    apply length_py_slice_eq. rewrite length_seq. auto. }
  rewrite (shape_of_rows _ _ _ eq_refl (Hrows g1 H1)).
  rewrite (shape_of_rows _ _ _ eq_refl (Hrows g2 H2)).
  unfold crop. rewrite !length_map, (length_py_slice_eq ch (h - ch) g1 g2 El).
  reflexivity.
Qed.

Lemma shape_np_roll {A} (g : grid A) (dy dx : Z) :
  rectangular g -> shape (np_roll g dy dx) = shape g /\ rectangular (np_roll g dy dx).
Proof.
  intros Hr. destruct (rectangular_rows g _ _ Hr eq_refl) as [Hh Hw].
  destruct (np_roll_rows g dy dx _ _ Hh Hw) as [Sh Sw].
  assert (E : shape (np_roll g dy dx) = shape g).
  { rewrite (shape_of_rows _ _ _ Sh Sw). unfold shape.
    destruct g as [|r g]; reflexivity. }
  split; [exact E|]. unfold rectangular. rewrite E. exact Sw.
Qed.

Lemma candidates_head (R : Z) :
  0 <= R -> exists l, candidates R = (- R, - R) :: l.
Proof.
  intros HR. unfold candidates. rewrite (py_range_cons (- R) (R + 1)) by lia.
  simpl. eexists. reflexivity.
Qed.

(** ** Shifted targets *)

Lemma displacement_score_shifted {A} `{Dtype A} `{Reduction}
    (G : grid A) (sdx sdy : Z)
    (metric : string) (edge_crop : spec_float) (dx dy : Z) :
  displacement_score G (apply_alignment G sdx sdy) metric edge_crop (dx, dy) =
  displacement_score G G metric edge_crop (sdx + dx, sdy + dy).
Proof.
  unfold displacement_score, candidate_score, apply_alignment. simpl.
  rewrite np_roll_add. reflexivity.
Qed.

Lemma strictly_better_shift_scores {A} `{Dtype A} `{Reduction}
    (G : grid A) (metric : string)
    (edge_crop : spec_float) (c0 c : Z * Z) :
  strictly_better_shift G metric edge_crop c0 c = true ->
  exists s0 s,
    displacement_score G G metric edge_crop c0 = Ok s0 /\
    displacement_score G G metric edge_crop c = Ok s /\
    better_score (uses_ncc metric) s0 s = true.
Proof.
  unfold strictly_better_shift.
  destruct (displacement_score G G metric edge_crop c0) as [s0|]; [|discriminate].
  destruct (displacement_score G G metric edge_crop c) as [s|]; [|discriminate].
  eauto.
Qed.

(** ** The pyramid *)

Lemma length_build_pyramid {A} `{Dtype A} `{Reduction} (n : nat) (g : grid A) :
  length (build_pyramid n g) = S n.
Proof. revert g. induction n as [|n IH]; intros g; simpl; [|rewrite IH]; reflexivity. Qed.

Lemma for_each_map {S C D} (f : S -> D -> result S) (g : C -> D) (l : list C) (st : S) :
  for_each f (map g l) st = for_each (fun s c => f s (g c)) l st.
Proof.
  revert st. induction l as [|c l IH]; intros st; [reflexivity|].
  simpl. destruct (f st (g c)); simpl; auto.
Qed.

(** *** The levels *)

Lemma every_other_pair {A} (l : list A) :
  (length (every_other l) = (length l + 1) / 2)%nat /\
  (forall x, length (every_other (x :: l)) = (length (x :: l) + 1) / 2)%nat.
Proof.
  induction l as [|y l [IH1 IH2]].
  - split; [reflexivity|intros; reflexivity].
  - split; [apply IH2|]. intros x. cbn [every_other length]. rewrite IH1.
    replace (S (S (length l)) + 1)%nat with (length l + 1 + 1 * 2)%nat by lia.
    rewrite Nat.div_add by lia. lia.
Qed.

Lemma length_every_other {A} (l : list A) :
  (length (every_other l) = (length l + 1) / 2)%nat.
Proof. apply every_other_pair. Qed.

Lemma in_every_other {A} (l : list A) (x : A) : In x (every_other l) -> In x l.
Proof.
  assert (Hp : (In x (every_other l) -> In x l) /\
               (forall y, In x (every_other (y :: l)) -> In x (y :: l))).
  { induction l as [|z l [IH1 IH2]].
    - split; [tauto|intros y Hy; exact Hy].
    - split; [apply IH2|]. intros y. cbn [every_other]. simpl. tauto. }
  apply Hp.
Qed.

Lemma downsample_rows {A} (g : grid A) :
  rectangular g ->
  shape (downsample g) =
    (((fst (shape g) + 1) / 2)%nat, ((snd (shape g) + 1) / 2)%nat) /\
  rectangular (downsample g).
Proof.
  intros Hr. destruct (rectangular_rows g _ _ Hr eq_refl) as [_ Hw].
  assert (Hz : fst (shape g) = 0%nat -> snd (shape g) = 0%nat)
    by (destruct g; [reflexivity|discriminate]).
  remember (fst (shape g)) as h eqn:Eh. remember (snd (shape g)) as w eqn:Ew.
  assert (Hlen : length (downsample g) = ((h + 1) / 2)%nat)
    by (unfold downsample; rewrite length_map, length_every_other; subst h;
        reflexivity).
  assert (Hrows : Forall (fun r => length r = ((w + 1) / 2)%nat) (downsample g)).
  { unfold downsample. apply Forall_map. apply Forall_forall. intros r Hin.
    apply in_every_other in Hin. rewrite Forall_forall in Hw.
    rewrite length_every_other, (Hw r Hin). subst w. reflexivity. }
  pose proof (shape_of_rows _ _ _ Hlen Hrows) as Es.
  assert (E : shape (downsample g) = (((h + 1) / 2)%nat, ((w + 1) / 2)%nat)).
  { rewrite Es. f_equal.
    destruct (Nat.eqb_spec ((h + 1) / 2) 0) as [E0|]; [|reflexivity].
    assert (Hh : h = 0%nat).
    { destruct h as [|h']; [reflexivity|].
      replace (S h' + 1)%nat with (h' + 1 * 2)%nat in E0 by lia.
      rewrite Nat.div_add in E0 by lia. lia. }
    rewrite (Hz Hh). reflexivity. }
  split; [exact E|]. unfold rectangular. rewrite E. exact Hrows.
Qed.

Lemma iter_half_up (k n : nat) :
  Nat.iter k (fun m => ((m + 1) / 2)%nat) n = ((n + 2 ^ k - 1) / 2 ^ k)%nat.
Proof.
  induction k as [|k IH].
  - change (n = ((n + 1 - 1) / 1)%nat). rewrite Nat.div_1_r.
    rewrite Nat.add_sub. reflexivity.
  - rewrite Nat.iter_succ, IH.
    assert (Ha : (0 < 2 ^ k)%nat) by (apply Nat.neq_0_lt_0, Nat.pow_nonzero; lia).
    rewrite Nat.pow_succ_r'.
    replace (n + 2 * 2 ^ k - 1)%nat with (n + 2 ^ k - 1 + 1 * 2 ^ k)%nat by lia.
    rewrite (Nat.mul_comm 2), <- Nat.Div0.div_div.
    rewrite Nat.div_add by lia. reflexivity.
Qed.

Lemma nth_build_pyramid {A} (k n : nat) (g : grid A) :
  (k <= n)%nat -> nth k (build_pyramid n g) [] = Nat.iter k downsample g.
Proof.
  revert n g. induction k as [|k IH]; intros n g Hk.
  - destruct n; reflexivity.
  - destruct n as [|n]; [lia|]. cbn [build_pyramid nth].
    rewrite IH by lia. rewrite Nat.iter_succ_r. reflexivity.
Qed.

Lemma build_pyramid_levels {A} (n : nat) (g : grid A) :
  length (build_pyramid n g) = S n.
Proof. revert g. induction n as [|n IH]; intros g; simpl; [|rewrite IH]; reflexivity. Qed.

Lemma iter_downsample_rows {A} (k : nat) (g : grid A) :
  rectangular g ->
  rectangular (Nat.iter k downsample g) /\
  shape (Nat.iter k downsample g) =
    (Nat.iter k (fun m => ((m + 1) / 2)%nat) (fst (shape g)),
     Nat.iter k (fun m => ((m + 1) / 2)%nat) (snd (shape g))).
Proof.
  intros Hr. induction k as [|k [IH1 IH2]].
  - split; [exact Hr|]. change (shape g = (fst (shape g), snd (shape g))).
    destruct (shape g); reflexivity.
  - rewrite !Nat.iter_succ. destruct (downsample_rows _ IH1) as [Es Hr'].
    split; [exact Hr'|]. rewrite Es, IH2. reflexivity.
Qed.

Lemma build_pyramid_shapes {A} (g : grid A) (levels : Z) :
  rectangular g ->
  let refs := build_pyramid (extra_levels levels) g in
  length refs = Z.to_nat (Z.max 1 levels) /\
  forall k, (k < length refs)%nat ->
    rectangular (nth k refs []) /\
    shape (nth k refs []) =
      (((fst (shape g) + 2 ^ k - 1) / 2 ^ k)%nat,
       ((snd (shape g) + 2 ^ k - 1) / 2 ^ k)%nat).
Proof.
  intros Hr refs. unfold refs. rewrite build_pyramid_levels.
  split; [unfold extra_levels; lia|]. intros k Hk.
  rewrite nth_build_pyramid by lia.
  destruct (iter_downsample_rows k g Hr) as [Hr' Es].
  split; [exact Hr'|]. rewrite Es, !iter_half_up. reflexivity.
Qed.

(** *** No level raises *)

Lemma for_each_returns {S C} (f : S -> C -> result S) (l : list C) (st : S) :
  (forall s c, In c l -> exists s', f s c = Ok s') ->
  exists st', for_each f l st = Ok st'.
Proof.
  revert st. induction l as [|c l IH]; intros st Hf.
  - exists st. reflexivity.
  - destruct (Hf st c (or_introl eq_refl)) as [s' E]. simpl. rewrite E. simpl.
    apply IH. intros s c' Hc'. apply Hf. right. exact Hc'.
Qed.

Section PyramidTotal.
Context {A : Type} `{Dtype A} `{Reduction}.

Lemma level_step_returns (refs tars : list (grid A)) (metric : string)
    (edge_crop : spec_float) (search : Z) (acc : Z * Z) (lvl : nat) :
  rectangular (nth lvl refs []) -> rectangular (nth lvl tars []) ->
  (fst (shape (nth lvl refs [])) <= fst (shape (nth lvl tars [])))%nat ->
  (snd (shape (nth lvl refs [])) <= snd (shape (nth lvl tars [])))%nat ->
  margin_defined (Z.of_nat (fst (shape (nth lvl refs [])))) edge_crop = true ->
  margin_defined (Z.of_nat (snd (shape (nth lvl refs [])))) edge_crop = true ->
  exists acc', level_step refs tars (uses_ncc metric) edge_crop search acc lvl = Ok acc'.
Proof.
  intros Rr Rt Fh Fw Mh Mw. destruct acc as [dx_total dy_total].
  destruct (crop_margin_defined _ _ Mh) as [ch Ech].
  destruct (crop_margin_defined _ _ Mw) as [cw Ecw].
  destruct (shape_np_roll (nth lvl tars []) dy_total dx_total Rt) as [Es Re].
  assert (Fh' : (fst (shape (nth lvl refs [])) <=
                 fst (shape (np_roll (nth lvl tars []) dy_total dx_total)))%nat)
    by (rewrite Es; exact Fh).
  assert (Fw' : (snd (shape (nth lvl refs [])) <=
                 snd (shape (np_roll (nth lvl tars []) dy_total dx_total)))%nat)
    by (rewrite Es; exact Fw).
  destruct (search_returns (nth lvl refs []) (np_roll (nth lvl tars []) dy_total dx_total)
              metric edge_crop ch cw Ech Ecw Rr Re Fh' Fw' search) as (st & E & _).
  unfold level_step.
  destruct (shape (nth lvl refs [])) as [h0 w0] eqn:Eshape.
  cbn [fst snd] in *. rewrite Ech, Ecw. cbn [bind].
  rewrite (for_each_ext _ _ _ _ (search_body_scan _ _ _ _ _ _ _)).
  unfold search_state. rewrite E.
  cbn [bind]. destruct st as [b [bx by']].
  destruct (lvl =? 0)%nat; eexists; reflexivity.
Qed.

Lemma pyramid_align_total (reference target : grid A) (levels : Z)
    (base_search refine_search : Z) (metric : string) (edge_crop : spec_float) :
  rectangular reference -> rectangular target ->
  (fst (shape reference) <= fst (shape target))%nat ->
  (snd (shape reference) <= snd (shape target))%nat ->
  (forall k, (k < Z.to_nat (Z.max 1 levels))%nat ->
     margin_defined
       (Z.of_nat ((fst (shape reference) + 2 ^ k - 1) / 2 ^ k)) edge_crop = true /\
     margin_defined
       (Z.of_nat ((snd (shape reference) + 2 ^ k - 1) / 2 ^ k)) edge_crop = true) ->
  exists dx dy,
    pyramid_align reference target levels base_search refine_search metric edge_crop
      = Ok (dx, dy).
Proof.
  intros Rr Rt Fh Fw Hm.
  destruct (build_pyramid_shapes reference levels Rr) as [Lr Sr].
  destruct (build_pyramid_shapes target levels Rt) as [Lt St].
  cbv zeta in Lr, Sr, Lt, St.
  unfold pyramid_align.
  match goal with
  | |- exists dx dy, for_each ?f ?l ?s = _ =>
      destruct (for_each_returns f l s) as [[dx dy] E]; [|exists dx, dy; exact E]
  end.
  intros acc lvl Hin. unfold level_order in Hin. apply in_rev, in_seq in Hin.
  assert (Hr : (lvl < length (build_pyramid (extra_levels levels) reference))%nat) by lia.
  assert (Ht : (lvl < length (build_pyramid (extra_levels levels) target))%nat) by lia.
  destruct (Sr lvl Hr) as [Rr' Er]. destruct (St lvl Ht) as [Rt' Et].
  destruct (Hm lvl) as [Mh Mw]; [lia|].
  unfold level_body. apply level_step_returns; auto.
  - rewrite Er, Et. cbn [fst]. apply Nat.Div0.div_le_mono. lia.
  - rewrite Er, Et. cbn [snd]. apply Nat.Div0.div_le_mono. lia.
  - rewrite Er. exact Mh.
  - rewrite Er. exact Mw.
Qed.
End PyramidTotal.

(** *** A metric name that is not ["ncc"] *)

Section UnknownMetric.
Context {A : Type} `{Dtype A} `{Reduction}.
Variable metric : string.
Hypothesis not_ncc : uses_ncc metric = false.

Lemma search_body_ssd (ref_crop target : grid A) (h w ch cw : Z)
    (st : search_state) (c : Z * Z) :
  search_body false ref_crop target h w ch cw st c =
  scan_body (fun c => ssd_metric ref_crop
                        (crop h w ch cw (np_roll target (snd c) (fst c))))
            (fun s best => SFltb s best) st c.
Proof. rewrite search_body_scan. reflexivity. Qed.

Lemma align_bruteforce_ssd (reference target : grid A) (R : Z)
    (edge_crop : spec_float) :
  align_bruteforce reference target R metric edge_crop =
  (st <- ssd_search reference target R edge_crop ;;
   Ok (fst (snd st), snd (snd st), fst st)).
Proof.
  unfold align_bruteforce, ssd_search.
  change (String.eqb (lower metric) "ncc") with (uses_ncc metric).
  rewrite not_ncc. destruct (shape reference) as [h w]. cbn [fst snd].
  destruct (crop_margin (Z.of_nat h) edge_crop) as [ch|]; [|reflexivity].
  destruct (crop_margin (Z.of_nat w) edge_crop) as [cw|]; [|reflexivity].
  cbn [bind]. rewrite (for_each_ext _ _ _ _ (search_body_ssd _ _ _ _ _ _)).
  unfold search_init, search_state.
  destruct (for_each _ _ _) as [[b [dx dy]]|]; reflexivity.
Qed.

Lemma level_step_ssd (refs tars : list (grid A)) (edge_crop : spec_float)
    (search : Z) (acc : Z * Z) (lvl : nat) :
  level_step refs tars false edge_crop search acc lvl =
  (st <- ssd_search (nth lvl refs [])
          (np_roll (nth lvl tars []) (snd acc) (fst acc)) search edge_crop ;;
   let dx := fst acc + fst (snd st) in
   let dy := snd acc + snd (snd st) in
   Ok (if (lvl =? 0)%nat then (dx, dy) else (dx * 2, dy * 2))).
Proof.
  unfold level_step, ssd_search. destruct acc as [dx_total dy_total].
  cbn [fst snd]. destruct (shape (nth lvl refs [])) as [h w]. cbn [fst snd].
  destruct (crop_margin (Z.of_nat h) edge_crop) as [ch|]; [|reflexivity].
  destruct (crop_margin (Z.of_nat w) edge_crop) as [cw|]; [|reflexivity].
  cbn [bind]. rewrite (for_each_ext _ _ _ _ (search_body_ssd _ _ _ _ _ _)).
  unfold search_init, search_state.
  destruct (for_each _ _ _) as [[b [dx dy]]|]; [|reflexivity].
  cbn [bind fst snd]. destruct (lvl =? 0)%nat; reflexivity.
Qed.

Lemma pyramid_align_ssd (reference target : grid A)
    (levels base_search refine_search : Z) (edge_crop : spec_float) :
  let refs := build_pyramid (extra_levels levels) reference in
  let tars := build_pyramid (extra_levels levels) target in
  pyramid_align reference target levels base_search refine_search metric edge_crop =
  for_each
    (fun acc p =>
       st <- ssd_search (nth (fst p) refs [])
               (np_roll (nth (fst p) tars []) (snd acc) (fst acc))
               (snd p) edge_crop ;;
       let dx := fst acc + fst (snd st) in
       let dy := snd acc + snd (snd st) in
       Ok (if (fst p =? 0)%nat then (dx, dy) else (dx * 2, dy * 2)))
    (search_schedule refs base_search refine_search) (0, 0).
Proof.
  intros refs tars. unfold pyramid_align, search_schedule.
  change (String.eqb (lower metric) "ncc") with (uses_ncc metric).
  rewrite not_ncc, for_each_map. apply for_each_ext. intros acc lvl.
  unfold level_body. cbn [fst snd]. apply level_step_ssd.
Qed.

(** A search that returns has scored every candidate of the window, and
    none lower than the best it reports. *)
Lemma ssd_search_scores (reference target : grid A) (R : Z)
    (edge_crop : spec_float) (st : spec_float * (Z * Z)) :
  ssd_search reference target R edge_crop = Ok st ->
  let h := Z.of_nat (fst (shape reference)) in
  let w := Z.of_nat (snd (shape reference)) in
  exists ch cw,
    crop_margin h edge_crop = Ok ch /\ crop_margin w edge_crop = Ok cw /\
    forall c, in_window R c ->
      exists s,
        ssd_metric (crop h w ch cw reference)
                   (crop h w ch cw (np_roll target (snd c) (fst c))) = Ok s /\
        SFltb s (fst st) = false.
Proof.
  unfold ssd_search. cbv zeta. intros E.
  apply bind_Ok in E. destruct E as (ch & Ech & E).
  apply bind_Ok in E. destruct E as (cw & Ecw & E).
  exists ch, cw. split; [exact Ech|]. split; [exact Ecw|]. intros c Hc.
  apply in_candidates in Hc.
  destruct (scan_scored _ _ _ _ _ _ _ E c Hc) as [s Es].
  exists s. split; [exact Es|].
  pose proof (scan_no_better (Z * Z) spec_float _ (better_score false)
                (fun x => is_nan x = false)
                (better_score_irrefl false) (better_score_trans false)
                (better_score_not_nan false) (better_score_cotrans false)
                _ _ _ (eq_refl : is_nan (fst (pos_inf, (0, 0))) = false) E)
    as [_ Hnb].
  exact (Hnb c s Hc Es).
Qed.
End UnknownMetric.

(** ** Rounding never loses a number above the smallest subnormal *)








Section Rounding.
Variables prec emax : Z.
Hypothesis prec_pos : 0 < prec.

Local Abbreviation emin := (SpecFloat.emin prec emax).
Local Abbreviation fexp := (SpecFloat.fexp prec emax).






End Rounding.

(** ** The divisor of NCC *)





(** * The claims *)

Open Scope string_scope.

(** Closed facts about concrete runs are settled by evaluation. *)
Ltac by_computation :=
  repeat match goal with |- _ /\ _ => split end;
  first [ vm_compute; reflexivity | vm_compute; discriminate ].

(** ** C1: the exhaustive search is optimal *)

(** A float grid that holds [1e39] next to [0.0], against itself under
    NCC with radius 1: the cast to binary32 turns [1e39] into an infinity,
    the score of every candidate is NaN, no candidate replaces the initial
    best, and the search returns [(0, 0)] with [-inf].  The score of the
    returned displacement is NaN: it is not [>=] the score of any candidate
    of the window, its own included. *)
Lemma nan_scores_are_not_ordered :
  shape overflowing_grid = (1%nat, 2%nat) /\
  align_bruteforce overflowing_grid overflowing_grid 1 "ncc" no_crop
    = Ok (0, 0, neg_inf) /\
  displacement_score overflowing_grid overflowing_grid "ncc" no_crop (0, 0)
    = Ok S754_nan /\
  displacement_score overflowing_grid overflowing_grid "ncc" no_crop (-1, -1)
    = Ok S754_nan /\
  displacement_score overflowing_grid overflowing_grid "ncc" no_crop (1, 0)
    = Ok S754_nan /\
  at_least_as_good (uses_ncc "ncc") S754_nan S754_nan = false.
Proof. by_computation. Qed.

(** C1 (amended).  For two rectangular grids of the same shape, every
    radius [R], every metric name and every edge-crop fraction whose
    margins are defined, [align_bruteforce] returns a displacement of the
    window [[-R, R] x [-R, R]] such that no candidate [c] of the window
    scores strictly better than it (the score being the metric on the
    cropped reference and the cropped, rolled target); whenever the two
    scores are numbers (not NaN) the returned one is [>=] the candidate's
    under NCC and [<=] it under SSD.  Between NaN scores no order holds. *)
Theorem align_bruteforce_optimal {A} `{Dtype A} `{Reduction}
    (reference target : grid A)
    (R : Z) (metric : string) (edge_crop : spec_float) :
  rectangular reference -> rectangular target ->
  shape target = shape reference ->
  margin_defined (Z.of_nat (fst (shape reference))) edge_crop = true ->
  margin_defined (Z.of_nat (snd (shape reference))) edge_crop = true ->
  exists dx dy best,
    align_bruteforce reference target R metric edge_crop = Ok (dx, dy, best) /\
    forall c, in_window R c ->
      in_window R (dx, dy) /\
      exists s_best s_c,
        displacement_score reference target metric edge_crop (dx, dy) = Ok s_best /\
        displacement_score reference target metric edge_crop c = Ok s_c /\
        better_score (uses_ncc metric) s_c s_best = false /\
        (is_nan s_best = false -> is_nan s_c = false ->
         at_least_as_good (uses_ncc metric) s_best s_c = true).
Proof.
  intros Hr Ht Es Mh Mw.
  destruct (align_bruteforce_no_better reference target metric edge_crop Hr Ht)
    with (R := R) as (dx & dy & best & E & Hopt);
    try assumption; try (rewrite Es; apply Nat.le_refl).
  exists dx, dy, best. split; [exact E|]. intros c Hc.
  destruct (Hopt c Hc) as (Hw & s_best & s_c & E1 & E2 & Hnb).
  split; [exact Hw|]. exists s_best, s_c. repeat split; auto.
  intros N1 N2. apply at_least_as_good_total; assumption.
Qed.

Lemma align_bruteforce_optimal_witness :
  rectangular sample_grid /\
  exists dx dy best,
    align_bruteforce sample_grid (apply_alignment sample_grid 1 0) 1 "ncc" no_crop
      = Ok (dx, dy, best) /\
    forall c, in_window 1 c ->
      in_window 1 (dx, dy) /\
      exists s_best s_c,
        displacement_score sample_grid (apply_alignment sample_grid 1 0)
          "ncc" no_crop (dx, dy) = Ok s_best /\
        displacement_score sample_grid (apply_alignment sample_grid 1 0)
          "ncc" no_crop c = Ok s_c /\
        better_score (uses_ncc "ncc") s_c s_best = false /\
        (is_nan s_best = false -> is_nan s_c = false ->
         at_least_as_good (uses_ncc "ncc") s_best s_c = true).
Proof.
  split; [vm_compute; repeat constructor|].
  apply (align_bruteforce_optimal sample_grid (apply_alignment sample_grid 1 0)
           1 "ncc" no_crop).
  - vm_compute. repeat constructor.
  - vm_compute. repeat constructor.
  - reflexivity.
  - reflexivity.
  - reflexivity.
Defined.

(** ** C2: a shifted grid is recovered with the opposite sign *)

(** The grid [[1,2,3],[4,5,6],[7,8,10]] rolled one column to the right
    ([sdx = 1], [sdy = 0]) and searched with radius 1: the result is
    [(-1, 0)], the displacement that undoes the shift, under both metrics. *)
Lemma shift_recovered_with_opposite_sign :
  apply_alignment sample_grid 1 0 = [[3; 1; 2]; [6; 4; 5]; [10; 7; 8]] /\
  align_bruteforce sample_grid (apply_alignment sample_grid 1 0) 1 "ssd" no_crop
    = Ok (-1, 0, S754_zero false) /\
  (exists best,
     align_bruteforce sample_grid (apply_alignment sample_grid 1 0) 1 "ncc" no_crop
       = Ok (-1, 0, best)) /\
  (-1, 0) <> (1, 0).
Proof.
  split; [by_computation|]. split; [by_computation|]. split; [|by_computation].
  exists (S754_finite false 9437184 (-20)). by_computation.
Qed.

(** C2 (amended).  Let [G] be rectangular and [|sdx|, |sdy| <= R].  If [G]
    is not periodic within reach of the search, that is, if against [G]
    itself the zero shift scores strictly better than every other shift
    [(a, b)] with [|a - sdx| <= R] and [|b - sdy| <= R], then
    [align_bruteforce(G, apply_alignment(G, sdx, sdy), R)] returns
    [(-sdx, -sdy)]: the displacement that moves the target back onto the
    reference. *)
Theorem align_bruteforce_recovers_opposite {A} `{Dtype A} `{Reduction}
    (G : grid A)
    (sdx sdy R : Z) (metric : string) (edge_crop : spec_float) :
  rectangular G ->
  margin_defined (Z.of_nat (fst (shape G))) edge_crop = true ->
  margin_defined (Z.of_nat (snd (shape G))) edge_crop = true ->
  - R <= sdx <= R -> - R <= sdy <= R ->
  (forall a b, sdx - R <= a <= sdx + R -> sdy - R <= b <= sdy + R ->
     (a, b) <> (0, 0) ->
     strictly_better_shift G metric edge_crop (0, 0) (a, b) = true) ->
  exists best,
    align_bruteforce G (apply_alignment G sdx sdy) R metric edge_crop =
      Ok (- sdx, - sdy, best).
Proof.
  intros Hr Mh Mw Hx Hy Hnp.
  destruct (shape_np_roll G sdy sdx Hr) as [Es Hrt].
  apply (align_bruteforce_strict_best G (apply_alignment G sdx sdy) metric edge_crop
           Hr Hrt) with (c0 := (- sdx, - sdy)); try assumption.
  - unfold apply_alignment. rewrite Es. apply Nat.le_refl.
  - unfold apply_alignment. rewrite Es. apply Nat.le_refl.
  - unfold in_window. simpl. lia.
  - intros [dx dy] [Hdx Hdy] Hne. simpl in Hdx, Hdy.
    rewrite !displacement_score_shifted.
    replace (sdx + - sdx) with 0 by lia. replace (sdy + - sdy) with 0 by lia.
    apply strictly_better_shift_scores. apply Hnp; try lia.
    intros E. apply Hne. injection E as E1 E2. f_equal; lia.
Qed.

Lemma align_bruteforce_recovers_opposite_witness :
  rectangular sample_grid /\
  exists best,
    align_bruteforce sample_grid (apply_alignment sample_grid 1 0) 1 "ssd" no_crop
      = Ok (-1, 0, best).
Proof.
  assert (Hr : rectangular sample_grid) by (vm_compute; repeat constructor).
  split; [exact Hr|].
  apply (align_bruteforce_recovers_opposite sample_grid 1 0 1 "ssd" no_crop);
    [exact Hr | reflexivity | reflexivity | lia | lia |].
  intros a b Ha Hb Hne.
  assert (Ea : a = 0 \/ a = 1 \/ a = 2) by lia.
  assert (Eb : b = -1 \/ b = 0 \/ b = 1) by lia.
  destruct Ea as [-> | [-> | ->]], Eb as [-> | [-> | ->]];
    try reflexivity; exfalso; apply Hne; reflexivity.
Defined.

(** ** C3: shapes are not compared *)

(** A 2x2 reference against a 3x3 target: no failure, the search runs on
    the top-left 2x2 window of the rolled target and returns [(0, 0)]. *)
Lemma different_shapes_accepted :
  shape small_ref <> shape large_target /\
  align_bruteforce small_ref large_target 1 "ssd" no_crop
    = Ok (0, 0, S754_zero false).
Proof. by_computation. Qed.

(** C3 (amended).  [align_bruteforce] compares no shapes.  With margins
    [ch], [cw] computed from the reference: when the target has at least as
    many rows and columns as the reference, the call returns a
    displacement, scored on the window [[ch:h-ch, cw:w-cw]] of the rolled
    target; the call fails, with the [ValueError] of the array arithmetic
    raised while the first candidate is scored, when [R >= 0] and that
    window cannot be broadcast against the reference crop. *)
Theorem align_bruteforce_no_shape_check {A} `{Dtype A} `{Reduction}
    (reference target : grid A) (R : Z) (metric : string)
    (edge_crop : spec_float) (ch cw : Z) :
  rectangular reference -> rectangular target ->
  crop_margin (Z.of_nat (fst (shape reference))) edge_crop = Ok ch ->
  crop_margin (Z.of_nat (snd (shape reference))) edge_crop = Ok cw ->
  let h := Z.of_nat (fst (shape reference)) in
  let w := Z.of_nat (snd (shape reference)) in
  let rs := shape (crop h w ch cw reference) in
  let ts := shape (crop h w ch cw target) in
  ((fst (shape reference) <= fst (shape target))%nat ->
   (snd (shape reference) <= snd (shape target))%nat ->
   exists dx dy best,
     align_bruteforce reference target R metric edge_crop = Ok (dx, dy, best)) /\
  (0 <= R ->
   (broadcastable (fst rs) (fst ts) && broadcastable (snd rs) (snd ts))%bool = false ->
   align_bruteforce reference target R metric edge_crop = Raise ValueError).
Proof.
  intros Hr Ht Ech Ecw h w rs ts. split.
  - intros Fh Fw.
    destruct (search_returns reference target metric edge_crop ch cw Ech Ecw
                Hr Ht Fh Fw R) as (st & _ & E).
    eexists _, _, _. exact E.
  - intros HR Hb. unfold rs, ts, h, w in *. clear rs ts h w.
    rewrite (align_bruteforce_scan reference target metric edge_crop ch cw Ech Ecw).
    destruct (candidates_head R HR) as [l ->].
    rewrite (scan_raise _ _ _ _ _ l _ ValueError); [reflexivity|].
    unfold candidate_score. cbn [fst snd].
    destruct (rectangular_rows target _ _ Ht eq_refl) as [Th Tw].
    destruct (np_roll_rows target (- R) (- R) _ _ Th Tw) as [Sh Sw].
    match type of Hb with
    | context [shape (crop ?h ?w _ _ target)] =>
        assert (E : shape (crop h w ch cw (np_roll target (- R) (- R))) =
                    shape (crop h w ch cw target))
    end.
    { apply crop_shape_eq with (w' := snd (shape target));
        [exact Sh | exact Sw | exact Tw]. }
    destruct (uses_ncc metric).
    + apply ncc_metric_raise. rewrite E. exact Hb.
    + apply ssd_metric_raise. rewrite E. exact Hb.
Qed.

Lemma align_bruteforce_no_shape_check_witness :
  rectangular small_ref /\ rectangular large_target /\
  (exists dx dy best,
     align_bruteforce small_ref large_target 1 "ssd" no_crop = Ok (dx, dy, best)) /\
  align_bruteforce large_target small_ref 1 "ssd" no_crop = Raise ValueError.
Proof.
  assert (H1 : rectangular small_ref) by (vm_compute; repeat constructor).
  assert (H2 : rectangular large_target) by (vm_compute; repeat constructor).
  split; [exact H1|]. split; [exact H2|]. split.
  - apply (proj1 (align_bruteforce_no_shape_check small_ref large_target 1 "ssd"
                    no_crop 0 0 H1 H2 eq_refl eq_refl)); simpl; lia.
  - apply (proj2 (align_bruteforce_no_shape_check large_target small_ref 1 "ssd"
                    no_crop 0 0 H2 H1 eq_refl eq_refl)); [lia|reflexivity].
Defined.

(** ** C4: which level gets which radius *)

(** With two levels, [base_search = 4] and [refine_search = 2], the
    coarsest level (index 1) is searched with radius 2 and the finest with
    radius 4.  A run with [base_search = 0] and [refine_search = 1] on a
    grid rolled by two columns returns [(-2, 0)]: one step found at the
    coarsest level and doubled, nothing added at the finest. *)
Lemma coarsest_level_uses_refine_search :
  search_schedule (build_pyramid (extra_levels 2) sample_grid4) 4 2
    = [(1%nat, 2); (0%nat, 4)] /\
  level_search (Z.to_nat 2 - 1) 4 2 <> 4 /\
  level_search 0 4 2 <> 2 /\
  pyramid_align sample_grid4 (apply_alignment sample_grid4 (-2) 0) 2 0 1 "ssd" no_crop
    = Ok (-2, 0).
Proof. by_computation. Qed.

(** C4 (amended).  For [levels >= 2], [pyramid_align] visits the levels
    from the coarsest, [levels - 1], down to [0]; it searches level [0], the
    full-resolution one, with radius [base_search] and every other level,
    the coarsest included, with radius [refine_search]. *)
Theorem pyramid_schedule {A} `{Dtype A} `{Reduction} (reference target : grid A)
    (levels base_search refine_search : Z) (metric : string)
    (edge_crop : spec_float) :
  2 <= levels ->
  let refs := build_pyramid (extra_levels levels) reference in
  let tars := build_pyramid (extra_levels levels) target in
  pyramid_align reference target levels base_search refine_search metric edge_crop =
    for_each
      (fun acc p => level_step refs tars (uses_ncc metric) edge_crop (snd p) acc (fst p))
      (search_schedule refs base_search refine_search) (0, 0) /\
  search_schedule refs base_search refine_search =
    (map (fun lvl => (lvl, refine_search)) (rev (seq 1 (Z.to_nat levels - 1)))
     ++ [(0%nat, base_search)])%list /\
  hd_error (search_schedule refs base_search refine_search) =
    Some ((Z.to_nat levels - 1)%nat, refine_search).
Proof.
  intros HL refs tars.
  assert (Esch : search_schedule refs base_search refine_search =
    (map (fun lvl => (lvl, refine_search)) (rev (seq 1 (Z.to_nat levels - 1)))
     ++ [(0%nat, base_search)])%list).
  { unfold search_schedule, level_order, refs. rewrite length_build_pyramid.
    unfold extra_levels.
    replace (Z.to_nat (Z.max 1 levels - 1)) with (Z.to_nat levels - 1)%nat by lia.
    simpl seq. simpl rev. rewrite map_app. simpl. f_equal.
    apply map_ext_in. intros lvl Hin. apply in_rev in Hin. apply in_seq in Hin.
    unfold level_search. destruct lvl; [lia|reflexivity]. }
  split; [|split].
  - unfold pyramid_align, search_schedule. rewrite for_each_map. reflexivity.
  - exact Esch.
  - rewrite Esch.
    replace (Z.to_nat levels - 1)%nat with (S (Z.to_nat levels - 2)) by lia.
    rewrite seq_S, rev_app_distr. reflexivity.
Qed.

Lemma pyramid_schedule_witness :
  let refs := build_pyramid (extra_levels 5) sample_grid4 in
  let tars := build_pyramid (extra_levels 5) sample_grid4 in
  pyramid_align sample_grid4 sample_grid4 5 4 2 "ncc" default_crop =
    for_each
      (fun acc p => level_step refs tars (uses_ncc "ncc") default_crop (snd p) acc (fst p))
      (search_schedule refs 4 2) (0, 0) /\
  search_schedule refs 4 2 =
    (map (fun lvl => (lvl, 2)) (rev (seq 1 (Z.to_nat 5 - 1))) ++ [(0%nat, 4)])%list /\
  hd_error (search_schedule refs 4 2) = Some ((Z.to_nat 5 - 1)%nat, 2).
Proof.
  apply (pyramid_schedule sample_grid4 sample_grid4 5 4 2 "ncc" default_crop). lia.
Defined.

(** ** C5: the margin truncates *)

(** For a dimension of 10 and [edge_crop = 0.1875] the product is 1.875:
    the code computes the margin 1, rounding to the nearest integer gives 2
    (and the cap [10 // 4 = 2] does not hide the difference). *)
Lemma crop_margin_not_rounded :
  py_int_mul_float 10 crop_3_16 = Ok (S754_finite false 8444249301319680 (-52)) /\
  crop_margin 10 crop_3_16 = Ok 1 /\
  spec_crop_margin 10 crop_3_16 = Ok 2 /\
  crop_margin 10 crop_3_16 <> spec_crop_margin 10 crop_3_16.
Proof. by_computation. Qed.

(** C5 (amended).  For every dimension [d] and every edge-crop fraction
    whose product [p = d * edge_crop] is a finite float, the margin is
    [clamp(floor(p), 0, d // 4)]: the product is truncated, not rounded to
    the nearest integer, before it is clamped. *)
Theorem crop_margin_truncates (d : Z) (edge_crop p : spec_float) :
  py_int_mul_float d edge_crop = Ok p -> is_finite p = true ->
  crop_margin d edge_crop = Ok (clamp (Qfloor (F2Q p)) 0 (d / 4)).
Proof.
  intros Ep Hp. unfold crop_margin. rewrite Ep. simpl.
  destruct p as [s|s| |s m e]; try discriminate; simpl.
  - reflexivity.
  - unfold clamp. rewrite max0_trunc_floor. reflexivity.
Qed.

Lemma crop_margin_truncates_witness :
  py_int_mul_float 10 crop_3_16 = Ok (S754_finite false 8444249301319680 (-52)) /\
  crop_margin 10 crop_3_16 =
    Ok (clamp (Qfloor (F2Q (S754_finite false 8444249301319680 (-52)))) 0 (10 / 4)).
Proof.
  split; [reflexivity|].
  exact (crop_margin_truncates 10 crop_3_16
           (S754_finite false 8444249301319680 (-52)) eq_refl eq_refl).
Defined.

(** ** C6: ties go to the candidate enumerated first *)

(** Two 1x1 float grids that hold [1e20] and [-1e20], under SSD with
    radius 1: the squared difference overflows binary32 and every candidate
    scores [+inf], bit for bit.  No score is strictly lower than the initial
    [+inf], so the result is the initial displacement [(0, 0)], not
    [(-1, -1)], the candidate that is enumerated first. *)
Lemma tie_at_the_initial_score :
  hd_error (candidates 1) = Some (-1, -1) /\
  displacement_score huge_grid huge_grid_neg "ssd" no_crop (-1, -1) = Ok pos_inf /\
  displacement_score huge_grid huge_grid_neg "ssd" no_crop (0, 0) = Ok pos_inf /\
  displacement_score huge_grid huge_grid_neg "ssd" no_crop (1, 1) = Ok pos_inf /\
  align_bruteforce huge_grid huge_grid_neg 1 "ssd" no_crop = Ok (0, 0, pos_inf) /\
  (0, 0) <> (-1, -1).
Proof. by_computation. Qed.

(** C6 (amended).  The loop body replaces the best candidate exactly when
    the new score is strictly better ([>] under NCC, [<] under SSD), and the
    scan starts from [(0, 0)] with the score [-inf] (NCC) or [+inf] (SSD).
    Hence, for equally shaped grids, no candidate of the window scores
    strictly better than the result, and
    - either no candidate beat the initial score, and the result is
      [(0, 0)] with that infinity, whatever scores tie;
    - or the result is a candidate of the window with its score, and every
      candidate whose score is a number that is not strictly worse, an
      identical score in particular, is enumerated no earlier than it, in
      the order of the loops ([dy] outer, [dx] inner, from [(-R, -R)]). *)
Theorem align_bruteforce_tie_break {A} `{Dtype A} `{Reduction}
    (reference target : grid A)
    (R : Z) (metric : string) (edge_crop : spec_float) :
  rectangular reference -> rectangular target ->
  shape target = shape reference ->
  margin_defined (Z.of_nat (fst (shape reference))) edge_crop = true ->
  margin_defined (Z.of_nat (snd (shape reference))) edge_crop = true ->
  (forall use_ncc ref_crop h w ch cw st c,
     search_body use_ncc ref_crop target h w ch cw st c =
     (s <- candidate_score use_ncc ref_crop target h w ch cw c ;;
      Ok (if better_score use_ncc s (fst st) then (s, c) else st))) /\
  exists dx dy best,
    align_bruteforce reference target R metric edge_crop = Ok (dx, dy, best) /\
    (forall c, in_window R c ->
       exists s,
         displacement_score reference target metric edge_crop c = Ok s /\
         better_score (uses_ncc metric) s best = false) /\
    ((dx = 0 /\ dy = 0 /\ best = fst (search_init (uses_ncc metric))) \/
     (in_window R (dx, dy) /\
      displacement_score reference target metric edge_crop (dx, dy) = Ok best /\
      better_score (uses_ncc metric) best (fst (search_init (uses_ncc metric)))
        = true /\
      forall c s, in_window R c ->
        displacement_score reference target metric edge_crop c = Ok s ->
        is_nan s = false ->
        better_score (uses_ncc metric) best s = false ->
        enumerated_before_eq (dx, dy) c)).
Proof.
  intros Hr Ht Es Mh Mw. split.
  - intros use_ncc ref_crop h w ch cw st c. rewrite search_body_scan. reflexivity.
  - assert (Fh : (fst (shape reference) <= fst (shape target))%nat)
      by (rewrite Es; apply Nat.le_refl).
    assert (Fw : (snd (shape reference) <= snd (shape target))%nat)
      by (rewrite Es; apply Nat.le_refl).
    exact (align_bruteforce_selects reference target metric edge_crop
             Hr Ht Fh Fw Mh Mw R).
Qed.

(** On the 3x3 sample grid with radius 3 the displacements [(-3, -3)],
    [(0, 0)], [(3, 3)] and six more all roll the grid onto itself and tie at
    SSD 0: the first of them is returned. *)
Lemma align_bruteforce_tie_break_witness :
  rectangular sample_grid /\
  align_bruteforce sample_grid sample_grid 3 "ssd" no_crop
    = Ok (-3, -3, S754_zero false) /\
  displacement_score sample_grid sample_grid "ssd" no_crop (0, 0)
    = Ok (S754_zero false) /\
  exists dx dy best,
    align_bruteforce sample_grid sample_grid 3 "ssd" no_crop = Ok (dx, dy, best) /\
    (forall c, in_window 3 c ->
       exists s,
         displacement_score sample_grid sample_grid "ssd" no_crop c = Ok s /\
         better_score (uses_ncc "ssd") s best = false) /\
    ((dx = 0 /\ dy = 0 /\ best = fst (search_init (uses_ncc "ssd"))) \/
     (in_window 3 (dx, dy) /\
      displacement_score sample_grid sample_grid "ssd" no_crop (dx, dy) = Ok best /\
      better_score (uses_ncc "ssd") best (fst (search_init (uses_ncc "ssd")))
        = true /\
      forall c s, in_window 3 c ->
        displacement_score sample_grid sample_grid "ssd" no_crop c = Ok s ->
        is_nan s = false ->
        better_score (uses_ncc "ssd") best s = false ->
        enumerated_before_eq (dx, dy) c)).
Proof.
  assert (Hr : rectangular sample_grid) by (vm_compute; repeat constructor).
  split; [exact Hr|]. split; [reflexivity|]. split; [reflexivity|].
  exact (proj2 (align_bruteforce_tie_break sample_grid sample_grid 3 "ssd" no_crop
                  Hr Hr eq_refl eq_refl eq_refl)).
Defined.

(** ** C7: a grid against itself *)

(** The 3x3 sample grid has a non-zero standard deviation, yet with radius
    3 the search of the grid against itself returns [(-3, -3)] under both
    metrics: rolling by the full size is the identity, and the tie goes to
    the first candidate.  Likewise a 4x4 grid of period 2 searched with
    radius 2 and the default crop returns [(-2, -2)]. *)
Lemma self_alignment_not_zero :
  SFltb (S754_zero false) (np_std (astype sample_grid)) = true /\
  align_bruteforce sample_grid sample_grid 3 "ssd" no_crop
    = Ok (-3, -3, S754_zero false) /\
  (exists best,
     align_bruteforce sample_grid sample_grid 3 "ncc" no_crop = Ok (-3, -3, best)) /\
  SFltb (S754_zero false) (np_std (astype periodic_grid)) = true /\
  align_bruteforce periodic_grid periodic_grid 2 "ssd" default_crop
    = Ok (-2, -2, S754_zero false) /\
  (-3, -3) <> (0, 0) /\ (-2, -2) <> (0, 0).
Proof.
  split; [by_computation|]. split; [by_computation|].
  split; [exists (S754_finite false 9437184 (-20)); by_computation|].
  by_computation.
Qed.

(** C7 (amended).  For a rectangular grid [G], [R >= 0] and either metric,
    [align_bruteforce(G, G, R)] returns [(0, 0)] provided the zero
    displacement scores strictly better than every other candidate of the
    window; this excludes the radii that reach the size of the grid and
    the grids that repeat, or that differ only outside the crop, within
    the window. *)
Theorem align_bruteforce_self {A} `{Dtype A} `{Reduction} (G : grid A) (R : Z)
    (metric : string) (edge_crop : spec_float) :
  rectangular G ->
  margin_defined (Z.of_nat (fst (shape G))) edge_crop = true ->
  margin_defined (Z.of_nat (snd (shape G))) edge_crop = true ->
  0 <= R ->
  (forall c, in_window R c -> c <> (0, 0) ->
     strictly_better_shift G metric edge_crop (0, 0) c = true) ->
  exists best, align_bruteforce G G R metric edge_crop = Ok (0, 0, best).
Proof.
  intros Hr Mh Mw HR Hnp.
  apply (align_bruteforce_strict_best G G metric edge_crop Hr Hr)
    with (c0 := (0, 0)); try assumption; try apply Nat.le_refl.
  - unfold in_window. simpl. lia.
  - intros c Hc Hne. apply strictly_better_shift_scores. auto.
Qed.

Lemma align_bruteforce_self_witness :
  rectangular sample_grid /\
  exists best,
    align_bruteforce sample_grid sample_grid 1 "ncc" no_crop = Ok (0, 0, best).
Proof.
  assert (Hr : rectangular sample_grid) by (vm_compute; repeat constructor).
  split; [exact Hr|].
  apply (align_bruteforce_self sample_grid 1 "ncc" no_crop);
    [exact Hr | reflexivity | reflexivity | lia |].
  intros [a b] [Ha Hb] Hne. simpl in Ha, Hb.
  assert (Ea : a = -1 \/ a = 0 \/ a = 1) by lia.
  assert (Eb : b = -1 \/ b = 0 \/ b = 1) by lia.
  destruct Ea as [-> | [-> | ->]], Eb as [-> | [-> | ->]];
    try reflexivity; exfalso; apply Hne; reflexivity.
Defined.

(** ** C8: the margin is at most a quarter *)

(** C8.  For dimensions [h, w >= 0] and every edge-crop fraction, the
    margins [ch] and [cw] that [align_bruteforce] computes satisfy
    [0 <= ch <= h // 4] and [0 <= cw <= w // 4]; and they are computed
    whenever the products [h * edge_crop] and [w * edge_crop] are finite
    floats. *)
Theorem crop_margin_quarter (h w : Z) (edge_crop : spec_float) :
  0 <= h -> 0 <= w ->
  (forall ch cw,
     crop_margin h edge_crop = Ok ch -> crop_margin w edge_crop = Ok cw ->
     0 <= ch <= h / 4 /\ 0 <= cw <= w / 4) /\
  (margin_defined h edge_crop = true -> margin_defined w edge_crop = true ->
   exists ch cw,
     crop_margin h edge_crop = Ok ch /\ crop_margin w edge_crop = Ok cw).
Proof.
  intros Hh Hw. split.
  - intros ch cw Ech Ecw. split; eapply crop_margin_range; eauto.
  - intros Mh Mw.
    destruct (crop_margin_defined _ _ Mh) as [ch Ech].
    destruct (crop_margin_defined _ _ Mw) as [cw Ecw].
    exists ch, cw. split; assumption.
Qed.

Lemma crop_margin_quarter_witness :
  crop_margin 100 half_crop = Ok 25 /\ crop_margin 80 half_crop = Ok 20 /\
  0 <= 25 <= 100 / 4 /\ 0 <= 20 <= 80 / 4.
Proof.
  split; [reflexivity|]. split; [reflexivity|].
  apply (proj1 (crop_margin_quarter 100 80 half_crop ltac:(lia) ltac:(lia)));
    reflexivity.
Defined.

(** ** C9: the metrics are defined, not always finite *)




(** ** C10: any name but "ncc" selects SSD *)

(** C10.  For every metric name whose lowercase form is not ["ncc"],
    known or not, the name is never validated and both functions run the
    SSD search, in which every candidate of the window is scored with
    [ssd_metric] and the lower score wins: [align_bruteforce] returns what
    that search finds, [pyramid_align] runs it at every level of its
    schedule, a search that returns has scored every candidate, and on
    rectangular grids of one shape with defined margins neither function
    raises. *)
Theorem unknown_metric_is_ssd {A} `{Dtype A} `{Reduction} (metric : string) :
  uses_ncc metric = false ->
  forall (reference target : grid A) (edge_crop : spec_float),
    (forall R,
       align_bruteforce reference target R metric edge_crop =
       (st <- ssd_search reference target R edge_crop ;;
        Ok (fst (snd st), snd (snd st), fst st))) /\
    (forall levels base_search refine_search,
       let refs := build_pyramid (extra_levels levels) reference in
       let tars := build_pyramid (extra_levels levels) target in
       pyramid_align reference target levels base_search refine_search
         metric edge_crop =
       for_each
         (fun acc p =>
            st <- ssd_search (nth (fst p) refs [])
                    (np_roll (nth (fst p) tars []) (snd acc) (fst acc))
                    (snd p) edge_crop ;;
            let dx := fst acc + fst (snd st) in
            let dy := snd acc + snd (snd st) in
            Ok (if (fst p =? 0)%nat then (dx, dy) else (dx * 2, dy * 2)))
         (search_schedule refs base_search refine_search) (0, 0)) /\
    (forall R st,
       ssd_search reference target R edge_crop = Ok st ->
       let h := Z.of_nat (fst (shape reference)) in
       let w := Z.of_nat (snd (shape reference)) in
       exists ch cw,
         crop_margin h edge_crop = Ok ch /\ crop_margin w edge_crop = Ok cw /\
         forall c, in_window R c ->
           exists s,
             ssd_metric (crop h w ch cw reference)
               (crop h w ch cw (np_roll target (snd c) (fst c))) = Ok s /\
             SFltb s (fst st) = false) /\
    (rectangular reference -> rectangular target ->
     shape target = shape reference ->
     (margin_defined (Z.of_nat (fst (shape reference))) edge_crop = true ->
      margin_defined (Z.of_nat (snd (shape reference))) edge_crop = true ->
      forall R, exists dx dy best,
        align_bruteforce reference target R metric edge_crop = Ok (dx, dy, best)) /\
     (forall levels,
        (forall k, (k < Z.to_nat (Z.max 1 levels))%nat ->
           margin_defined
             (Z.of_nat ((fst (shape reference) + 2 ^ k - 1) / 2 ^ k)) edge_crop
             = true /\
           margin_defined
             (Z.of_nat ((snd (shape reference) + 2 ^ k - 1) / 2 ^ k)) edge_crop
             = true) ->
        forall base_search refine_search, exists dx dy,
          pyramid_align reference target levels base_search refine_search
            metric edge_crop = Ok (dx, dy))).
Proof.
  intros Hm reference target edge_crop.
  split; [intros R; apply align_bruteforce_ssd; exact Hm|].
  split; [intros levels base_search refine_search;
          apply pyramid_align_ssd; exact Hm|].
  split; [intros R st; apply ssd_search_scores|].
  intros Hr Ht Es.
  assert (Fh : (fst (shape reference) <= fst (shape target))%nat)
    by (rewrite Es; apply Nat.le_refl).
  assert (Fw : (snd (shape reference) <= snd (shape target))%nat)
    by (rewrite Es; apply Nat.le_refl).
  split.
  - intros Mh Mw R.
    destruct (align_bruteforce_run reference target metric edge_crop
                Hr Ht Fh Fw Mh Mw R) as (_ & st & _ & E).
    eexists _, _, _. exact E.
  - intros levels Hmargins base_search refine_search.
    exact (pyramid_align_total reference target levels base_search refine_search
             metric edge_crop Hr Ht Fh Fw Hmargins).
Qed.

(** The name ["abc"]: the exhaustive search undoes a roll by one column
    with SSD 0, the pyramid search undoes a roll by two columns, and the
    pyramid run is the SSD search at the two levels of its schedule. *)
Lemma unknown_metric_is_ssd_witness :
  uses_ncc "abc" = false /\
  align_bruteforce sample_grid (apply_alignment sample_grid 1 0) 1 "abc" no_crop
    = Ok (-1, 0, S754_zero false) /\
  pyramid_align sample_grid4 (apply_alignment sample_grid4 (-2) 0) 2 0 1 "abc" no_crop
    = Ok (-2, 0) /\
  (let refs := build_pyramid (extra_levels 2) sample_grid4 in
   let tars := build_pyramid (extra_levels 2) (apply_alignment sample_grid4 (-2) 0) in
   pyramid_align sample_grid4 (apply_alignment sample_grid4 (-2) 0) 2 0 1 "abc" no_crop
   = for_each
       (fun acc p =>
          st <- ssd_search (nth (fst p) refs [])
                  (np_roll (nth (fst p) tars []) (snd acc) (fst acc))
                  (snd p) no_crop ;;
          let dx := fst acc + fst (snd st) in
          let dy := snd acc + snd (snd st) in
          Ok (if (fst p =? 0)%nat then (dx, dy) else (dx * 2, dy * 2)))
       (search_schedule refs 0 1) (0, 0)).
Proof.
  split; [reflexivity|]. split; [vm_compute; reflexivity|].
  split; [vm_compute; reflexivity|].
  exact (proj1 (proj2 (unknown_metric_is_ssd "abc" eq_refl sample_grid4
                  (apply_alignment sample_grid4 (-2) 0) no_crop)) 2 0 1).
Defined.

Close Scope string_scope.

(** * Further properties of the code *)

(** ** [apply_alignment] *)

Lemma np_roll1_index {A} (k : Z) (l : list A) (i : nat) (d : A) :
  (i < length l)%nat ->
  nth i (np_roll1 k l) d =
  nth (Z.to_nat ((Z.of_nat i - k) mod Z.of_nat (length l))) l d.
Proof.
  intros Hi. assert (Hl : l <> []) by (destruct l; [simpl in Hi; lia|discriminate]).
  destruct (np_roll1_split k l Hl) as (t & Ht & Et & ->).
  set (n := length l) in *.
  assert (Hm : 0 <= k mod Z.of_nat n < Z.of_nat n) by (apply Z.mod_pos_bound; lia).
  destruct (Nat.lt_ge_cases i (n - t)) as [Hlt|Hge].
  - rewrite app_nth1 by (rewrite length_skipn; fold n; lia).
    rewrite nth_skipn. f_equal.
    rewrite <- (Z.mod_unique_pos (Z.of_nat i - k) (Z.of_nat n)
                  (- (k / Z.of_nat n) - 1) (Z.of_nat (t + i))).
    + lia.
    + lia.
    + pose proof (Z.div_mod k (Z.of_nat n)). nia.
  - rewrite app_nth2 by (rewrite length_skipn; fold n; lia).
    rewrite length_skipn. fold n. rewrite nth_firstn.
    destruct (Nat.ltb_spec (i - (n - t)) t) as [_|Hbad]; [|lia]. f_equal.
    rewrite <- (Z.mod_unique_pos (Z.of_nat i - k) (Z.of_nat n)
                  (- (k / Z.of_nat n)) (Z.of_nat (i - (n - t)))).
    + lia.
    + lia.
    + pose proof (Z.div_mod k (Z.of_nat n)). nia.
Qed.

Lemma np_roll1_period {A} (k a : Z) (l : list A) :
  np_roll1 (k + a * Z.of_nat (length l)) l = np_roll1 k l.
Proof.
  unfold np_roll1. destruct (length l) as [|n] eqn:En; [reflexivity|].
  rewrite Z.mod_add by lia. reflexivity.
Qed.

Lemma np_roll1_permutation {A} (k : Z) (l : list A) : Permutation (np_roll1 k l) l.
Proof.
  unfold np_roll1. destruct (length l) as [|n]; [reflexivity|].
  rewrite <- (firstn_skipn (S n - Z.to_nat (k mod Z.of_nat (S n))) l) at 3.
  apply Permutation_app_comm.
Qed.

Lemma Permutation_concat_rows {A} (l l' : list (list A)) :
  Permutation l l' -> Permutation (concat l) (concat l').
Proof.
  induction 1 as [|x l l' _ IH|x y l|l l' l'' _ IH1 _ IH2]; simpl.
  - reflexivity.
  - apply Permutation_app_head. exact IH.
  - rewrite !app_assoc. apply Permutation_app_tail. apply Permutation_app_comm.
  - etransitivity; eassumption.
Qed.

Lemma Permutation_concat_map {A} (f : list A -> list A) (l : list (list A)) :
  (forall r, Permutation (f r) r) -> Permutation (concat (map f l)) (concat l).
Proof.
  intros Hf. induction l as [|r l IH]; simpl; [reflexivity|].
  apply Permutation_app; [apply Hf|exact IH].
Qed.

(** X1.  "+dx -> right, +dy -> down": the sample at row [i], column [j] of the
    shifted channel is the sample of the channel at row [i - dy], column
    [j - dx], indices taken modulo the size. *)
Theorem apply_alignment_sample {A} (channel : grid A) (dx dy : Z)
    (i j : nat) (d : A) :
  rectangular channel ->
  (i < fst (shape channel))%nat -> (j < snd (shape channel))%nat ->
  let h := Z.of_nat (fst (shape channel)) in
  let w := Z.of_nat (snd (shape channel)) in
  nth j (nth i (apply_alignment channel dx dy) []) d =
  nth (Z.to_nat ((Z.of_nat j - dx) mod w))
      (nth (Z.to_nat ((Z.of_nat i - dy) mod h)) channel []) d.
Proof.
  intros Hr Hi Hj h w. unfold apply_alignment, np_roll.
  destruct (rectangular_rows channel _ _ Hr eq_refl) as [Hh Hw].
  change (@nil A) with (np_roll1 dx (@nil A)) at 1. rewrite map_nth.
  rewrite (np_roll1_index dy channel i []) by exact Hi.
  change (Z.of_nat (length channel)) with h.
  set (i' := Z.to_nat ((Z.of_nat i - dy) mod h)).
  assert (Hi' : (i' < length channel)%nat).
  { assert (Hhp : 0 < h) by (unfold h; lia).
    pose proof (Z.mod_pos_bound (Z.of_nat i - dy) h Hhp) as Hb.
    change (length channel) with (fst (shape channel)). unfold i', h in *. lia. }
  assert (Hlen : length (nth i' channel []) = snd (shape channel)).
  { rewrite Forall_forall in Hw. apply Hw. apply nth_In. exact Hi'. }
  rewrite np_roll1_index by (rewrite Hlen; exact Hj). rewrite Hlen. reflexivity.
Qed.

Lemma apply_alignment_sample_witness :
  rectangular sample_grid /\
  (1 < fst (shape sample_grid))%nat /\ (2 < snd (shape sample_grid))%nat /\
  nth 2 (nth 1 (apply_alignment sample_grid 1 1) []) 0 =
  nth (Z.to_nat ((2 - 1) mod 3)) (nth (Z.to_nat ((1 - 1) mod 3)) sample_grid []) 0.
Proof.
  assert (Hr : rectangular sample_grid) by (vm_compute; repeat constructor).
  assert (Hi : (1 < fst (shape sample_grid))%nat) by (vm_compute; lia).
  assert (Hj : (2 < snd (shape sample_grid))%nat) by (vm_compute; lia).
  split; [exact Hr|]. split; [exact Hi|]. split; [exact Hj|].
  exact (apply_alignment_sample sample_grid 1 1 1%nat 2%nat 0 Hr Hi Hj).
Defined.

(** X2.  Two shifts in a row are one shift by the sum. *)
Theorem apply_alignment_compose {A} (channel : grid A) (dx1 dy1 dx2 dy2 : Z) :
  apply_alignment (apply_alignment channel dx1 dy1) dx2 dy2 =
  apply_alignment channel (dx1 + dx2) (dy1 + dy2).
Proof. unfold apply_alignment. apply np_roll_add. Qed.

(** X3.  Shifting back by the opposite displacement restores the channel. *)
Theorem apply_alignment_undo {A} (channel : grid A) (dx dy : Z) :
  apply_alignment (apply_alignment channel dx dy) (- dx) (- dy) = channel.
Proof.
  unfold apply_alignment. rewrite np_roll_add.
  replace (dx + - dx) with 0 by lia. replace (dy + - dy) with 0 by lia.
  apply np_roll_0.
Qed.

(** X4.  Displacements that differ by multiples of the width and of the height
    give the same channel. *)
Theorem apply_alignment_period {A} (channel : grid A) (dx dy a b : Z) :
  rectangular channel ->
  apply_alignment channel (dx + a * Z.of_nat (snd (shape channel)))
                          (dy + b * Z.of_nat (fst (shape channel))) =
  apply_alignment channel dx dy.
Proof.
  intros Hr. unfold apply_alignment, np_roll.
  destruct (rectangular_rows channel _ _ Hr eq_refl) as [Hh Hw].
  change (fst (shape channel)) with (length channel).
  rewrite np_roll1_period. apply map_ext_in. intros r Hin.
  apply in_np_roll1 in Hin. rewrite Forall_forall in Hw.
  change (snd (shape channel)) with (length (hd [] channel)).
  rewrite <- (Hw r Hin). apply np_roll1_period.
Qed.

Lemma apply_alignment_period_witness :
  rectangular sample_grid /\
  apply_alignment sample_grid (1 + 2 * Z.of_nat (snd (shape sample_grid)))
                              (0 + -1 * Z.of_nat (fst (shape sample_grid))) =
  apply_alignment sample_grid 1 0.
Proof.
  assert (Hr : rectangular sample_grid) by (vm_compute; repeat constructor).
  split; [exact Hr|].
  exact (apply_alignment_period sample_grid 1 0 2 (-1) Hr).
Defined.

(** X5.  The shift keeps the shape and moves samples around without losing or
    inventing any. *)
Theorem apply_alignment_permutes {A} (channel : grid A) (dx dy : Z) :
  rectangular channel ->
  shape (apply_alignment channel dx dy) = shape channel /\
  rectangular (apply_alignment channel dx dy) /\
  Permutation (concat (apply_alignment channel dx dy)) (concat channel).
Proof.
  intros Hr. unfold apply_alignment.
  destruct (shape_np_roll channel dy dx Hr) as [Es Hr']. repeat split; auto.
  unfold np_roll. etransitivity.
  - apply Permutation_concat_map. intros r. apply np_roll1_permutation.
  - apply Permutation_concat_rows. apply np_roll1_permutation.
Qed.

Lemma apply_alignment_permutes_witness :
  rectangular sample_grid /\
  shape (apply_alignment sample_grid 1 (-2)) = shape sample_grid /\
  rectangular (apply_alignment sample_grid 1 (-2)) /\
  Permutation (concat (apply_alignment sample_grid 1 (-2))) (concat sample_grid).
Proof.
  assert (Hr : rectangular sample_grid) by (vm_compute; repeat constructor).
  split; [exact Hr|].
  exact (apply_alignment_permutes sample_grid 1 (-2) Hr).
Defined.

(** ** [split_image] *)

Lemma py_slice_firstn_skipn {A} (a b : Z) (l : list A) :
  0 <= a <= b -> b <= Z.of_nat (length l) ->
  py_slice a b l = firstn (Z.to_nat (b - a)) (skipn (Z.to_nat a) l).
Proof.
  intros Hab Hb. unfold py_slice, slice_index.
  destruct (Z.ltb_spec a 0), (Z.ltb_spec b 0); try lia.
  rewrite !Z.min_l by lia. reflexivity.
Qed.

Lemma split_image_planes {A} (stacked_img : grid A) :
  let n := (length stacked_img / 3)%nat in
  split_image stacked_img =
    (firstn n stacked_img,
     firstn n (skipn n stacked_img),
     firstn n (skipn (2 * n) stacked_img)).
Proof.
  intros n. unfold split_image, shape.
  assert (En : Z.of_nat (length stacked_img) / 3 = Z.of_nat n)
    by (unfold n; rewrite Nat2Z.inj_div; reflexivity).
  assert (Hn : (3 * n <= length stacked_img)%nat)
    by (unfold n; apply Nat.Div0.mul_div_le).
  rewrite En. rewrite !py_slice_firstn_skipn by lia.
  repeat f_equal; lia.
Qed.

Lemma split_image_same_shape {A} (stacked_img : grid A) :
  rectangular stacked_img ->
  let '(b, g, r) := split_image stacked_img in
  shape g = shape b /\ shape r = shape b /\
  rectangular b /\ rectangular g /\ rectangular r /\
  fst (shape b) = (fst (shape stacked_img) / 3)%nat /\
  (fst (shape b) <> 0%nat -> snd (shape b) = snd (shape stacked_img)).
Proof.
  intros Hr. rewrite split_image_planes.
  set (n := (length stacked_img / 3)%nat).
  assert (Hn : (3 * n <= length stacked_img)%nat)
    by (unfold n; apply Nat.Div0.mul_div_le).
  destruct (rectangular_rows stacked_img _ _ Hr eq_refl) as [_ Hw].
  set (w := snd (shape stacked_img)) in *.
  assert (Hplane : forall k, (k + n <= length stacked_img)%nat ->
            let p := firstn n (skipn k stacked_img) in
            shape p = (n, if (n =? 0)%nat then 0%nat else w) /\ rectangular p).
  { intros k Hk p.
    assert (Hlen : length p = n)
      by (unfold p; rewrite length_firstn, length_skipn; lia).
    assert (Hrows : Forall (fun r => length r = w) p).
    { apply Forall_forall. intros r Hin. rewrite Forall_forall in Hw. apply Hw.
      unfold p in Hin. eapply in_skipn, in_firstn, Hin. }
    pose proof (shape_of_rows p n w Hlen Hrows) as Es. split; [exact Es|].
    unfold rectangular. rewrite Es. simpl.
    destruct (Nat.eqb_spec n 0) as [E0|_]; [|exact Hrows].
    destruct p; [constructor|simpl in Hlen; lia]. }
  destruct (Hplane 0%nat ltac:(lia)) as [Eb Rb].
  destruct (Hplane n ltac:(lia)) as [Eg Rg].
  destruct (Hplane (2 * n)%nat ltac:(lia)) as [Er Rr].
  simpl in Eb, Rb. rewrite Eb, Eg, Er. repeat split; auto.
  simpl. intros Hne. destruct (Nat.eqb_spec n 0); [contradiction|reflexivity].
Qed.

(** X6.  The three planes have the same shape: a third of the rows (rounded
    down) and the full width. *)
Theorem split_image_shapes {A} (stacked_img : grid A) :
  rectangular stacked_img ->
  let '(b, g, r) := split_image stacked_img in
  shape g = shape b /\ shape r = shape b /\
  rectangular b /\ rectangular g /\ rectangular r /\
  fst (shape b) = (fst (shape stacked_img) / 3)%nat /\
  (fst (shape b) <> 0%nat -> snd (shape b) = snd (shape stacked_img)).
Proof. exact (split_image_same_shape stacked_img). Qed.

Lemma split_image_shapes_witness :
  rectangular sample_plate /\
  let '(b, g, r) := split_image sample_plate in
  shape g = shape b /\ shape r = shape b /\
  rectangular b /\ rectangular g /\ rectangular r /\
  fst (shape b) = (fst (shape sample_plate) / 3)%nat /\
  (fst (shape b) <> 0%nat -> snd (shape b) = snd (shape sample_plate)).
Proof.
  assert (Hr : rectangular sample_plate) by (vm_compute; repeat constructor).
  split; [exact Hr|].
  exact (split_image_shapes sample_plate Hr).
Defined.

(** X7.  Split keeps the rows in order and drops, at the bottom, the fewer than
    three rows that do not fill a plane. *)
Theorem split_image_rows {A} (stacked_img : grid A) :
  let '(b, g, r) := split_image stacked_img in
  exists rest,
    stacked_img = (b ++ g ++ r ++ rest)%list /\
    length rest = (length stacked_img mod 3)%nat.
Proof.
  rewrite split_image_planes. set (n := (length stacked_img / 3)%nat).
  exists (skipn (3 * n) stacked_img). split.
  - assert (Hjoin : forall k, (firstn n (skipn k stacked_img)
                                ++ skipn (n + k) stacked_img)%list
                              = skipn k stacked_img).
    { intros k. rewrite <- skipn_skipn. apply firstn_skipn. }
    replace (3 * n)%nat with (n + 2 * n)%nat by lia. rewrite Hjoin.
    replace (2 * n)%nat with (n + n)%nat by lia. rewrite Hjoin.
    symmetry. apply firstn_skipn.
  - rewrite length_skipn. unfold n.
    pose proof (Nat.div_mod_eq (length stacked_img) 3). lia.
Qed.

(** X8.  Stacking three planes of equal height and splitting the stack gives
    the planes back. *)
Theorem split_image_stack {A} (b g r : grid A) :
  length g = length b -> length r = length b ->
  split_image (b ++ g ++ r) = (b, g, r).
Proof.
  intros Hg Hr. rewrite split_image_planes.
  assert (En : ((length (b ++ g ++ r)) / 3 = length b)%nat).
  { rewrite !length_app, Hg, Hr.
    replace (length b + (length b + length b))%nat with (length b * 3)%nat by lia.
    apply Nat.div_mul. lia. }
  rewrite En.
  assert (H1 : firstn (length b) (b ++ g ++ r) = b).
  { rewrite firstn_app, Nat.sub_diag, firstn_all. simpl. apply app_nil_r. }
  assert (H2 : skipn (length b) (b ++ g ++ r) = (g ++ r)%list).
  { rewrite skipn_app, Nat.sub_diag, skipn_all. reflexivity. }
  assert (H3 : firstn (length b) (g ++ r) = g).
  { rewrite <- Hg, firstn_app, Nat.sub_diag, firstn_all. simpl. apply app_nil_r. }
  assert (H4 : skipn (2 * length b) (b ++ g ++ r) = r).
  { replace (2 * length b)%nat with (length g + length b)%nat by lia.
    rewrite <- skipn_skipn, H2, skipn_app, Nat.sub_diag, skipn_all. reflexivity. }
  rewrite H1, H2, H3, H4. rewrite <- Hr, firstn_all. reflexivity.
Qed.

Lemma split_image_stack_witness :
  length flat_grid = length small_ref /\
  length periodic_grid = length sample_grid4 /\
  split_image (small_ref ++ flat_grid ++ small_ref) = (small_ref, flat_grid, small_ref) /\
  split_image (sample_grid4 ++ periodic_grid ++ periodic_grid)
    = (sample_grid4, periodic_grid, periodic_grid).
Proof.
  split; [reflexivity|]. split; [reflexivity|]. split.
  - exact (split_image_stack small_ref flat_grid small_ref eq_refl eq_refl).
  - exact (split_image_stack sample_grid4 periodic_grid periodic_grid
             eq_refl eq_refl).
Defined.

(** ** The levels of the pyramid *)

(** X9.  [g[::2, ::2]] keeps every other row and column, the first included:
    the sizes are halved and rounded up. *)
Theorem downsample_shape {A} (g : grid A) :
  rectangular g ->
  shape (downsample g) =
    (((fst (shape g) + 1) / 2)%nat, ((snd (shape g) + 1) / 2)%nat) /\
  rectangular (downsample g).
Proof. exact (downsample_rows g). Qed.

Lemma downsample_shape_witness :
  rectangular sample_grid /\
  shape (downsample sample_grid) =
    (((fst (shape sample_grid) + 1) / 2)%nat,
     ((snd (shape sample_grid) + 1) / 2)%nat) /\
  rectangular (downsample sample_grid).
Proof.
  assert (Hr : rectangular sample_grid) by (vm_compute; repeat constructor).
  split; [exact Hr|].
  exact (downsample_shape sample_grid Hr).
Defined.

(** X10.  [pyramid_align] always builds [max(1, levels)] levels, however small
    the grid: level [k] is rectangular with the sizes of the input divided
    by [2^k] and rounded up. *)
Theorem pyramid_levels {A} (g : grid A) (levels : Z) :
  rectangular g ->
  let refs := build_pyramid (extra_levels levels) g in
  length refs = Z.to_nat (Z.max 1 levels) /\
  forall k, (k < length refs)%nat ->
    rectangular (nth k refs []) /\
    shape (nth k refs []) =
      (((fst (shape g) + 2 ^ k - 1) / 2 ^ k)%nat,
       ((snd (shape g) + 2 ^ k - 1) / 2 ^ k)%nat).
Proof. exact (build_pyramid_shapes g levels). Qed.

Lemma pyramid_levels_witness :
  rectangular sample_grid /\
  let refs := build_pyramid (extra_levels 3) sample_grid in
  length refs = Z.to_nat (Z.max 1 3) /\
  forall k, (k < length refs)%nat ->
    rectangular (nth k refs []) /\
    shape (nth k refs []) =
      (((fst (shape sample_grid) + 2 ^ k - 1) / 2 ^ k)%nat,
       ((snd (shape sample_grid) + 2 ^ k - 1) / 2 ^ k)%nat).
Proof.
  assert (Hr : rectangular sample_grid) by (vm_compute; repeat constructor).
  split; [exact Hr|].
  exact (pyramid_levels sample_grid 3 Hr).
Defined.

(** ** [pyramid_align] *)

Section Pyramid.
Context {A : Type} `{Dtype A} `{Reduction}.

(** The best displacement of a search loop lies in the window, or is the
    initial [(0, 0)]. *)
Lemma search_loop_reach (use_ncc : bool) (ref_crop target : grid A)
    (h w ch cw search : Z) (st : search_state) :
  for_each (search_body use_ncc ref_crop target h w ch cw)
    (candidates search) (search_init use_ncc) = Ok st ->
  Z.abs (fst (snd st)) <= Z.max search 0 /\
  Z.abs (snd (snd st)) <= Z.max search 0.
Proof.
  intros E.
  rewrite (for_each_ext _ _ _ _ (search_body_scan _ _ _ _ _ _ _)) in E.
  destruct (scan_progress _ _ _ _ (better_score_trans use_ncc) _ _ _ E)
    as [->|(Hin & _)].
  - destruct use_ncc; simpl; lia.
  - apply in_candidates in Hin. destruct Hin as [Hx Hy]. lia.
Qed.

Lemma level_step_reach (refs tars : list (grid A)) (use_ncc : bool)
    (edge_crop : spec_float) (search : Z) (acc res : Z * Z) (lvl : nat) :
  level_step refs tars use_ncc edge_crop search acc lvl = Ok res ->
  exists d : Z * Z,
    Z.abs (fst d) <= Z.max search 0 /\ Z.abs (snd d) <= Z.max search 0 /\
    res = if (lvl =? 0)%nat then (fst acc + fst d, snd acc + snd d)
          else ((fst acc + fst d) * 2, (snd acc + snd d) * 2).
Proof.
  unfold level_step. destruct acc as [ax ay].
  destruct (shape (nth lvl refs [])) as [h w].
  intros E. apply bind_Ok in E. destruct E as (ch & _ & E).
  apply bind_Ok in E. destruct E as (cw & _ & E).
  apply bind_Ok in E. destruct E as (st & Est & E).
  apply search_loop_reach in Est. destruct st as [bs [bx by_]]. simpl in *.
  exists (bx, by_). simpl. repeat split; try tauto.
  destruct (lvl =? 0)%nat; congruence.
Qed.

(** How far [n] levels can move the accumulator. *)
Lemma levels_reach (refs tars : list (grid A)) (base_search refine_search : Z)
    (use_ncc : bool) (edge_crop : spec_float) (n : nat) (acc res : Z * Z) :
  for_each (level_body refs tars base_search refine_search use_ncc edge_crop)
    (rev (seq 0 (S n))) acc = Ok res ->
  let b := Z.max base_search 0 in
  let r := Z.max refine_search 0 in
  Z.abs (fst res) <= 2 ^ Z.of_nat n * Z.abs (fst acc)
                     + r * (2 ^ Z.of_nat (S n) - 2) + b /\
  Z.abs (snd res) <= 2 ^ Z.of_nat n * Z.abs (snd acc)
                     + r * (2 ^ Z.of_nat (S n) - 2) + b.
Proof.
  intros E b r. revert acc E. induction n as [|n IH]; intros acc E.
  - simpl in E. apply bind_Ok in E. destruct E as (res' & E & E').
    injection E' as <-. unfold level_body in E.
    apply level_step_reach in E. destruct E as (d & Hx & Hy & ->).
    unfold level_search in *. simpl Nat.eqb in *. cbv iota in *.
    fold b in Hx, Hy. change (2 ^ Z.of_nat 0) with 1.
    change (2 ^ Z.of_nat 1) with 2. simpl fst. simpl snd. lia.
  - rewrite seq_S, rev_app_distr in E. simpl app in E. simpl rev in E.
    change (for_each ?f (?x :: ?l) ?a) with (bind (f a x) (for_each f l)) in E.
    apply bind_Ok in E. destruct E as (acc' & E & E').
    unfold level_body in E. apply level_step_reach in E.
    destruct E as (d & Hx & Hy & ->).
    apply IH in E'. clear IH. unfold level_search in *. simpl Nat.eqb in *.
    cbv iota in *. fold r in Hx, Hy. simpl fst in E'. simpl snd in E'.
    assert (Hp : 0 < 2 ^ Z.of_nat n) by (apply Z.pow_pos_nonneg; lia).
    assert (E1 : 2 ^ Z.of_nat (S n) = 2 * 2 ^ Z.of_nat n)
      by (rewrite Nat2Z.inj_succ, Z.pow_succ_r by lia; reflexivity).
    assert (E2 : 2 ^ Z.of_nat (S (S n)) = 4 * 2 ^ Z.of_nat n)
      by (rewrite !Nat2Z.inj_succ, !Z.pow_succ_r by lia; lia).
    rewrite E1 in *. rewrite E2.
    assert (Ha : forall a d0, Z.abs d0 <= r ->
              Z.abs ((a + d0) * 2) <= 2 * Z.abs a + 2 * r) by (intros; lia).
    pose proof (Ha (fst acc) (fst d) Hx). pose proof (Ha (snd acc) (snd d) Hy).
    destruct E' as [Ex Ey]. split; nia.
Qed.

Lemma pyramid_align_bound (reference target : grid A)
    (levels base_search refine_search : Z) (metric : string)
    (edge_crop : spec_float) (dx dy : Z) :
  pyramid_align reference target levels base_search refine_search metric edge_crop
    = Ok (dx, dy) ->
  let bound := Z.max base_search 0
               + Z.max refine_search 0 * (2 ^ Z.max 1 levels - 2) in
  Z.abs dx <= bound /\ Z.abs dy <= bound.
Proof.
  unfold pyramid_align, level_order. rewrite length_build_pyramid. intros E.
  apply levels_reach in E. cbn [fst snd] in E.
  change (Z.abs 0) with 0 in E. rewrite Z.mul_0_r in E.
  replace (Z.of_nat (S (extra_levels levels))) with (Z.max 1 levels) in E
    by (unfold extra_levels; lia).
  cbv zeta. lia.
Qed.

(** X11.  The displacement of a pyramid search is within
    [base_search + refine_search * (2^L - 2)] of zero on both axes, for
    [L = max(1, levels)] levels (negative radii count as 0). *)
Theorem pyramid_align_reach (reference target : grid A)
    (levels base_search refine_search : Z) (metric : string)
    (edge_crop : spec_float) (dx dy : Z) :
  pyramid_align reference target levels base_search refine_search metric edge_crop
    = Ok (dx, dy) ->
  let bound := Z.max base_search 0
               + Z.max refine_search 0 * (2 ^ Z.max 1 levels - 2) in
  Z.abs dx <= bound /\ Z.abs dy <= bound.
Proof. exact (pyramid_align_bound reference target levels _ _ metric edge_crop dx dy). Qed.

(** X12.  With one level (any [levels <= 1]) the pyramid search is the exhaustive
    search of radius [base_search], without the score. *)
Theorem pyramid_align_single_level (reference target : grid A)
    (levels base_search refine_search : Z) (metric : string)
    (edge_crop : spec_float) :
  levels <= 1 ->
  pyramid_align reference target levels base_search refine_search metric edge_crop =
  (res <- align_bruteforce reference target base_search metric edge_crop ;;
   Ok (fst (fst res), snd (fst res))).
Proof.
  intros HL. unfold pyramid_align, level_order, extra_levels.
  replace (Z.to_nat (Z.max 1 levels - 1)) with 0%nat by lia.
  cbn [build_pyramid length seq rev app for_each nth].
  unfold level_body, level_step, align_bruteforce, level_search.
  cbn [nth Nat.eqb]. rewrite np_roll_0. destruct (shape reference) as [h w].
  destruct (crop_margin (Z.of_nat h) edge_crop) as [ch|]; [|reflexivity].
  destruct (crop_margin (Z.of_nat w) edge_crop) as [cw|]; [|reflexivity].
  cbn [bind].
  destruct (for_each _ _ _) as [[bs [bx by_]]|]; reflexivity.
Qed.

End Pyramid.

Lemma pyramid_align_reach_witness :
  pyramid_align sample_grid4 (apply_alignment sample_grid4 1 0) 2 1 1 "ssd" no_crop
    = Ok (-1, 0) /\
  Z.abs (-1) <= 3 /\ Z.abs 0 <= 3.
Proof.
  assert (E : pyramid_align sample_grid4 (apply_alignment sample_grid4 1 0)
                2 1 1 "ssd" no_crop = Ok (-1, 0)) by (vm_compute; reflexivity).
  split; [exact E|].
  exact (pyramid_align_reach sample_grid4 (apply_alignment sample_grid4 1 0)
           2 1 1 "ssd" no_crop (-1) 0 E).
Defined.

Lemma pyramid_align_single_level_witness :
  0 <= 1 /\
  pyramid_align sample_grid (apply_alignment sample_grid 1 0) 0 1 7 "ncc" no_crop =
  (res <- align_bruteforce sample_grid (apply_alignment sample_grid 1 0) 1
            "ncc" no_crop ;;
   Ok (fst (fst res), snd (fst res))).
Proof.
  assert (HL : 0 <= 1) by lia.
  split; [exact HL|].
  exact (pyramid_align_single_level sample_grid (apply_alignment sample_grid 1 0)
           0 1 7 "ncc" no_crop HL).
Defined.

Section PyramidReturns.
Context {A : Type} `{Dtype A} `{Reduction}.

(** X13.  On rectangular planes, the target at least as large as the reference,
    the pyramid search returns a displacement as soon as the crop margins
    of every level are defined: no level raises. *)
Theorem pyramid_align_returns (reference target : grid A) (levels : Z)
    (base_search refine_search : Z) (metric : string) (edge_crop : spec_float) :
  rectangular reference -> rectangular target ->
  (fst (shape reference) <= fst (shape target))%nat ->
  (snd (shape reference) <= snd (shape target))%nat ->
  (forall k, (k < Z.to_nat (Z.max 1 levels))%nat ->
     margin_defined
       (Z.of_nat ((fst (shape reference) + 2 ^ k - 1) / 2 ^ k)) edge_crop = true /\
     margin_defined
       (Z.of_nat ((snd (shape reference) + 2 ^ k - 1) / 2 ^ k)) edge_crop = true) ->
  exists dx dy,
    pyramid_align reference target levels base_search refine_search metric edge_crop
      = Ok (dx, dy).
Proof.
  exact (pyramid_align_total reference target levels base_search refine_search
           metric edge_crop).
Qed.

End PyramidReturns.

Lemma pyramid_align_returns_witness :
  rectangular sample_grid4 /\ rectangular periodic_grid /\
  exists dx dy,
    pyramid_align sample_grid4 periodic_grid 2 4 2 "ncc" default_crop = Ok (dx, dy).
Proof.
  assert (H1 : rectangular sample_grid4) by (vm_compute; repeat constructor).
  assert (H2 : rectangular periodic_grid) by (vm_compute; repeat constructor).
  split; [exact H1|]. split; [exact H2|].
  apply (pyramid_align_returns sample_grid4 periodic_grid 2 4 2 "ncc" default_crop
           H1 H2).
  - vm_compute. lia.
  - vm_compute. lia.
  - intros k Hk.
    destruct k as [|[|k]]; [split; vm_compute; reflexivity ..|].
    exfalso. revert Hk. vm_compute. lia.
Defined.

(** ** The metrics do not depend on the order of their arguments *)

Lemma mul_comm (x y : spec_float) : F32.mul x y = F32.mul y x.
Proof.
  unfold F32.mul, SFmul.
  destruct x as [sx|sx| |sx mx ex], y as [sy|sy| |sy my ey];
    rewrite ?(xorb_comm sy sx); try reflexivity.
  rewrite (Pos.mul_comm my mx), (Z.add_comm ey ex). reflexivity.
Qed.

Lemma binary_round_aux_square (s s' : bool) (m e : Z) :
  F32.mul (binary_round_aux F32.prec F32.emax s m e loc_Exact)
          (binary_round_aux F32.prec F32.emax s m e loc_Exact) =
  F32.mul (binary_round_aux F32.prec F32.emax s' m e loc_Exact)
          (binary_round_aux F32.prec F32.emax s' m e loc_Exact).
Proof.
  unfold binary_round_aux.
  destruct (shr_fexp _ _ _ _ _) as [mrs e1].
  destruct (shr_fexp _ _ _ _ _) as [mrs' e2].
  destruct (shr_m mrs') as [|p|p]; [| |reflexivity].
  - unfold F32.mul, SFmul. rewrite !xorb_nilpotent. reflexivity.
  - destruct (e2 <=? F32.emax - F32.prec);
      unfold F32.mul, SFmul; rewrite !xorb_nilpotent; reflexivity.
Qed.

Lemma binary_round_square (s s' : bool) (m : positive) (e : Z) :
  F32.mul (binary_round F32.prec F32.emax s m e)
          (binary_round F32.prec F32.emax s m e) =
  F32.mul (binary_round F32.prec F32.emax s' m e)
          (binary_round F32.prec F32.emax s' m e).
Proof.
  unfold binary_round. destruct (shl_align _ _ _) as [mz ez].
  apply binary_round_aux_square.
Qed.

(** [(x - y)²] and [(y - x)²] are the same float, also when the difference
    is rounded, infinite or not a number. *)
Lemma sub_swap_square (x y : spec_float) :
  F32.mul (F32.sub x y) (F32.sub x y) = F32.mul (F32.sub y x) (F32.sub y x).
Proof.
  destruct x as [sx|sx| |sx mx ex], y as [sy|sy| |sy my ey];
    try reflexivity;
    try (destruct sx, sy; reflexivity);
    try (destruct sx; reflexivity);
    try (destruct sy; reflexivity).
  unfold F32.sub, SFsub. cbv zeta.
  change (IntDef.Z.min ey ex) with (Z.min ey ex).
  change (IntDef.Z.min ex ey) with (Z.min ex ey).
  rewrite (Z.min_comm ey ex).
  set (ez := Z.min ex ey).
  set (a := cond_Zopp sx (Zpos (fst (shl_align mx ex ez)))).
  set (b := cond_Zopp sy (Zpos (fst (shl_align my ey ez)))).
  replace (b - a) with (- (a - b)) by lia. unfold binary_normalize.
  destruct (a - b) as [|p|p]; simpl Z.opp;
    [reflexivity| |]; apply binary_round_square.
Qed.

Lemma stretch_map {A B} (f : A -> B) (n : nat) (l : list A) :
  stretch n (map f l) = map f (stretch n l).
Proof.
  destruct l as [|x [|y l]]; try reflexivity.
  simpl. rewrite map_repeat. reflexivity.
Qed.

Lemma map2_swap {A B C} (f : A -> B -> C) (l1 : list A) (l2 : list B) :
  map2 f l1 l2 = map2 (fun y x => f x y) l2 l1.
Proof.
  unfold map2. revert l2. induction l1 as [|x l1 IH]; intros [|y l2]; simpl;
    try reflexivity.
  f_equal. apply IH.
Qed.

Lemma map2_ext {A B C} (f g : A -> B -> C) (l1 : list A) (l2 : list B) :
  (forall x y, f x y = g x y) -> map2 f l1 l2 = map2 g l1 l2.
Proof. intros E. unfold map2. apply map_ext. intros p. apply E. Qed.

Lemma map2_diag {A C} (f : A -> A -> C) (l : list A) :
  map2 f l l = map (fun x => f x x) l.
Proof. unfold map2. induction l as [|x l IH]; simpl; [|rewrite IH]; reflexivity. Qed.

Lemma broadcastable_comm (n m : nat) : broadcastable n m = broadcastable m n.
Proof.
  unfold broadcastable. rewrite (Nat.eqb_sym n m).
  destruct (m =? n)%nat, (n =? 1)%nat, (m =? 1)%nat; reflexivity.
Qed.

Lemma broadcast_len_comm (n m : nat) :
  broadcastable n m = true -> broadcast_len n m = broadcast_len m n.
Proof.
  unfold broadcastable, broadcast_len. intros Hb.
  destruct (Nat.eqb_spec n 1), (Nat.eqb_spec m 1); try congruence.
  destruct (Nat.eqb_spec n m); [assumption|discriminate].
Qed.

(** [a op b] is [b op' a] for the operation [op'] with its arguments
    exchanged: broadcasting does not depend on the side. *)
Lemma np_binop_swap op (a b : grid spec_float) :
  np_binop op a b = np_binop (fun y x => op x y) b a.
Proof.
  unfold np_binop. destruct (shape a) as [h1 w1], (shape b) as [h2 w2].
  rewrite (broadcastable_comm h2 h1), (broadcastable_comm w2 w1).
  destruct (broadcastable h1 h2) eqn:Eh; [|reflexivity].
  destruct (broadcastable w1 w2) eqn:Ew; [|reflexivity]. simpl.
  rewrite (broadcast_len_comm h2 h1), (broadcast_len_comm w2 w1)
    by (rewrite broadcastable_comm; assumption).
  f_equal. rewrite map2_swap. apply map2_ext. intros r2 r1. apply map2_swap.
Qed.

Lemma np_binop_ext op op' (a b : grid spec_float) :
  (forall x y, op x y = op' x y) -> np_binop op a b = np_binop op' a b.
Proof.
  intros E. unfold np_binop. destruct (shape a) as [h1 w1], (shape b) as [h2 w2].
  destruct (_ && _)%bool; [|reflexivity]. f_equal.
  apply map2_ext. intros r1 r2. apply map2_ext. exact E.
Qed.

(** The result of a binary operation is the operation mapped over a grid
    of pairs that only the operands determine. *)
Lemma np_binop_pairs (a b : grid spec_float) :
  (forall op, np_binop op a b = Raise ValueError) \/
  exists P : grid (spec_float * spec_float),
    forall op, np_binop op a b = Ok (map (map (fun p => op (fst p) (snd p))) P).
Proof.
  unfold np_binop. destruct (shape a) as [h1 w1], (shape b) as [h2 w2].
  destruct (_ && _)%bool; [right|left; reflexivity].
  exists (map (fun p => combine (stretch (broadcast_len w1 w2) (fst p))
                                (stretch (broadcast_len w1 w2) (snd p)))
              (combine (stretch (broadcast_len h1 h2) a)
                       (stretch (broadcast_len h1 h2) b))).
  intros op. unfold map2. rewrite map_map. reflexivity.
Qed.

(** An array combined with itself. *)
Lemma np_binop_self {X} op (u : X -> spec_float) (P : grid X) :
  np_binop op (map (map u) P) (map (map u) P) =
  Ok (map (map (fun p => op (u p) (u p)))
        (map (stretch (snd (shape P))) (stretch (fst (shape P)) P))).
Proof.
  unfold np_binop. rewrite shape_map. destruct (shape P) as [h w].
  unfold broadcastable. rewrite !Nat.eqb_refl. cbn [orb andb fst snd].
  assert (El : forall n, broadcast_len n n = n).
  { intros n. unfold broadcast_len. destruct (Nat.eqb_spec n 1); congruence. }
  rewrite !El. f_equal. rewrite map2_diag, stretch_map, !map_map.
  apply map_ext. intros r. rewrite map2_diag, stretch_map, map_map. reflexivity.
Qed.

Section MetricSymmetry.
Context {A : Type} `{Dtype A} `{Reduction}.

(** X14.  SSD does not depend on the order of its arguments: the same float,
    or the same exception, whatever the dtype, the shapes and the order in
    which [np.sum] adds. *)
Theorem ssd_metric_sym (a b : grid A) : ssd_metric a b = ssd_metric b a.
Proof.
  unfold ssd_metric. rewrite (np_binop_swap F32.sub (astype b) (astype a)).
  destruct (np_binop_pairs (astype a) (astype b)) as [E|[P E]].
  - rewrite !E. reflexivity.
  - rewrite !E. cbn [bind].
    rewrite (np_binop_self F32.mul (fun p => F32.sub (fst p) (snd p)) P).
    rewrite (np_binop_self F32.mul (fun p => F32.sub (snd p) (fst p)) P).
    cbn [bind]. do 2 f_equal. apply map_ext. intros r. apply map_ext. intros p.
    apply sub_swap_square.
Qed.

(** X15.  NCC does not depend on the order of its arguments either. *)
Theorem ncc_metric_sym (a b : grid A) : ncc_metric a b = ncc_metric b a.
Proof.
  unfold ncc_metric. cbv zeta.
  match goal with
  | |- _ = bind (np_binop F32.mul ?y ?x) _ =>
      rewrite (np_binop_swap F32.mul y x)
  end.
  match goal with
  | |- _ = bind (np_binop ?op ?x ?y) _ =>
      rewrite (np_binop_ext op F32.mul x y) by (intros; apply mul_comm)
  end.
  reflexivity.
Qed.
End MetricSymmetry.

(** ** [process_image] *)

Lemma candidates_empty (R : Z) : R < 0 -> candidates R = [].
Proof.
  intros HR. unfold candidates, py_range.
  replace (Z.to_nat (R + 1 - - R)) with 0%nat by lia. reflexivity.
Qed.

Section ProcessFacts.
Context {A : Type} `{Dtype A} `{Reduction}.

Lemma align_bruteforce_bound (reference target : grid A) (search_range : Z)
    (metric : string) (edge_crop : spec_float) (dx dy : Z) (best : spec_float) :
  align_bruteforce reference target search_range metric edge_crop
    = Ok (dx, dy, best) ->
  (Z.abs dx <= Z.max search_range 0 /\ Z.abs dy <= Z.max search_range 0) /\
  (search_range < 0 ->
   dx = 0 /\ dy = 0 /\ best = fst (search_init (uses_ncc metric))).
Proof.
  unfold align_bruteforce. destruct (shape reference) as [h w]. intros E.
  apply bind_Ok in E. destruct E as (ch & _ & E).
  apply bind_Ok in E. destruct E as (cw & _ & E).
  apply bind_Ok in E. destruct E as (st & Est & E).
  destruct st as [b [bx by']]. injection E as <- <- <-. split.
  - apply search_loop_reach in Est. exact Est.
  - intros HR. rewrite candidates_empty in Est by exact HR.
    injection Est as <- <- <-. auto.
Qed.

(** X16.  Whatever [align_bruteforce] returns lies within [search_range] of the
    origin; with a negative [search_range] no displacement is tried and
    the result is [(0, 0)] with the initial score, an infinity. *)
Theorem align_bruteforce_reach (reference target : grid A) (search_range : Z)
    (metric : string) (edge_crop : spec_float) (dx dy : Z) (best : spec_float) :
  align_bruteforce reference target search_range metric edge_crop
    = Ok (dx, dy, best) ->
  (Z.abs dx <= Z.max search_range 0 /\ Z.abs dy <= Z.max search_range 0) /\
  (search_range < 0 ->
   dx = 0 /\ dy = 0 /\ best = fst (search_init (uses_ncc metric))).
Proof.
  exact (align_bruteforce_bound reference target search_range metric edge_crop
           dx dy best).
Qed.

(** X17.  The score that [align_bruteforce] reports is the metric of the cropped
    reference and the cropped plane that [apply_alignment] builds from the
    reported shift, unless no candidate beat the initial score: then the
    result is the shift [(0, 0)] with that infinity. *)
Theorem align_bruteforce_reports (reference target : grid A) (search_range : Z)
    (metric : string) (edge_crop : spec_float) (dx dy : Z) (best : spec_float) :
  align_bruteforce reference target search_range metric edge_crop
    = Ok (dx, dy, best) ->
  let h := Z.of_nat (fst (shape reference)) in
  let w := Z.of_nat (snd (shape reference)) in
  (dx = 0 /\ dy = 0 /\ best = fst (search_init (uses_ncc metric))) \/
  (in_window search_range (dx, dy) /\
   better_score (uses_ncc metric) best (fst (search_init (uses_ncc metric))) = true /\
   exists ch cw,
     crop_margin h edge_crop = Ok ch /\ crop_margin w edge_crop = Ok cw /\
     (if uses_ncc metric then ncc_metric else ssd_metric)
       (crop h w ch cw reference)
       (crop h w ch cw (apply_alignment target dx dy)) = Ok best).
Proof.
  unfold align_bruteforce. destruct (shape reference) as [h0 w0].
  cbv zeta. cbn [fst snd]. intros E.
  apply bind_Ok in E. destruct E as (ch & Ech & E).
  apply bind_Ok in E. destruct E as (cw & Ecw & E).
  apply bind_Ok in E. destruct E as (st & Est & E).
  destruct st as [b [bx by']]. injection E as <- <- <-.
  rewrite (for_each_ext _ _ _ _ (search_body_scan _ _ _ _ _ _ _)) in Est.
  destruct (scan_progress _ _ _ _ (better_score_trans _) _ _ _ Est)
    as [E|(Hin & Hsc & Hb)].
  - left. fold (uses_ncc metric) in E. injection E as -> -> ->. auto.
  - right. cbn [fst snd] in Hin, Hsc, Hb. split; [apply in_candidates, Hin|].
    split; [exact Hb|]. exists ch, cw. split; [exact Ech|]. split; [exact Ecw|].
    unfold candidate_score in Hsc. cbn [fst snd] in Hsc. unfold apply_alignment.
    fold (uses_ncc metric) in Hsc. destruct (uses_ncc metric); exact Hsc.
Qed.

Lemma process_image_total (stacked : grid A) (metric : string) (use_pyramid : bool) :
  rectangular stacked ->
  let '(b, g, r) := split_image stacked in
  (forall k, (k < (if use_pyramid then 5 else 1))%nat ->
     margin_defined
       (Z.of_nat ((fst (shape b) + 2 ^ k - 1) / 2 ^ k)) default_crop = true /\
     margin_defined
       (Z.of_nat ((snd (shape b) + 2 ^ k - 1) / 2 ^ k)) default_crop = true) ->
  exists dx_g dy_g dx_r dy_r,
    process_image stacked metric use_pyramid =
      Ok (b, apply_alignment g dx_g dy_g, apply_alignment r dx_r dy_r,
          (dx_g, dy_g), (dx_r, dy_r)) /\
    (let bound := if use_pyramid then 64 else 15 in
     Z.abs dx_g <= bound /\ Z.abs dy_g <= bound /\
     Z.abs dx_r <= bound /\ Z.abs dy_r <= bound) /\
    shape (apply_alignment g dx_g dy_g) = shape b /\
    shape (apply_alignment r dx_r dy_r) = shape b.
Proof.
  intros Hr. pose proof (split_image_same_shape stacked Hr) as Hs.
  unfold process_image.
  destruct (split_image stacked) as [[b g] r].
  destruct Hs as (Eg & Er & Rb & Rg & Rr & _). intros Hm.
  assert (Fg : (fst (shape b) <= fst (shape g))%nat /\
               (snd (shape b) <= snd (shape g))%nat) by (rewrite Eg; lia).
  assert (Fr : (fst (shape b) <= fst (shape r))%nat /\
               (snd (shape b) <= snd (shape r))%nat) by (rewrite Er; lia).
  assert (Hshape : forall dxg dyg dxr dyr,
            shape (apply_alignment g dxg dyg) = shape b /\
            shape (apply_alignment r dxr dyr) = shape b).
  { intros. unfold apply_alignment.
    destruct (shape_np_roll g dyg dxg Rg) as [-> _].
    destruct (shape_np_roll r dyr dxr Rr) as [-> _]. auto. }
  destruct use_pyramid.
  - assert (Hm' : forall k, (k < Z.to_nat (Z.max 1 5))%nat ->
       margin_defined
         (Z.of_nat ((fst (shape b) + 2 ^ k - 1) / 2 ^ k)) default_crop = true /\
       margin_defined
         (Z.of_nat ((snd (shape b) + 2 ^ k - 1) / 2 ^ k)) default_crop = true)
      by (intros k Hk; apply Hm; lia).
    destruct (pyramid_align_total b g 5 4 2 (metric_name metric) default_crop
                Rb Rg (proj1 Fg) (proj2 Fg) Hm') as (dxg & dyg & E1).
    destruct (pyramid_align_total b r 5 4 2 (metric_name metric) default_crop
                Rb Rr (proj1 Fr) (proj2 Fr) Hm') as (dxr & dyr & E2).
    rewrite E1, E2. cbn [bind]. exists dxg, dyg, dxr, dyr.
    split; [reflexivity|]. split; [|apply Hshape].
    apply pyramid_align_bound in E1. apply pyramid_align_bound in E2.
    cbv zeta in *.
    change (Z.max 4 0 + Z.max 2 0 * (2 ^ Z.max 1 5 - 2)) with 64 in E1, E2.
    tauto.
  - destruct (Hm 0%nat ltac:(lia)) as [Mh Mw].
    change (2 ^ 0)%nat with 1%nat in Mh, Mw.
    rewrite Nat.div_1_r, Nat.add_sub in Mh, Mw.
    destruct (align_bruteforce_run b g (metric_name metric) default_crop
                Rb Rg (proj1 Fg) (proj2 Fg) Mh Mw 15) as (_ & stg & _ & E1).
    destruct (align_bruteforce_run b r (metric_name metric) default_crop
                Rb Rr (proj1 Fr) (proj2 Fr) Mh Mw 15) as (_ & str & _ & E2).
    rewrite E1, E2. cbn [bind fst snd].
    exists (fst (snd stg)), (snd (snd stg)), (fst (snd str)), (snd (snd str)).
    split; [reflexivity|]. split; [|apply Hshape].
    apply align_bruteforce_bound in E1. apply align_bruteforce_bound in E2.
    cbv zeta. change (Z.max 15 0) with 15 in E1, E2. tauto.
Qed.

(** X18.  The planes that [process_image] hands on: on a rectangular plate whose
    crop margins are defined, the alignment never raises, the shifts stay
    within 15 pixels (64 with the pyramid), and the shifted green and red
    planes have the shape of the blue one. *)
Theorem process_image_returns (stacked : grid A) (metric : string)
    (use_pyramid : bool) :
  rectangular stacked ->
  let '(b, g, r) := split_image stacked in
  (forall k, (k < (if use_pyramid then 5 else 1))%nat ->
     margin_defined
       (Z.of_nat ((fst (shape b) + 2 ^ k - 1) / 2 ^ k)) default_crop = true /\
     margin_defined
       (Z.of_nat ((snd (shape b) + 2 ^ k - 1) / 2 ^ k)) default_crop = true) ->
  exists dx_g dy_g dx_r dy_r,
    process_image stacked metric use_pyramid =
      Ok (b, apply_alignment g dx_g dy_g, apply_alignment r dx_r dy_r,
          (dx_g, dy_g), (dx_r, dy_r)) /\
    (let bound := if use_pyramid then 64 else 15 in
     Z.abs dx_g <= bound /\ Z.abs dy_g <= bound /\
     Z.abs dx_r <= bound /\ Z.abs dy_r <= bound) /\
    shape (apply_alignment g dx_g dy_g) = shape b /\
    shape (apply_alignment r dx_r dy_r) = shape b.
Proof. exact (process_image_total stacked metric use_pyramid). Qed.
End ProcessFacts.

Lemma align_bruteforce_reach_witness :
  align_bruteforce sample_grid sample_grid (-1) "ncc" no_crop = Ok (0, 0, neg_inf) /\
  (Z.abs 0 <= Z.max (-1) 0 /\ Z.abs 0 <= Z.max (-1) 0) /\
  (-1 < 0 -> 0 = 0 /\ 0 = 0 /\ neg_inf = fst (search_init (uses_ncc "ncc"))).
Proof.
  assert (E : align_bruteforce sample_grid sample_grid (-1) "ncc" no_crop
              = Ok (0, 0, neg_inf)) by (vm_compute; reflexivity).
  split; [exact E|].
  exact (align_bruteforce_reach sample_grid sample_grid (-1) "ncc" no_crop
           0 0 neg_inf E).
Defined.

Lemma align_bruteforce_reports_witness :
  align_bruteforce sample_grid (apply_alignment sample_grid 1 0) 1 "ssd" no_crop
    = Ok (-1, 0, S754_zero false) /\
  let h := Z.of_nat (fst (shape sample_grid)) in
  let w := Z.of_nat (snd (shape sample_grid)) in
  (-1 = 0 /\ 0 = 0 /\ S754_zero false = fst (search_init (uses_ncc "ssd"))) \/
  (in_window 1 (-1, 0) /\
   better_score (uses_ncc "ssd") (S754_zero false)
     (fst (search_init (uses_ncc "ssd"))) = true /\
   exists ch cw,
     crop_margin h no_crop = Ok ch /\ crop_margin w no_crop = Ok cw /\
     (if uses_ncc "ssd" then ncc_metric else ssd_metric)
       (crop h w ch cw sample_grid)
       (crop h w ch cw
          (apply_alignment (apply_alignment sample_grid 1 0) (-1) 0))
       = Ok (S754_zero false)).
Proof.
  assert (E : align_bruteforce sample_grid (apply_alignment sample_grid 1 0) 1
                "ssd" no_crop = Ok (-1, 0, S754_zero false))
    by (vm_compute; reflexivity).
  split; [exact E|].
  exact (align_bruteforce_reports sample_grid (apply_alignment sample_grid 1 0) 1
           "ssd" no_crop (-1) 0 (S754_zero false) E).
Defined.

Lemma process_image_returns_witness :
  rectangular sample_plate /\
  let '(b, g, r) := split_image sample_plate in
  exists dx_g dy_g dx_r dy_r,
    process_image sample_plate "NCC" false =
      Ok (b, apply_alignment g dx_g dy_g, apply_alignment r dx_r dy_r,
          (dx_g, dy_g), (dx_r, dy_r)) /\
    (let bound := 15 in
     Z.abs dx_g <= bound /\ Z.abs dy_g <= bound /\
     Z.abs dx_r <= bound /\ Z.abs dy_r <= bound) /\
    shape (apply_alignment g dx_g dy_g) = shape b /\
    shape (apply_alignment r dx_r dy_r) = shape b.
Proof.
  assert (Hr : rectangular sample_plate) by (vm_compute; repeat constructor).
  split; [exact Hr|].
  apply (process_image_returns sample_plate "NCC" false Hr).
  intros k Hk. destruct k as [|k]; [split; vm_compute; reflexivity|].
  exfalso. lia.
Defined.


(** X19.  Through [process_image] a metric name selects SSD only if it is a
    spelling of ["ssd"]; every other name, known or not, selects NCC. *)
Theorem metric_name_resolved (metric : string) :
  (metric_name metric = "ssd"%string \/ metric_name metric = "ncc"%string) /\
  uses_ncc (metric_name metric) = negb (String.eqb (lower metric) "ssd").
Proof.
  unfold metric_name. cbv zeta.
  destruct (String.eqb_spec (lower metric) "ssd") as [->|Hs].
  - split; [left|]; reflexivity.
  - destruct (String.eqb_spec (lower metric) "ncc") as [->|Hn];
      (split; [right|]; reflexivity).
Qed.

(** ** [auto_crop] *)

Lemma in_py_range_down (a b x : Z) : In x (py_range_down a b) <-> b < x <= a.
Proof.
  unfold py_range_down. rewrite in_map_iff. split.
  - intros (i & <- & Hi). apply in_seq in Hi. lia.
  - intros Hx. exists (Z.to_nat (a - x)). split; [lia|]. apply in_seq. lia.
Qed.

Lemma py_range_down_cons (a b : Z) :
  b < a -> py_range_down a b = a :: py_range_down (a - 1) b.
Proof.
  intros Hab. unfold py_range_down.
  replace (Z.to_nat (a - b)) with (S (Z.to_nat (a - 1 - b))) by lia.
  simpl. f_equal; [lia|].
  rewrite <- seq_shift, map_map. apply map_ext. intros i. lia.
Qed.

Lemma first_bright_cases (bright : Z -> bool) (l : list Z) (x : Z) :
  (first_bright bright l x = x /\ forall i, In i l -> bright i = false) \/
  (In (first_bright bright l x) l /\ bright (first_bright bright l x) = true).
Proof.
  unfold first_bright. destruct (find bright l) as [i|] eqn:E.
  - right. apply find_some in E. exact E.
  - left. split; [reflexivity|]. intros i Hi. exact (find_none _ _ E i Hi).
Qed.

(** The first index of the scan is found at once when it is bright. *)
Lemma first_bright_head (bright : Z -> bool) (l : list Z) (x : Z) :
  bright x = true -> l = [] \/ hd x l = x -> first_bright bright l x = x.
Proof.
  intros Hb [->|Hh]; [reflexivity|]. destruct l as [|y l]; [reflexivity|].
  simpl in Hh. subst y. unfold first_bright. simpl. rewrite Hb. reflexivity.
Qed.

Lemma first_bright_none (bright : Z -> bool) (l : list Z) (x : Z) :
  (forall i, In i l -> bright i = false) -> first_bright bright l x = x.
Proof.
  intros Hd. destruct (first_bright_cases bright l x) as [[E _]|[Hin Hb]];
    [exact E|]. rewrite (Hd _ Hin) in Hb. discriminate.
Qed.

Lemma py_range_head (n x : Z) : py_range 0 n = [] \/ hd x (py_range 0 n) = 0.
Proof.
  destruct (Z_lt_le_dec 0 n) as [Hn|Hn].
  - right. rewrite py_range_cons by exact Hn. reflexivity.
  - left. apply py_range_nil. exact Hn.
Qed.

Lemma py_range_down_head (a b x : Z) :
  py_range_down a b = [] \/ hd x (py_range_down a b) = a.
Proof.
  destruct (Z_lt_le_dec b a) as [Hn|Hn].
  - right. rewrite py_range_down_cons by exact Hn. reflexivity.
  - left. unfold py_range_down. replace (Z.to_nat (a - b)) with 0%nat by lia.
    reflexivity.
Qed.

Section AutoCropFacts.
Context {P : Type}.
Variables row_mean col_mean : Z -> spec_float.
Variable thresh : spec_float.
Variable max_crop : Z.

(** Where the scan from the low edge of an axis of length [n] stops. *)
Lemma low_scan_range (mean : Z -> spec_float) (n : Z) :
  let x := first_bright (fun i => SFltb thresh (mean i))
             (py_range 0 (Z.min max_crop (n / 3))) 0 in
  0 <= x /\ (x = 0 \/ (x < max_crop /\ x < n / 3)).
Proof.
  intros x.
  destruct (first_bright_cases (fun i => SFltb thresh (mean i))
              (py_range 0 (Z.min max_crop (n / 3))) 0) as [[E _]|[Hin _]];
    fold x in E || fold x in Hin.
  - lia.
  - apply in_py_range in Hin. lia.
Qed.

(** Where the scan from the high edge stops. *)
Lemma high_scan_range (mean : Z -> spec_float) (n : Z) :
  let x := first_bright (fun i => SFltb thresh (mean i))
             (py_range_down (n - 1) (Z.max (n - 1 - max_crop) (n * 2 / 3)))
             (n - 1) in
  x <= n - 1 /\ (x = n - 1 \/ (n - 1 - max_crop < x /\ n * 2 / 3 < x)).
Proof.
  intros x.
  destruct (first_bright_cases (fun i => SFltb thresh (mean i))
              (py_range_down (n - 1) (Z.max (n - 1 - max_crop) (n * 2 / 3)))
              (n - 1)) as [[E _]|[Hin _]];
    fold x in E || fold x in Hin.
  - lia.
  - apply in_py_range_down in Hin. lia.
Qed.

Lemma auto_crop_cases (img_rgb : grid P) :
  let h := Z.of_nat (fst (shape img_rgb)) in
  let w := Z.of_nat (snd (shape img_rgb)) in
  let '(cropped, (top, bottom, left_, right_)) :=
    auto_crop row_mean col_mean img_rgb thresh max_crop in
  (cropped = img_rgb /\ (top, bottom, left_, right_) = (0, h - 1, 0, w - 1)) \/
  (cropped = map (py_slice left_ (right_ + 1)) (py_slice top (bottom + 1) img_rgb) /\
   (2 <= top < bottom /\ bottom <= h - 3) /\
   (2 <= left_ < right_ /\ right_ <= w - 3) /\
   (top <= Z.max 1 max_crop + 1 /\ h - 2 - Z.max 1 max_crop <= bottom) /\
   (left_ <= Z.max 1 max_crop + 1 /\ w - 2 - Z.max 1 max_crop <= right_) /\
   (top <= h / 3 + 1 /\ h * 2 / 3 - 1 <= bottom) /\
   (left_ <= w / 3 + 1 /\ w * 2 / 3 - 1 <= right_)).
Proof.
  intros h w. unfold auto_crop.
  destruct (shape img_rgb) as [h0 w0] eqn:Es. cbn [fst snd] in h, w.
  fold h w. cbv zeta.
  pose proof (low_scan_range row_mean h) as Ht.
  pose proof (high_scan_range row_mean h) as Hb.
  pose proof (low_scan_range col_mean w) as Hl.
  pose proof (high_scan_range col_mean w) as Hr.
  cbv zeta in Ht, Hb, Hl, Hr.
  set (t := first_bright _ (py_range 0 (Z.min max_crop (h / 3))) 0) in *.
  set (b := first_bright _ (py_range_down (h - 1) _) (h - 1)) in *.
  set (l := first_bright _ (py_range 0 (Z.min max_crop (w / 3))) 0) in *.
  set (r := first_bright _ (py_range_down (w - 1) _) (w - 1)) in *.
  assert (Hh3 : 3 * (h / 3) <= h < 3 * (h / 3) + 3)
    by (pose proof (Z.mul_div_le h 3); pose proof (Z.mul_succ_div_gt h 3); lia).
  assert (Hw3 : 3 * (w / 3) <= w < 3 * (w / 3) + 3)
    by (pose proof (Z.mul_div_le w 3); pose proof (Z.mul_succ_div_gt w 3); lia).
  assert (Hh23 : 3 * (h * 2 / 3) <= h * 2 < 3 * (h * 2 / 3) + 3)
    by (pose proof (Z.mul_div_le (h * 2) 3);
        pose proof (Z.mul_succ_div_gt (h * 2) 3); lia).
  assert (Hw23 : 3 * (w * 2 / 3) <= w * 2 < 3 * (w * 2 / 3) + 3)
    by (pose proof (Z.mul_div_le (w * 2) 3);
        pose proof (Z.mul_succ_div_gt (w * 2) 3); lia).
  destruct (Z.leb_spec (Z.min (h - 1) (b - 2)) (Z.max 0 (t + 2)));
    [left; split; reflexivity|].
  destruct (Z.leb_spec (Z.min (w - 1) (r - 2)) (Z.max 0 (l + 2)));
    [left; split; reflexivity|].
  right. cbn [orb]. split; [reflexivity|]. lia.
Qed.

(** X20.  The crop box: either the whole image is returned with the box of the
    whole image, or the box is the slice that was cut, at least two pixels
    are lost on every side, at most [max(1, max_crop) + 1], and the middle
    third of the rows and of the columns is kept. *)
Theorem auto_crop_box (img_rgb : grid P) :
  let h := Z.of_nat (fst (shape img_rgb)) in
  let w := Z.of_nat (snd (shape img_rgb)) in
  let '(cropped, (top, bottom, left_, right_)) :=
    auto_crop row_mean col_mean img_rgb thresh max_crop in
  (cropped = img_rgb /\ (top, bottom, left_, right_) = (0, h - 1, 0, w - 1)) \/
  (cropped = map (py_slice left_ (right_ + 1)) (py_slice top (bottom + 1) img_rgb) /\
   (2 <= top < bottom /\ bottom <= h - 3) /\
   (2 <= left_ < right_ /\ right_ <= w - 3) /\
   (top <= Z.max 1 max_crop + 1 /\ h - 2 - Z.max 1 max_crop <= bottom) /\
   (left_ <= Z.max 1 max_crop + 1 /\ w - 2 - Z.max 1 max_crop <= right_) /\
   (top <= h / 3 + 1 /\ h * 2 / 3 - 1 <= bottom) /\
   (left_ <= w / 3 + 1 /\ w * 2 / 3 - 1 <= right_)).
Proof. exact (auto_crop_cases img_rgb). Qed.

(** X21.  The returned image has the size of the returned box, also when the
    whole image is returned. *)
Theorem auto_crop_shape (img_rgb : grid P) :
  rectangular img_rgb ->
  let '(cropped, (top, bottom, left_, right_)) :=
    auto_crop row_mean col_mean img_rgb thresh max_crop in
  shape cropped = (Z.to_nat (bottom - top + 1), Z.to_nat (right_ - left_ + 1)) /\
  rectangular cropped.
Proof.
  intros Hrect. pose proof (auto_crop_cases img_rgb) as Hc. cbv zeta in Hc.
  destruct (auto_crop row_mean col_mean img_rgb thresh max_crop)
    as [cropped [[[top bottom] left_] right_]].
  destruct (rectangular_rows img_rgb _ _ Hrect eq_refl) as [_ Hw].
  destruct Hc as [[-> E]|(-> & Ht & Hl & _)].
  - injection E as -> -> -> ->. split; [|exact Hrect].
    unfold shape. cbn [fst snd]. f_equal; lia.
  - unfold shape in Ht, Hl. cbn [fst snd] in Ht, Hl.
    set (c := map _ _).
    assert (Hlen : length c = Z.to_nat (bottom - top + 1)).
    { unfold c. rewrite length_map, length_py_slice by lia. f_equal. lia. }
    assert (Hrows : Forall (fun r => length r = Z.to_nat (right_ - left_ + 1)) c).
    { unfold c. apply Forall_map. apply Forall_forall. intros r Hr.
      apply in_py_slice in Hr. rewrite Forall_forall in Hw.
      rewrite length_py_slice; [f_equal; lia|lia|].
      rewrite (Hw r Hr). lia. }
    pose proof (shape_of_rows c _ _ Hlen Hrows) as Es.
    destruct (Nat.eqb_spec (Z.to_nat (bottom - top + 1)) 0) as [E0|_]; [lia|].
    split; [exact Es|]. unfold rectangular. rewrite Es. exact Hrows.
Qed.

(** X22.  An image without a dark frame loses the pad all the same: when the
    first and the last row and column are bright, or none is, the box is
    the image less two pixels on every side. *)
Theorem auto_crop_pad_only (img_rgb : grid P) :
  let h := Z.of_nat (fst (shape img_rgb)) in
  let w := Z.of_nat (snd (shape img_rgb)) in
  let bright_row i := SFltb thresh (row_mean i) in
  let bright_col j := SFltb thresh (col_mean j) in
  6 <= h -> 6 <= w ->
  (bright_row 0 = true /\ bright_row (h - 1) = true) \/
    (forall i, bright_row i = false) ->
  (bright_col 0 = true /\ bright_col (w - 1) = true) \/
    (forall j, bright_col j = false) ->
  snd (auto_crop row_mean col_mean img_rgb thresh max_crop)
    = (2, h - 3, 2, w - 3).
Proof.
  intros h w bright_row bright_col Hh Hw Hrow Hcol. unfold auto_crop.
  destruct (shape img_rgb) as [h0 w0]. cbn [fst snd] in h, w. fold h w.
  cbv zeta. fold bright_row bright_col.
  assert (Et : first_bright bright_row (py_range 0 (Z.min max_crop (h / 3))) 0 = 0).
  { destruct Hrow as [[H0 _]|Hd].
    - apply first_bright_head; [exact H0|apply py_range_head].
    - apply first_bright_none. intros i _. apply Hd. }
  assert (Eb : first_bright bright_row
                 (py_range_down (h - 1) (Z.max (h - 1 - max_crop) (h * 2 / 3)))
                 (h - 1) = h - 1).
  { destruct Hrow as [[_ H1]|Hd].
    - apply first_bright_head; [exact H1|apply py_range_down_head].
    - apply first_bright_none. intros i _. apply Hd. }
  assert (El : first_bright bright_col (py_range 0 (Z.min max_crop (w / 3))) 0 = 0).
  { destruct Hcol as [[H0 _]|Hd].
    - apply first_bright_head; [exact H0|apply py_range_head].
    - apply first_bright_none. intros i _. apply Hd. }
  assert (Er : first_bright bright_col
                 (py_range_down (w - 1) (Z.max (w - 1 - max_crop) (w * 2 / 3)))
                 (w - 1) = w - 1).
  { destruct Hcol as [[_ H1]|Hd].
    - apply first_bright_head; [exact H1|apply py_range_down_head].
    - apply first_bright_none. intros i _. apply Hd. }
  rewrite Et, Eb, El, Er.
  destruct (Z.leb_spec (Z.min (h - 1) (h - 1 - 2)) (Z.max 0 (0 + 2))); [exfalso; lia|].
  destruct (Z.leb_spec (Z.min (w - 1) (w - 1 - 2)) (Z.max 0 (0 + 2))); [exfalso; lia|].
  cbn [orb snd].
  replace (Z.max 0 (0 + 2)) with 2 by lia.
  replace (Z.min (h - 1) (h - 1 - 2)) with (h - 3) by lia.
  replace (Z.min (w - 1) (w - 1 - 2)) with (w - 3) by lia.
  reflexivity.
Qed.
End AutoCropFacts.

Lemma auto_crop_shape_witness :
  rectangular dark_image /\
  let '(cropped, (top, bottom, left_, right_)) :=
    auto_crop dark_mean dark_mean dark_image (F64.of_Z 12) 120 in
  shape cropped = (Z.to_nat (bottom - top + 1), Z.to_nat (right_ - left_ + 1)) /\
  rectangular cropped.
Proof.
  assert (Hr : rectangular dark_image) by (vm_compute; repeat constructor).
  split; [exact Hr|].
  exact (auto_crop_shape dark_mean dark_mean (F64.of_Z 12) 120 dark_image Hr).
Defined.

Lemma auto_crop_pad_only_witness :
  6 <= Z.of_nat (fst (shape dark_image)) /\
  6 <= Z.of_nat (snd (shape dark_image)) /\
  (forall i, SFltb (F64.of_Z 12) (dark_mean i) = false) /\
  snd (auto_crop dark_mean dark_mean dark_image (F64.of_Z 12) 120)
    = (2, Z.of_nat (fst (shape dark_image)) - 3,
       2, Z.of_nat (snd (shape dark_image)) - 3).
Proof.
  assert (Hh : 6 <= Z.of_nat (fst (shape dark_image))) by (vm_compute; discriminate).
  assert (Hw : 6 <= Z.of_nat (snd (shape dark_image))) by (vm_compute; discriminate).
  assert (Hd : forall i, SFltb (F64.of_Z 12) (dark_mean i) = false)
    by (intros i; vm_compute; reflexivity).
  split; [exact Hh|]. split; [exact Hw|]. split; [exact Hd|].
  exact (auto_crop_pad_only dark_mean dark_mean (F64.of_Z 12) 120 dark_image
           Hh Hw (or_intror Hd) (or_intror Hd)).
Defined.

(** ** [create_color_image] on 8-bit planes *)

Lemma spec_float_eq_dec (x y : spec_float) : {x = y} + {x <> y}.
Proof.
  decide equality; (apply Z.eq_dec || apply Pos.eq_dec || apply Bool.bool_dec).
Defined.

(** A check that holds for every pair of grey levels holds for each. *)
Lemma for_all_greys (check : Z -> Z -> bool) :
  forallb (fun a => forallb (check a) (map Z.of_nat (seq 0 256)))
          (map Z.of_nat (seq 0 256)) = true ->
  forall a b, 0 <= a <= 255 -> 0 <= b <= 255 -> check a b = true.
Proof.
  intros Hall a b Ha Hb.
  assert (Hin : forall v, 0 <= v <= 255 -> In v (map Z.of_nat (seq 0 256))).
  { intros v Hv. apply in_map_iff. exists (Z.to_nat v). split; [lia|].
    apply in_seq. lia. }
  rewrite forallb_forall in Hall. specialize (Hall a (Hin a Ha)).
  rewrite forallb_forall in Hall. exact (Hall b (Hin b Hb)).
Qed.

(** Grey levels are exact at binary32, in their order. *)
Lemma grey_order (a b : Z) :
  0 <= a <= 255 -> 0 <= b <= 255 ->
  is_nan (F32.of_Z a) = false /\ SFltb (F32.of_Z a) (F32.of_Z b) = (a <? b).
Proof.
  intros Ha Hb.
  pose proof (for_all_greys
    (fun a b => negb (is_nan (F32.of_Z a)) &&
                Bool.eqb (SFltb (F32.of_Z a) (F32.of_Z b)) (a <? b))
    ltac:(vm_compute; reflexivity) a b Ha Hb) as Hc.
  cbv beta in Hc. apply andb_true_iff in Hc. destruct Hc as [H1 H2].
  split; [destruct (is_nan _); [discriminate|reflexivity]|].
  apply eqb_prop. exact H2.
Qed.

Lemma grey_sub (a b : Z) :
  0 <= a <= b -> b <= 255 ->
  F32.sub (F32.of_Z b) (F32.of_Z a) = F32.of_Z (b - a).
Proof.
  intros Ha Hb.
  pose proof (for_all_greys
    (fun a b => if b <? a then true
                else if spec_float_eq_dec (F32.sub (F32.of_Z b) (F32.of_Z a))
                                         (F32.of_Z (b - a))
                     then true else false)
    ltac:(vm_compute; reflexivity) a b ltac:(lia) ltac:(lia)) as Hc.
  cbv beta in Hc. destruct (Z.ltb_spec b a); [lia|].
  destruct (spec_float_eq_dec _ _) as [E|_]; [exact E|discriminate].
Qed.

(** The float pipeline of [norm] on one sample: [n] above the minimum of
    a plane of range [d]. *)
Lemma grey_stretch (n d : Z) :
  0 <= n <= d -> d <= 255 ->
  to_uint8 (F32.mul (F32.div (F32.of_Z n) (F32.add (F32.of_Z d) F32.eps)) f32_255)
  = Some (if d =? 0 then 0 else 255 * n / d).
Proof.
  intros Hn Hd.
  pose proof (for_all_greys
    (fun n d => if d <? n then true
                else match to_uint8 (F32.mul (F32.div (F32.of_Z n)
                                       (F32.add (F32.of_Z d) F32.eps)) f32_255) with
                     | Some p => p =? (if d =? 0 then 0 else 255 * n / d)
                     | None => false
                     end)
    ltac:(vm_compute; reflexivity) n d ltac:(lia) ltac:(lia)) as Hc.
  cbv beta in Hc. destruct (Z.ltb_spec d n); [lia|].
  destruct (to_uint8 _) as [p|]; [|discriminate].
  apply Z.eqb_eq in Hc. rewrite Hc. reflexivity.
Qed.

Lemma fold_min_spec (l : list Z) (a : Z) :
  let m := fold_left Z.min l a in
  (m = a \/ In m l) /\ m <= a /\ forall v, In v l -> m <= v.
Proof.
  revert a. induction l as [|x l IH]; intros a; simpl.
  - split; [left; reflexivity|]. split; [lia|]. intros v [].
  - destruct (IH (Z.min a x)) as (Hin & Hle & Hall). split; [|split].
    + destruct Hin as [E|Hin]; [|right; right; exact Hin].
      destruct (Z.min_spec a x) as [[_ E']|[_ E']]; rewrite E' in E;
        [left|right; left]; congruence.
    + lia.
    + intros v [<-|Hv]; [lia|apply Hall, Hv].
Qed.

Lemma fold_max_spec (l : list Z) (a : Z) :
  let m := fold_left Z.max l a in
  (m = a \/ In m l) /\ a <= m /\ forall v, In v l -> v <= m.
Proof.
  revert a. induction l as [|x l IH]; intros a; simpl.
  - split; [left; reflexivity|]. split; [lia|]. intros v [].
  - destruct (IH (Z.max a x)) as (Hin & Hle & Hall). split; [|split].
    + destruct Hin as [E|Hin]; [|right; right; exact Hin].
      destruct (Z.max_spec a x) as [[_ E']|[_ E']]; rewrite E' in E;
        [right; left|left]; congruence.
    + lia.
    + intros v [<-|Hv]; [lia|apply Hall, Hv].
Qed.

Lemma fold_min_greys (l : list Z) (a : Z) :
  0 <= a <= 255 -> Forall (fun v => 0 <= v <= 255) l ->
  fold_left (fun m y => if is_nan m then m else if is_nan y then y
                        else if SFltb y m then y else m)
            (map F32.of_Z l) (F32.of_Z a)
  = F32.of_Z (fold_left Z.min l a).
Proof.
  intros Ha Hl. revert a Ha. induction Hl as [|x l Hx Hl IH]; intros a Ha.
  - reflexivity.
  - cbn [map fold_left].
    destruct (grey_order a x Ha Hx) as [Na _].
    destruct (grey_order x a Hx Ha) as [Nx Lt]. rewrite Na, Nx, Lt.
    destruct (Z.ltb_spec x a).
    + rewrite Z.min_r by lia. apply IH. exact Hx.
    + rewrite Z.min_l by lia. apply IH. exact Ha.
Qed.

Lemma fold_max_greys (l : list Z) (a : Z) :
  0 <= a <= 255 -> Forall (fun v => 0 <= v <= 255) l ->
  fold_left (fun m y => if is_nan m then m else if is_nan y then y
                        else if SFltb m y then y else m)
            (map F32.of_Z l) (F32.of_Z a)
  = F32.of_Z (fold_left Z.max l a).
Proof.
  intros Ha Hl. revert a Ha. induction Hl as [|x l Hx Hl IH]; intros a Ha.
  - reflexivity.
  - cbn [map fold_left].
    destruct (grey_order a x Ha Hx) as [Na Lt].
    destruct (grey_order x a Hx Ha) as [Nx _]. rewrite Na, Nx, Lt.
    destruct (Z.ltb_spec a x).
    + rewrite Z.max_r by lia. apply IH. exact Hx.
    + rewrite Z.max_l by lia. apply IH. exact Ha.
Qed.

Lemma eight_bit_samples (x : grid Z) :
  eight_bit x -> Forall (fun v => 0 <= v <= 255) (concat x).
Proof.
  intros Hx. apply Forall_forall. intros v Hv. apply in_concat in Hv.
  destruct Hv as (r & Hr & Hv). unfold eight_bit in Hx.
  rewrite Forall_forall in Hx. specialize (Hx r Hr).
  rewrite Forall_forall in Hx. exact (Hx v Hv).
Qed.

(** The extremes of an 8-bit plane, as [norm] computes them. *)
Lemma plane_extremes (x : grid Z) :
  eight_bit x -> concat x <> [] ->
  np_min (astype x) = Ok (F32.of_Z (plane_min x)) /\
  np_max (astype x) = Ok (F32.of_Z (plane_max x)) /\
  0 <= plane_min x /\ plane_max x <= 255 /\
  forall v, In v (concat x) -> plane_min x <= v <= plane_max x.
Proof.
  intros Hx Hne. pose proof (eight_bit_samples x Hx) as Hs.
  unfold np_min, np_max, np_extremum, plane_min, plane_max, astype.
  change (@astype_float32 Z int_dtype) with F32.of_Z.
  rewrite <- concat_map. destruct (concat x) as [|a l]; [contradiction|].
  inversion Hs as [|? ? Ha Hl]; subst. cbn [map].
  rewrite fold_min_greys, fold_max_greys by assumption.
  destruct (fold_min_spec l a) as (Hin & Hle & Hall).
  destruct (fold_max_spec l a) as (Hin' & Hle' & Hall').
  cbv zeta in *. rewrite Forall_forall in Hl.
  repeat split; try reflexivity.
  - destruct Hin as [->|Hin]; [lia|]. apply (Hl _ Hin).
  - destruct Hin' as [->|Hin']; [lia|]. apply (Hl _ Hin').
  - destruct H as [<-|Hv]; [lia|apply Hall, Hv].
  - destruct H as [<-|Hv]; [lia|apply Hall', Hv].
Qed.

Lemma norm_stretch_levels (x : grid Z) :
  eight_bit x -> concat x <> [] ->
  norm x = Ok (map (map Some) (stretch_levels x)).
Proof.
  intros Hx Hne.
  destruct (plane_extremes x Hx Hne) as (Emin & Emax & Hlo & Hhi & Hall).
  unfold norm. rewrite Emin, Emax. cbn [bind]. f_equal.
  unfold stretch_levels, np_scalar, astype.
  change (@astype_float32 Z int_dtype) with F32.of_Z.
  rewrite !map_map. apply map_ext_in. intros r Hr.
  rewrite !map_map. apply map_ext_in. intros v Hv.
  assert (Hin : In v (concat x)) by (apply in_concat; exists r; auto).
  specialize (Hall v Hin).
  rewrite !grey_sub by lia. rewrite grey_stretch by lia.
  destruct (Z.eqb_spec (plane_max x - plane_min x) 0),
           (Z.eqb_spec (plane_max x) (plane_min x)); try lia; reflexivity.
Qed.

Lemma fold_min_map (f : Z -> Z) (l : list Z) (a : Z) :
  (forall u v, u <= v -> f u <= f v) ->
  fold_left Z.min (map f l) (f a) = f (fold_left Z.min l a).
Proof.
  intros Hf. revert a. induction l as [|x l IH]; intros a; [reflexivity|].
  cbn [map fold_left]. rewrite <- IH. f_equal.
  destruct (Z.le_ge_cases a x) as [Hax|Hax].
  - rewrite !Z.min_l; auto.
  - rewrite !Z.min_r; auto.
Qed.

Lemma fold_max_map (f : Z -> Z) (l : list Z) (a : Z) :
  (forall u v, u <= v -> f u <= f v) ->
  fold_left Z.max (map f l) (f a) = f (fold_left Z.max l a).
Proof.
  intros Hf. revert a. induction l as [|x l IH]; intros a; [reflexivity|].
  cbn [map fold_left]. rewrite <- IH. f_equal.
  destruct (Z.le_ge_cases a x) as [Hax|Hax].
  - rewrite !Z.max_r; auto.
  - rewrite !Z.max_l; auto.
Qed.

Lemma plane_extremes_map (f : Z -> Z) (x : grid Z) :
  (forall u v, u <= v -> f u <= f v) -> concat x <> [] ->
  plane_min (map (map f) x) = f (plane_min x) /\
  plane_max (map (map f) x) = f (plane_max x).
Proof.
  intros Hf Hne. unfold plane_min, plane_max. rewrite <- concat_map.
  destruct (concat x) as [|a l]; [contradiction|]. cbn [map].
  rewrite fold_min_map, fold_max_map by exact Hf. auto.
Qed.

(** X23.  On an 8-bit plane the floats of [norm] compute the integer stretch
    exactly: no cast to [uint8] is out of range, and no rounding shows. *)
Theorem norm_eight_bit (x : grid Z) :
  eight_bit x -> concat x <> [] ->
  norm x = Ok (map (map Some) (stretch_levels x)).
Proof. exact (norm_stretch_levels x). Qed.

Lemma norm_eight_bit_witness :
  eight_bit sample_grid /\ concat sample_grid <> [] /\
  norm sample_grid = Ok (map (map Some) (stretch_levels sample_grid)).
Proof.
  assert (H8 : eight_bit sample_grid)
    by (unfold eight_bit, sample_grid; repeat constructor; discriminate).
  assert (Hne : concat sample_grid <> []) by (vm_compute; discriminate).
  split; [exact H8|]. split; [exact Hne|].
  exact (norm_eight_bit sample_grid H8 Hne).
Defined.

(** X24.  The plane that [norm] returns is 8-bit again, of the same shape, and
    spans the whole range: its darkest sample is [0] and its brightest
    [255], unless the input has one grey level only, which gives [0]
    everywhere. *)
Theorem norm_full_range (x : grid Z) :
  eight_bit x -> concat x <> [] ->
  exists y : grid Z,
    norm x = Ok (map (map Some) y) /\
    shape y = shape x /\ eight_bit y /\
    plane_min y = 0 /\
    plane_max y = (if plane_max x =? plane_min x then 0 else 255).
Proof.
  intros Hx Hne. exists (stretch_levels x).
  split; [apply norm_stretch_levels; assumption|].
  destruct (plane_extremes x Hx Hne) as (_ & _ & Hlo & Hhi & Hall).
  unfold stretch_levels. cbv zeta.
  set (lo := plane_min x) in *. set (hi := plane_max x) in *.
  set (f := fun v => if hi =? lo then 0 else 255 * (v - lo) / (hi - lo)).
  assert (Hlohi : lo <= hi).
  { destruct (concat x) as [|a l] eqn:E; [contradiction|].
    specialize (Hall a (or_introl eq_refl)). lia. }
  assert (Hf : forall u v, u <= v -> f u <= f v).
  { intros u v Huv. unfold f. destruct (Z.eqb_spec hi lo); [lia|].
    apply Z.div_le_mono; lia. }
  destruct (plane_extremes_map f x Hf Hne) as [Emin Emax].
  split; [apply shape_map|]. split; [|split].
  - unfold eight_bit. apply Forall_map, Forall_forall. intros r Hr.
    apply Forall_map, Forall_forall. intros v Hv.
    assert (Hin : In v (concat x)) by (apply in_concat; exists r; auto).
    specialize (Hall v Hin). unfold f. destruct (Z.eqb_spec hi lo); [lia|].
    split.
    + apply Z.div_pos; lia.
    + apply Z.div_le_upper_bound; nia.
  - rewrite Emin. unfold f. fold lo. destruct (Z.eqb_spec hi lo); [reflexivity|].
    rewrite Z.sub_diag, Z.mul_0_r. apply Z.div_0_l. lia.
  - rewrite Emax. unfold f. fold hi. destruct (Z.eqb_spec hi lo); [reflexivity|].
    apply Z.div_mul. lia.
Qed.

Lemma norm_full_range_witness :
  eight_bit flat_grid /\ concat flat_grid <> [] /\
  exists y : grid Z,
    norm flat_grid = Ok (map (map Some) y) /\
    shape y = shape flat_grid /\ eight_bit y /\
    plane_min y = 0 /\
    plane_max y = (if plane_max flat_grid =? plane_min flat_grid then 0 else 255).
Proof.
  assert (H8 : eight_bit flat_grid)
    by (unfold eight_bit, flat_grid; repeat constructor; discriminate).
  assert (Hne : concat flat_grid <> []) by (vm_compute; discriminate).
  split; [exact H8|]. split; [exact Hne|].
  exact (norm_full_range flat_grid H8 Hne).
Defined.

Lemma shape_map2 {X Y W} (f : list X -> list Y -> list W) (a : grid X) (b : grid Y)
    (n : nat -> nat -> nat) :
  (forall r s, length (f r s) = n (length r) (length s)) ->
  n 0%nat 0%nat = 0%nat ->
  fst (shape a) = fst (shape b) ->
  shape (map2 f a b) = (fst (shape a), n (snd (shape a)) (snd (shape b))).
Proof.
  intros Hf H0 E. unfold shape, map2 in *. cbn [fst snd] in *.
  rewrite length_map, length_combine, <- E, Nat.min_id.
  destruct a as [|r a], b as [|s b]; simpl in *; try discriminate;
    rewrite ?H0, ?Hf; reflexivity.
Qed.

Lemma np_dstack_shape {X} (a b c : grid X) :
  shape b = shape a -> shape c = shape a ->
  exists img, np_dstack a b c = Ok img /\ shape img = shape a.
Proof.
  intros Eb Ec. unfold np_dstack. rewrite Eb, Ec, !Nat.eqb_refl. cbn [andb].
  eexists. split; [reflexivity|].
  assert (Hbc : shape (map2 (fun rb rc => combine rb rc) b c) = shape a).
  { rewrite (shape_map2 _ b c Nat.min); try (rewrite ?Eb, ?Ec; reflexivity).
    - rewrite Eb, Ec, Nat.min_id. destruct (shape a); reflexivity.
    - intros r s. apply length_combine. }
  rewrite (shape_map2 _ a _ Nat.min); try (rewrite ?Hbc; reflexivity).
  - rewrite Hbc, Nat.min_id. destruct (shape a); reflexivity.
  - intros r s. unfold map2. rewrite length_map. apply length_combine.
Qed.

(** X25.  The colour image of three 8-bit planes of one shape: each plane is
    stretched on its own, by the integer formula, and the pixels are
    stacked red, green, blue. *)
Theorem create_color_image_eight_bit (b g r : grid Z) :
  eight_bit b -> eight_bit g -> eight_bit r ->
  concat b <> [] -> concat g <> [] -> concat r <> [] ->
  shape g = shape b -> shape r = shape b ->
  create_color_image b g r =
    np_dstack (map (map Some) (stretch_levels r))
              (map (map Some) (stretch_levels g))
              (map (map Some) (stretch_levels b)) /\
  exists img, create_color_image b g r = Ok img /\ shape img = shape b.
Proof.
  intros Hb Hg Hr Nb Ng Nr Eg Er. unfold create_color_image.
  rewrite !norm_stretch_levels by assumption. cbn [bind].
  split; [reflexivity|].
  assert (Hs : forall p : grid Z,
            shape (map (map Some) (stretch_levels p)) = shape p).
  { intros p. rewrite shape_map. unfold stretch_levels. apply shape_map. }
  destruct (np_dstack_shape (map (map Some) (stretch_levels r))
              (map (map Some) (stretch_levels g))
              (map (map Some) (stretch_levels b))) as (img & E & Es).
  - rewrite !Hs. congruence.
  - rewrite !Hs. congruence.
  - exists img. split; [exact E|]. rewrite Es, Hs. exact Er.
Qed.

Lemma create_color_image_eight_bit_witness :
  eight_bit small_ref /\ eight_bit flat_grid /\
  concat small_ref <> [] /\ concat flat_grid <> [] /\
  shape flat_grid = shape small_ref /\
  create_color_image small_ref flat_grid small_ref =
    np_dstack (map (map Some) (stretch_levels small_ref))
              (map (map Some) (stretch_levels flat_grid))
              (map (map Some) (stretch_levels small_ref)) /\
  exists img,
    create_color_image small_ref flat_grid small_ref = Ok img /\
    shape img = shape small_ref.
Proof.
  assert (H1 : eight_bit small_ref)
    by (unfold eight_bit, small_ref; repeat constructor; discriminate).
  assert (H2 : eight_bit flat_grid)
    by (unfold eight_bit, flat_grid; repeat constructor; discriminate).
  assert (N1 : concat small_ref <> []) by (vm_compute; discriminate).
  assert (N2 : concat flat_grid <> []) by (vm_compute; discriminate).
  assert (Es : shape flat_grid = shape small_ref) by reflexivity.
  split; [exact H1|]. split; [exact H2|]. split; [exact N1|]. split; [exact N2|].
  split; [exact Es|].
  exact (create_color_image_eight_bit small_ref flat_grid small_ref
           H1 H2 H1 N1 N2 N1 Es eq_refl).
Defined.

(** X26.  A plate with fewer than three rows has no plane to compose: the blue
    plane is empty and [create_color_image] raises [ValueError], whatever
    the other two planes are. *)
Theorem create_color_image_small_plate {A} `{Dtype A} (stacked_img : grid A) :
  (length stacked_img < 3)%nat ->
  let '(b, _, _) := split_image stacked_img in
  forall g r, create_color_image b g r = Raise ValueError.
Proof.
  intros Hlen. rewrite split_image_planes.
  rewrite (Nat.div_small _ 3 Hlen). cbn [firstn]. intros g r. reflexivity.
Qed.

Lemma create_color_image_small_plate_witness :
  (length small_ref < 3)%nat /\
  let '(b, _, _) := split_image small_ref in
  forall g r, create_color_image b g r = Raise ValueError.
Proof.
  assert (Hlen : (length small_ref < 3)%nat) by (vm_compute; lia).
  split; [exact Hlen|].
  exact (create_color_image_small_plate small_ref Hlen).
Defined.
